(** * Buildlog recorder: the recording session and the components around it

    A shallow embedding of [RecordingSession] (recorder/RecordingSession.ts,
    v2 slim workflow format) and of [AgentFeedWatcher]
    (agent/AgentFeedWatcher.ts), with the properties of the session state
    machine, of artifact assembly and of the feed adapter; then of the
    components that call the session or prepare what it is given: the file
    change watcher, the chat participant, the global chat interceptor, the
    stop command, the writer's file names, the identifiers and the clock of
    the status bar.

    Conventions of the embedding.
    - A method that may throw is a computation in the monad [JS W]: a function
      from the world [W] to a completion (normal return or thrown error) and
      the world it leaves behind.  A throw does not roll the world back.
    - [uuidv4()], [Date.now()], [new Date()] and the process environment are
      read from an [Env] record handed to each call.
    - The step log [this.steps] is a JavaScript array held by reference: the
      world carries a heap of arrays and the session (and the artifact) hold
      a location in it.
    - Parameters are typed as the TypeScript signatures declare them
      ([?] is [option], a string-literal union is an enumeration) with two
      exceptions.  [OutcomeStatus] stays a string because [stop] tests it for
      truthiness.  The arguments a mutation method reads again after it has
      taken them, to log them or to iterate over them, are JavaScript values
      of any shape, because the feed adapter hands over whatever the feed
      holds: the content of [addPrompt] and [addNote], the summary and the
      two tracked file lists of [addAction].
    - What goes to the console is not modelled, but the evaluation of the
      text that goes there is, where it can throw.
    - A string is a sequence of code units below 256.
    - An asynchronous function is cut at its [await]s: the calls other
      components make on the session in the meantime are an argument.
    - Library functions whose result is only passed on ([JSON.parse],
      [asRelativePath], the regular expressions that pick file names out of
      a text) are variables of a section. *)

From stdpp Require Import base decidable option list gmap strings pretty.
From Stdlib Require Import ZArith Lia.
From Stdlib Require Floats.PrimFloat.
From Stdlib Require HexadecimalString.

Local Open Scope string_scope.
Local Open Scope list_scope.
Local Open Scope nat_scope.
Local Open Scope stdpp_scope.

(** ** Completions and the monad of throwing, world-passing computations *)

Inductive JSError :=
  | Error (message : string)
  | TypeError (message : string)
  | SyntaxError (message : string).

Inductive Completion (A : Type) :=
  | Returns (a : A)
  | Throws (e : JSError).
Arguments Returns {A} a.
Arguments Throws {A} e.

Definition JS (W A : Type) : Type := W → Completion A * W.

Global Instance JS_ret {W} : MRet (JS W) := λ A a w, (Returns a, w).

Global Instance JS_bind {W} : MBind (JS W) := λ A B f m w,
  match m w with
  | (Returns a, w') => f a w'
  | (Throws e, w') => (Throws e, w')
  end.

Definition throw {W A} (e : JSError) : JS W A := λ w, (Throws e, w).

Definition try_catch {W A} (body : JS W A) (handler : JSError → JS W A) : JS W A :=
  λ w, match body w with
       | (Returns a, w') => (Returns a, w')
       | (Throws e, w') => handler e w'
       end.

Definition gets {W A} (f : W → A) : JS W A := λ w, (Returns (f w), w).

Definition modify {W} (f : W → W) : JS W unit := λ w, (Returns tt, f w).

(** [for (const x of xs) body(x)]: an exception leaving the body ends the loop. *)
Fixpoint for_of {W A} (xs : list A) (body : A → JS W unit) : JS W unit :=
  match xs with
  | [] => mret tt
  | x :: xs' => body x;; for_of xs' body
  end.

Definition returned {A} (c : Completion A) : bool :=
  match c with Returns _ => true | Throws _ => false end.

(** JavaScript truthiness of a string and the [a || b] idiom on strings. *)
Definition truthy_string (s : string) : bool :=
  match s with EmptyString => false | String _ _ => true end.

Definition or_string (a : option string) (b : string) : string :=
  match a with
  | Some s => if truthy_string s then s else b
  | None => b
  end.

(** [Math.round(ms / 1000)]: rounding to nearest, halves upwards. *)
Definition round_seconds (ms : Z) : Z := ((ms + 500) `div` 1000)%Z.

(** What one call reads from its environment. *)
Record Env := {
  uuidv4 : string;              (* the identifier uuidv4() hands out *)
  Date_now : Z;                 (* milliseconds since the epoch *)
  toLocaleDateString : string;  (* new Date().toLocaleDateString() *)
  askpass_node : string;        (* process.env.VSCODE_GIT_ASKPASS_NODE || '' *)
}.

(** ** JavaScript values

    What a parameter holds at run time, whatever its signature declares: the
    values [JSON.parse] builds.  None of them is a function, and every
    occurrence of an array or of an object is a new one, the same as none
    met before. *)

Module Values.

#[warnings="-register-all"] Inductive JSValue :=
  | JUndefined
  | JNull
  | JBool (b : bool)
  | JNumber (x : PrimFloat.float)
  | JString (s : string)
  | JArray (items : list JSValue)
  | JObject (fields : list (string * JSValue)).

Coercion JString : string >-> JSValue.

(** ToBoolean. *)
Definition truthy (v : JSValue) : bool :=
  match v with
  | JUndefined | JNull => false
  | JBool b => b
  | JNumber x => negb (PrimFloat.eqb x PrimFloat.zero) && PrimFloat.eqb x x
  | JString s => truthy_string s
  | JArray _ | JObject _ => true
  end.

(** [a || b] and [c ? a : b]. *)
Definition js_or (a b : JSValue) : JSValue := if truthy a then a else b.
Definition js_cond (c a b : JSValue) : JSValue := if truthy c then a else b.

Fixpoint own_property (fields : list (string * JSValue)) (k : string) : option JSValue :=
  match fields with
  | [] => None
  | (k', v) :: fields' => if decide (k' = k) then Some v else own_property fields' k
  end.

(** [v.k] for the property names the adapter reads, none of which is found on
    a prototype: a property of an object of the feed, [undefined] on any
    other value, and a TypeError on [null] and [undefined]. *)
Definition property {W} (v : JSValue) (k : string) : JS W JSValue :=
  match v with
  | JUndefined | JNull =>
      throw (TypeError ("Cannot read properties of null (reading '" +:+ k +:+ "')"))
  | JObject fields => mret (default JUndefined (own_property fields k))
  | _ => mret JUndefined
  end.

(** The same where the value is known not to be [null] or [undefined]. *)
Definition get (entry : JSValue) (k : string) : JSValue :=
  match entry with
  | JObject fields => default JUndefined (own_property fields k)
  | _ => JUndefined
  end.

Definition has_property (v : JSValue) (k : string) : bool :=
  match v with
  | JObject fields => bool_decide (is_Some (own_property fields k))
  | _ => false
  end.

Definition nullish (v : JSValue) : bool :=
  match v with JUndefined | JNull => true | _ => false end.

(** [v === s] for a string literal [s]. *)
Definition strict_equals (v : JSValue) (s : string) : bool :=
  match v with
  | JString s' => bool_decide (s' = s)
  | _ => false
  end.

(** Whether ToString throws.  An object with a [toString] property of its own
    has no callable one, and the [valueOf] it falls back on does not return a
    primitive; an array joins the texts of its elements, [null] and
    [undefined] counting as empty; every other value has a text. *)
Fixpoint toString_throws (v : JSValue) : bool :=
  match v with
  | JObject fields => bool_decide (is_Some (own_property fields "toString"))
  | JArray items => existsb toString_throws items
  | _ => false
  end.

(** A value in a template literal.  The text goes to the console; what is
    kept of it is whether making it throws. *)
Definition interpolate {W} (v : JSValue) : JS W unit :=
  if toString_throws v
  then throw (TypeError "Cannot convert object to primitive value")
  else mret tt.

(** [v.substring(0, 60)] in a template literal, likewise. *)
Definition substring_0_60 {W} (name : string) (v : JSValue) : JS W unit :=
  match v with
  | JString _ => mret tt
  | JUndefined =>
      throw (TypeError "Cannot read properties of undefined (reading 'substring')")
  | JNull => throw (TypeError "Cannot read properties of null (reading 'substring')")
  | _ => throw (TypeError (name +:+ ".substring is not a function"))
  end.

(** [v?.forEach(f)]: nothing on [null] and [undefined], the elements in order
    on an array, and a TypeError on any other value, none of which has a
    callable [forEach]. *)
Definition optional_forEach {W} (name : string) (v : JSValue)
    (f : JSValue → JS W unit) : JS W unit :=
  match v with
  | JUndefined | JNull => mret tt
  | JArray items => for_of items f
  | _ => throw (TypeError (name +:+ "?.forEach is not a function"))
  end.

(** [v?.length ? v.join(', ') : ''] in a template literal: the elements of a
    non-empty array are converted to text; a non-empty string and an object
    with a truthy [length] have no callable [join]. *)
Definition join_if_length {W} (name : string) (v : JSValue) : JS W unit :=
  match v with
  | JArray (_ :: _) => interpolate v
  | JString (String _ _) => throw (TypeError (name +:+ ".join is not a function"))
  | JObject _ =>
      if truthy (get v "length")
      then throw (TypeError (name +:+ ".join is not a function"))
      else mret tt
  | _ => mret tt
  end.

(** SameValueZero, the equality of [Set]: [NaN] equals itself and the two
    zeros are equal. *)
Definition same_value_zero (a b : JSValue) : bool :=
  match a, b with
  | JUndefined, JUndefined | JNull, JNull => true
  | JBool x, JBool y => bool_decide (x = y)
  | JNumber x, JNumber y =>
      PrimFloat.eqb x y || negb (PrimFloat.eqb x x) && negb (PrimFloat.eqb y y)
  | JString x, JString y => bool_decide (x = y)
  | _, _ => false
  end.

(** A [Set], its elements in insertion order, and [Set.prototype.add]. *)
Definition Set_add (v : JSValue) (s : list JSValue) : list JSValue :=
  if existsb (same_value_zero v) s then s else s ++ [v].

(** The values a caller that keeps to the declared types hands over for a
    [string[]] and for an optional one. *)
Definition strings (l : list string) : JSValue := JArray (JString <$> l).

Definition optional_strings (o : option (list string)) : JSValue :=
  from_option strings JUndefined o.

End Values.

(** ** Types (types.ts, v2.0.0) *)

Module Types.
Import Values.

Definition BUILDLOG_VERSION : string := "2.0.0".

Inductive BuildlogFormat := slim | full.
Inductive EditorType :=
  cursor | vscode | windsurf | zed | neovim | jetbrains | openclaw | other_editor.
Inductive AIProvider := claude | gpt | copilot | gemini | other_provider.
Inductive NoteCategory := explanation | tip | warning | decision | todo.
Inductive TerminalOutcome := success | failure | partial.

(** [OutcomeStatus] at run time: the four literals are the declared values. *)
Definition OutcomeStatus := string.
Definition declared_status (s : OutcomeStatus) : Prop :=
  s = "success" ∨ s = "partial" ∨ s = "failure" ∨ s = "abandoned".

Inductive StepType := prompt | action | terminal | note | checkpoint | error.

Global Instance StepType_eq_dec : EqDecision StepType.
Proof. solve_decision. Defined.

(** The kind-specific part of a step.  The fields a mutation method reads
    again after it has built the step hold what the caller handed over. *)
Inductive StepVariant :=
  | PromptStep (content : JSValue) (context : option (list string))
               (intent : option string)
  | ActionStep (summary : JSValue) (filesCreated filesModified : JSValue)
               (filesDeleted : option (list string)) (approach : option string)
  | TerminalStep (command : string) (outcome : TerminalOutcome)
                 (summary : option string) (exitCode : option Z)
  | NoteStep (content : JSValue) (category : option NoteCategory)
  | CheckpointStep (name summary : string)
  | ErrorStep (message : string) (resolved : bool) (resolution : option string).

(** [BaseStep] fields and the variant. *)
Record BuildlogStep := {
  step_id : string;
  step_timestamp : Z;
  step_sequence : nat;
  step_variant : StepVariant;
}.

Definition variant_type (v : StepVariant) : StepType :=
  match v with
  | PromptStep _ _ _ => prompt
  | ActionStep _ _ _ _ _ => action
  | TerminalStep _ _ _ _ => terminal
  | NoteStep _ _ => note
  | CheckpointStep _ _ => checkpoint
  | ErrorStep _ _ _ => error
  end.

Definition step_type (s : BuildlogStep) : StepType := variant_type (step_variant s).

Record BuildlogMetadata := {
  md_id : string;
  md_title : string;
  md_createdAt : Z;            (* the instant whose ISO 8601 text is stored *)
  md_durationSeconds : Z;
  md_editor : EditorType;
  md_aiProvider : AIProvider;
  md_replicable : bool;
}.

Record BuildlogOutcome := {
  oc_status : OutcomeStatus;
  oc_summary : string;
  oc_filesCreated : nat;
  oc_filesModified : nat;
  oc_canReplicate : bool;
}.

(** [steps] is the reference to the array, as in the source. *)
Record BuildlogFile := {
  bf_version : string;
  bf_format : BuildlogFormat;
  bf_metadata : BuildlogMetadata;
  bf_steps : nat;
  bf_outcome : BuildlogOutcome;
}.

(** [String.prototype.includes] and [toLowerCase], the latter on the letters
    A to Z. *)
Fixpoint is_prefix (p s : string) : bool :=
  match p, s with
  | EmptyString, _ => true
  | String a p', String b s' => if decide (a = b) then is_prefix p' s' else false
  | String _ _, EmptyString => false
  end.

Fixpoint includes (s needle : string) : bool :=
  is_prefix needle s ||
  match s with
  | EmptyString => false
  | String _ s' => includes s' needle
  end.

Definition lower (c : Ascii.ascii) : Ascii.ascii :=
  let n := Ascii.nat_of_ascii c in
  if decide (65 ≤ n ≤ 90) then Ascii.ascii_of_nat (n + 32) else c.

Fixpoint toLowerCase (s : string) : string :=
  match s with
  | EmptyString => EmptyString
  | String c s' => String (lower c) (toLowerCase s')
  end.

Definition detectEditor (env : Env) : EditorType :=
  let appName := askpass_node env in
  if includes (toLowerCase appName) "cursor" then cursor
  else if includes (toLowerCase appName) "windsurf" then windsurf
  else vscode.

Definition detectAIProvider : AIProvider := copilot.

End Types.

(** ** RecordingSession (recorder/RecordingSession.ts) *)

Module RecordingSession.
Export Values.
Import Types.

Inductive RecordingState := idle | recording | paused.

Global Instance RecordingState_eq_dec : EqDecision RecordingState.
Proof. solve_decision. Defined.

(** The private fields of the class.  [steps] is a reference into the heap of
    arrays; the two [Set] objects never leave the session and are kept by
    value. *)
Record Session := {
  state : RecordingState;
  sessionId : string;
  title : string;
  startTime : option Z;
  steps : nat;
  sequenceCounter : nat;
  filesCreated : list JSValue;
  filesModified : list JSValue;
}.

(** What the two event emitters delivered to their subscribers. *)
Inductive Emission :=
  | StateChange (s : RecordingState)
  | Step (s : BuildlogStep).

Record World := {
  heap : list (list BuildlogStep);
  this : Session;
  fired : list Emission;
}.

Definition on_this (f : Session → Session) (w : World) : World :=
  {| heap := heap w; this := f (this w); fired := fired w |}.

Definition set_state v (s : Session) : Session :=
  {| state := v; sessionId := sessionId s; title := title s;
     startTime := startTime s; steps := steps s;
     sequenceCounter := sequenceCounter s;
     filesCreated := filesCreated s; filesModified := filesModified s |}.
Definition set_sessionId v (s : Session) : Session :=
  {| state := state s; sessionId := v; title := title s;
     startTime := startTime s; steps := steps s;
     sequenceCounter := sequenceCounter s;
     filesCreated := filesCreated s; filesModified := filesModified s |}.
Definition set_title v (s : Session) : Session :=
  {| state := state s; sessionId := sessionId s; title := v;
     startTime := startTime s; steps := steps s;
     sequenceCounter := sequenceCounter s;
     filesCreated := filesCreated s; filesModified := filesModified s |}.
Definition set_startTime v (s : Session) : Session :=
  {| state := state s; sessionId := sessionId s; title := title s;
     startTime := v; steps := steps s;
     sequenceCounter := sequenceCounter s;
     filesCreated := filesCreated s; filesModified := filesModified s |}.
Definition set_steps v (s : Session) : Session :=
  {| state := state s; sessionId := sessionId s; title := title s;
     startTime := startTime s; steps := v;
     sequenceCounter := sequenceCounter s;
     filesCreated := filesCreated s; filesModified := filesModified s |}.
Definition set_sequenceCounter v (s : Session) : Session :=
  {| state := state s; sessionId := sessionId s; title := title s;
     startTime := startTime s; steps := steps s;
     sequenceCounter := v;
     filesCreated := filesCreated s; filesModified := filesModified s |}.
Definition set_filesCreated v (s : Session) : Session :=
  {| state := state s; sessionId := sessionId s; title := title s;
     startTime := startTime s; steps := steps s;
     sequenceCounter := sequenceCounter s;
     filesCreated := v; filesModified := filesModified s |}.
Definition set_filesModified v (s : Session) : Session :=
  {| state := state s; sessionId := sessionId s; title := title s;
     startTime := startTime s; steps := steps s;
     sequenceCounter := sequenceCounter s;
     filesCreated := filesCreated s; filesModified := v |}.

(** *** The heap of arrays *)

(** The array literal [[]]: a fresh, empty array. *)
Definition new_array : JS World nat := λ w,
  (Returns (length (heap w)),
   {| heap := heap w ++ [[]]; this := this w; fired := fired w |}).

(** The elements of the array at [r] (none for a reference never handed out). *)
Definition array_at (h : list (list BuildlogStep)) (r : nat) : list BuildlogStep :=
  default [] (h !! r).

(** [array.push(x)] on the array at [r]. *)
Definition array_push (r : nat) (x : BuildlogStep) : JS World unit := λ w,
  (Returns tt,
   {| heap := alter (λ a, a ++ [x]) r (heap w); this := this w; fired := fired w |}).

Definition fire (e : Emission) : JS World unit := λ w,
  (Returns tt, {| heap := heap w; this := this w; fired := fired w ++ [e] |}).

(** *** Construction *)

(** [new RecordingSession(options)] in a program that has no other array yet. *)
Definition constructor (env : Env) : World :=
  {| heap := [[]];
     this := {| state := idle; sessionId := uuidv4 env; title := "";
                startTime := None; steps := 0; sequenceCounter := 0;
                filesCreated := []; filesModified := [] |};
     fired := [] |}.

(** *** Private helpers *)

Definition setState (s : RecordingState) : JS World unit :=
  modify (on_this (set_state s));;
  fire (StateChange s).

Definition reset : JS World unit :=
  r ← new_array;
  modify (on_this (set_steps r));;
  modify (on_this (set_startTime None));;
  modify (on_this (set_title ""));;
  modify (on_this (set_sequenceCounter 0));;
  modify (on_this (set_filesCreated []));;
  modify (on_this (set_filesModified [])).

Definition addStep (step : BuildlogStep) : JS World unit :=
  r ← gets (steps ∘ this);
  array_push r step;;
  fire (Step step).

Definition getTimestamp (env : Env) : JS World Z :=
  t0 ← gets (startTime ∘ this);
  match t0 with
  | None => mret 0%Z
  | Some t => mret (round_seconds (Date_now env - t))
  end.

(** [this.sequenceCounter++] *)
Definition next_sequence : JS World nat :=
  n ← gets (sequenceCounter ∘ this);
  modify (on_this (set_sequenceCounter (S n)));;
  mret n.

(** *** Accessors *)

Definition getState (w : World) : RecordingState := state (this w).

Definition isRecording (w : World) : bool := bool_decide (getState w = recording).

Definition getDuration (env : Env) (w : World) : Z :=
  match startTime (this w) with
  | None => 0%Z
  | Some t => (Date_now env - t)%Z
  end.

Definition current_steps (w : World) : list BuildlogStep :=
  array_at (heap w) (steps (this w)).

Definition of_type (t : StepType) (l : list BuildlogStep) : list BuildlogStep :=
  filter (λ s, step_type s = t) l.

Definition getStepCount (w : World) : nat := length (current_steps w).

Definition getPromptCount (w : World) : nat :=
  length (of_type prompt (current_steps w)).

Definition getTitle (w : World) : string := title (this w).

Definition setTitle (t : string) : JS World unit := modify (on_this (set_title t)).

Record Stats := {
  totalSteps : nat;
  prompts : nat;
  actions : nat;
  notes : nat;
  others : Z;
  stat_filesCreated : nat;
  stat_filesModified : nat;
}.

Definition getStats (w : World) : Stats :=
  let l := current_steps w in
  let prompts := length (of_type prompt l) in
  let actions := length (of_type action l) in
  let notes := length (of_type note l) in
  {| totalSteps := length l;
     prompts := prompts;
     actions := actions;
     notes := notes;
     others := (Z.of_nat (length l) - Z.of_nat prompts - Z.of_nat actions
                - Z.of_nat notes)%Z;
     stat_filesCreated := length (filesCreated (this w));
     stat_filesModified := length (filesModified (this w)) |}.

(** *** start and stop *)

Definition start (env : Env) (title : option string) : JS World unit :=
  st ← gets getState;
  if decide (st = recording) then throw (Error "Recording already in progress")
  else
    modify (on_this (set_sessionId (uuidv4 env)));;
    modify (on_this (set_title
      (or_string title ("Workflow " +:+ toLocaleDateString env))));;
    modify (on_this (set_startTime (Some (Date_now env))));;
    r ← new_array;
    modify (on_this (set_steps r));;
    modify (on_this (set_sequenceCounter 0));;
    modify (on_this (set_filesCreated []));;
    modify (on_this (set_filesModified []));;
    setState recording.

(** The optional argument of [stop]. *)
Record StopOutcome := { so_status : OutcomeStatus; so_summary : string }.

Definition is_prompt (s : BuildlogStep) : bool := bool_decide (step_type s = prompt).

Definition stop (env : Env) (outcome : option StopOutcome) : JS World BuildlogFile :=
  st ← gets getState;
  if decide (st ≠ recording) then throw (Error "No recording in progress")
  else
    t0 ← gets (startTime ∘ this);
    match t0 with
    | None => throw (TypeError "Cannot read properties of undefined (reading 'getTime')")
    | Some t =>
      let durationSeconds := round_seconds (Date_now env - t) in
      l ← gets current_steps;
      let hasPrompts := existsb is_prompt l in
      s ← gets this;
      let metadata :=
        {| md_id := sessionId s;
           md_title := title s;
           md_createdAt := t;
           md_durationSeconds := durationSeconds;
           md_editor := detectEditor env;
           md_aiProvider := detectAIProvider;
           md_replicable := hasPrompts |} in
      let buildlogOutcome :=
        {| oc_status := or_string (so_status <$> outcome)
                          (if hasPrompts then "success" else "abandoned");
           oc_summary := or_string (so_summary <$> outcome)
                           ("Recorded " +:+ pretty (length l) +:+ " steps");
           oc_filesCreated := length (filesCreated s);
           oc_filesModified := length (filesModified s);
           oc_canReplicate := hasPrompts |} in
      let buildlog :=
        {| bf_version := BUILDLOG_VERSION;
           bf_format := slim;
           bf_metadata := metadata;
           bf_steps := steps s;
           bf_outcome := buildlogOutcome |} in
      setState idle;;
      reset;;
      mret buildlog
    end.

(** *** The mutation methods

    The arguments a method only stores are typed as its signature declares
    them.  Those it reads again, to log them or to fill the two sets, are
    JavaScript values: the content of [addPrompt] and [addNote], and the
    summary and the two tracked file lists of [addAction]. *)

Record PromptOptions := {
  po_context : option (list string);
  po_intent : option string;
}.

Record ActionOptions := {
  ao_filesCreated : JSValue;
  ao_filesModified : JSValue;
  ao_filesDeleted : option (list string);
  ao_approach : option string;
}.

Record TerminalOptions := {
  to_summary : option string;
  to_exitCode : option Z;
}.

(** [options?.field] for a field that holds a value. *)
Definition optional {A} (field : A → JSValue) (options : option A) : JSValue :=
  from_option field JUndefined options.

(** The step is built, and its sequence number drawn, before the line that
    logs it is; the step is appended after. *)
Definition addPrompt (env : Env) (content : JSValue)
    (options : option PromptOptions) : JS World unit :=
  st ← gets getState;
  if decide (st ≠ recording) then mret tt
  else
    ts ← getTimestamp env;
    n ← next_sequence;
    let step := {| step_id := uuidv4 env; step_timestamp := ts; step_sequence := n;
                   step_variant := PromptStep content (options ≫= po_context)
                                     (options ≫= po_intent) |} in
    substring_0_60 "content" content;;
    addStep step.

Definition addAction (env : Env) (summary : JSValue)
    (options : option ActionOptions) : JS World unit :=
  st ← gets getState;
  if decide (st ≠ recording) then mret tt
  else
    optional_forEach "options?.filesCreated" (optional ao_filesCreated options)
      (λ f, modify (on_this (λ s, set_filesCreated (Set_add f (filesCreated s)) s)));;
    optional_forEach "options?.filesModified" (optional ao_filesModified options)
      (λ f, modify (on_this (λ s, set_filesModified (Set_add f (filesModified s)) s)));;
    ts ← getTimestamp env;
    n ← next_sequence;
    let step := {| step_id := uuidv4 env; step_timestamp := ts; step_sequence := n;
                   step_variant := ActionStep summary
                                     (optional ao_filesCreated options)
                                     (optional ao_filesModified options)
                                     (options ≫= ao_filesDeleted)
                                     (options ≫= ao_approach) |} in
    join_if_length "options.filesModified" (optional ao_filesModified options);;
    interpolate summary;;
    addStep step.

Definition addTerminal (env : Env) (command : string) (outcome : TerminalOutcome)
    (options : option TerminalOptions) : JS World unit :=
  st ← gets getState;
  if decide (st ≠ recording) then mret tt
  else
    ts ← getTimestamp env;
    n ← next_sequence;
    addStep {| step_id := uuidv4 env; step_timestamp := ts; step_sequence := n;
               step_variant := TerminalStep command outcome
                                 (options ≫= to_summary)
                                 (options ≫= to_exitCode) |}.

Definition addNote (env : Env) (content : JSValue)
    (category : option NoteCategory) : JS World unit :=
  st ← gets getState;
  if decide (st ≠ recording) then mret tt
  else
    ts ← getTimestamp env;
    n ← next_sequence;
    let step := {| step_id := uuidv4 env; step_timestamp := ts; step_sequence := n;
                   step_variant := NoteStep content category |} in
    substring_0_60 "content" content;;
    addStep step.

Definition addCheckpoint (env : Env) (name summary : string) : JS World unit :=
  st ← gets getState;
  if decide (st ≠ recording) then mret tt
  else
    ts ← getTimestamp env;
    n ← next_sequence;
    addStep {| step_id := uuidv4 env; step_timestamp := ts; step_sequence := n;
               step_variant := CheckpointStep name summary |}.

(** [resolved: boolean = false]: an omitted argument takes the default. *)
Definition addError (env : Env) (message : string) (resolved : option bool)
    (resolution : option string) : JS World unit :=
  st ← gets getState;
  if decide (st ≠ recording) then mret tt
  else
    ts ← getTimestamp env;
    n ← next_sequence;
    addStep {| step_id := uuidv4 env; step_timestamp := ts; step_sequence := n;
               step_variant := ErrorStep message (default false resolved)
                                 resolution |}.

(** *** Calls from the orchestrating layer

    A [Call] is one invocation of the public API; [call] dispatches it, and
    [run] plays a history of calls, each with the environment it saw.  A
    caller that receives an exception carries on with the world the failed
    call left behind. *)

Inductive Call :=
  | Start (title : option string)
  | Stop (outcome : option StopOutcome)
  | AddPrompt (content : JSValue) (options : option PromptOptions)
  | AddAction (summary : JSValue) (options : option ActionOptions)
  | AddTerminal (command : string) (outcome : TerminalOutcome)
                (options : option TerminalOptions)
  | AddNote (content : JSValue) (category : option NoteCategory)
  | AddCheckpoint (name summary : string)
  | AddError (message : string) (resolved : option bool)
             (resolution : option string)
  | SetTitle (title : string).

Definition call (env : Env) (c : Call) : JS World (option BuildlogFile) :=
  match c with
  | Start t => start env t;; mret None
  | Stop o => a ← stop env o; mret (Some a)
  | AddPrompt content options => addPrompt env content options;; mret None
  | AddAction summary options => addAction env summary options;; mret None
  | AddTerminal command outcome options =>
      addTerminal env command outcome options;; mret None
  | AddNote content category => addNote env content category;; mret None
  | AddCheckpoint name summary => addCheckpoint env name summary;; mret None
  | AddError message resolved resolution =>
      addError env message resolved resolution;; mret None
  | SetTitle t => setTitle t;; mret None
  end.

Definition run (cs : list (Env * Call)) (w : World) : World :=
  foldl (λ w ec, (call ec.1 ec.2 w).2) w cs.

(** The completions a history produces, call by call. *)
Fixpoint completions (cs : list (Env * Call)) (w : World)
    : list (Completion (option BuildlogFile)) :=
  match cs with
  | [] => []
  | ec :: cs' => (call ec.1 ec.2 w).1 :: completions cs' (call ec.1 ec.2 w).2
  end.

Definition is_stop (c : Call) : bool :=
  match c with Stop _ => true | _ => false end.

(** The six mutation methods. *)
Definition is_mutation (c : Call) : bool :=
  match c with
  | Start _ | Stop _ | SetTitle _ => false
  | _ => true
  end.

Definition is_string (v : JSValue) : bool :=
  match v with JString _ => true | _ => false end.

(** The values [optional_forEach] does not throw on. *)
Definition absent_or_array (v : JSValue) : bool :=
  match v with JUndefined | JNull | JArray _ => true | _ => false end.

(** Whether a call made while recording draws a sequence number: every
    mutation call that gets as far as building its step. *)
Definition draws (c : Call) : bool :=
  match c with
  | Start _ | Stop _ | SetTitle _ => false
  | AddAction _ options =>
      absent_or_array (optional ao_filesCreated options)
      && absent_or_array (optional ao_filesModified options)
  | _ => true
  end.

(** The kind-specific record a mutation call made while recording appends,
    if it gets as far as appending it. *)
Definition payload (c : Call) : option StepVariant :=
  match c with
  | AddPrompt content options =>
      if is_string content
      then Some (PromptStep content (options ≫= po_context) (options ≫= po_intent))
      else None
  | AddAction summary options =>
      let created := optional ao_filesCreated options in
      let modified := optional ao_filesModified options in
      if absent_or_array created && absent_or_array modified
         && negb (toString_throws modified) && negb (toString_throws summary)
      then Some (ActionStep summary created modified (options ≫= ao_filesDeleted)
                   (options ≫= ao_approach))
      else None
  | AddTerminal command outcome options =>
      Some (TerminalStep command outcome (options ≫= to_summary)
              (options ≫= to_exitCode))
  | AddNote content category =>
      if is_string content then Some (NoteStep content category) else None
  | AddCheckpoint name summary => Some (CheckpointStep name summary)
  | AddError message resolved resolution =>
      Some (ErrorStep message (default false resolved) resolution)
  | Start _ | Stop _ | SetTitle _ => None
  end.

Definition appends (c : Call) : bool := bool_decide (is_Some (payload c)).

(** The step a session started at [t0] builds for the call that draws the
    sequence number [n]. *)
Definition step_of (t0 : Z) (n : nat) (env : Env) (v : StepVariant) : BuildlogStep :=
  {| step_id := uuidv4 env;
     step_timestamp := round_seconds (Date_now env - t0);
     step_sequence := n;
     step_variant := v |}.

(** The steps the calls of a history append, in call order, the sequence
    numbers drawn from [n] on. *)
Fixpoint accepted (t0 : Z) (n : nat) (cs : list (Env * Call)) : list BuildlogStep :=
  match cs with
  | [] => []
  | ec :: cs' =>
      match payload ec.2 with
      | Some v => step_of t0 n ec.1 v :: accepted t0 (S n) cs'
      | None => accepted t0 (if draws ec.2 then S n else n) cs'
      end
  end.

(** The number of sequence numbers the calls of a history draw. *)
Definition drawn (cs : list (Env * Call)) : nat :=
  length (filter (λ ec, draws ec.2 = true) cs).

(** The file lists an action step carries. *)
Definition created_of (v : StepVariant) : JSValue :=
  match v with ActionStep _ fc _ _ _ => fc | _ => JUndefined end.

Definition modified_of (v : StepVariant) : JSValue :=
  match v with ActionStep _ _ fm _ _ => fm | _ => JUndefined end.

(** The paths a tracked file list names, and those an action step carries. *)
Definition paths_of (v : JSValue) : list string :=
  match v with
  | JArray items =>
      omap (λ x, match x with JString path => Some path | _ => None end) items
  | _ => []
  end.

Definition created_by (s : BuildlogStep) : list string :=
  paths_of (created_of (step_variant s)).

Definition modified_by (s : BuildlogStep) : list string :=
  paths_of (modified_of (step_variant s)).

(** A set after the elements of an array were added to it. *)
Definition add_all (v : JSValue) (s : list JSValue) : list JSValue :=
  match v with
  | JArray items => foldl (λ s f, Set_add f s) s items
  | _ => s
  end.

(** *** The worlds the methods leave behind, in closed form *)

(** After an accepted [start]. *)
Definition started (env : Env) (title : option string) (w : World) : World :=
  {| heap := heap w ++ [[]];
     this := {| state := recording;
                sessionId := uuidv4 env;
                title := or_string title ("Workflow " +:+ toLocaleDateString env);
                startTime := Some (Date_now env);
                steps := length (heap w);
                sequenceCounter := 0;
                filesCreated := [];
                filesModified := [] |};
     fired := fired w ++ [StateChange recording] |}.

(** The step an accepted mutation call builds in [w]. *)
Definition next_step (env : Env) (v : StepVariant) (w : World) : BuildlogStep :=
  {| step_id := uuidv4 env;
     step_timestamp := match startTime (this w) with
                       | None => 0%Z
                       | Some t => round_seconds (Date_now env - t)
                       end;
     step_sequence := sequenceCounter (this w);
     step_variant := v |}.

(** After an accepted mutation call. *)
Definition accept (env : Env) (v : StepVariant) (w : World) : World :=
  {| heap := alter (λ a, a ++ [next_step env v w]) (steps (this w)) (heap w);
     this := {| state := state (this w);
                sessionId := sessionId (this w);
                title := title (this w);
                startTime := startTime (this w);
                steps := steps (this w);
                sequenceCounter := S (sequenceCounter (this w));
                filesCreated := add_all (created_of v) (filesCreated (this w));
                filesModified := add_all (modified_of v) (filesModified (this w)) |};
     fired := fired w ++ [Step (next_step env v w)] |}.

(** The two sets after a mutation call made while recording, whether it
    returns or throws: a list is added before the next one is looked at. *)
Definition created_after (c : Call) (s : list JSValue) : list JSValue :=
  match c with
  | AddAction _ options => add_all (optional ao_filesCreated options) s
  | _ => s
  end.

Definition modified_after (c : Call) (s : list JSValue) : list JSValue :=
  match c with
  | AddAction _ options =>
      if absent_or_array (optional ao_filesCreated options)
      then add_all (optional ao_filesModified options) s
      else s
  | _ => s
  end.

(** After a mutation call that throws while recording: nothing is appended
    and nobody is notified, but the sequence number, if one was drawn, is
    spent and the paths already added stay. *)
Definition after_throw (c : Call) (w : World) : World :=
  {| heap := heap w;
     this := {| state := state (this w);
                sessionId := sessionId (this w);
                title := title (this w);
                startTime := startTime (this w);
                steps := steps (this w);
                sequenceCounter := if draws c then S (sequenceCounter (this w))
                                   else sequenceCounter (this w);
                filesCreated := created_after c (filesCreated (this w));
                filesModified := modified_after c (filesModified (this w)) |};
     fired := fired w |}.

(** The artifact [stop] assembles in [w], for a session started at [t]. *)
Definition artifact (env : Env) (outcome : option StopOutcome) (t : Z) (w : World)
    : BuildlogFile :=
  let l := current_steps w in
  {| bf_version := "2.0.0";
     bf_format := slim;
     bf_metadata :=
       {| md_id := sessionId (this w);
          md_title := title (this w);
          md_createdAt := t;
          md_durationSeconds := round_seconds (Date_now env - t);
          md_editor := detectEditor env;
          md_aiProvider := copilot;
          md_replicable := existsb is_prompt l |};
     bf_steps := steps (this w);
     bf_outcome :=
       {| oc_status := or_string (so_status <$> outcome)
                         (if existsb is_prompt l then "success" else "abandoned");
          oc_summary := or_string (so_summary <$> outcome)
                          ("Recorded " +:+ pretty (length l) +:+ " steps");
          oc_filesCreated := length (filesCreated (this w));
          oc_filesModified := length (filesModified (this w));
          oc_canReplicate := existsb is_prompt l |} |}.

(** After an accepted [stop]. *)
Definition stopped (w : World) : World :=
  {| heap := heap w ++ [[]];
     this := {| state := idle;
                sessionId := sessionId (this w);
                title := "";
                startTime := None;
                steps := length (heap w);
                sequenceCounter := 0;
                filesCreated := [];
                filesModified := [] |};
     fired := fired w ++ [StateChange idle] |}.

(** What a session that is recording looks like after the calls [cs], none
    of them [stop], relative to the same session before them. *)
Record extends (t0 : Z) (cs : list (Env * Call)) (w w' : World) : Prop := {
  ext_state : getState w' = recording;
  ext_startTime : startTime (this w') = Some t0;
  ext_steps : steps (this w') = steps (this w);
  ext_sessionId : sessionId (this w') = sessionId (this w);
  ext_heap_length : length (heap w') = length (heap w);
  ext_current :
    current_steps w' = current_steps w ++ accepted t0 (sequenceCounter (this w)) cs;
  ext_counter : sequenceCounter (this w') = sequenceCounter (this w) + drawn cs;
  ext_created :
    filesCreated (this w') = foldl (λ s ec, created_after ec.2 s) (filesCreated (this w)) cs;
  ext_modified :
    filesModified (this w')
    = foldl (λ s ec, modified_after ec.2 s) (filesModified (this w)) cs;
  ext_frame : ∀ r, r ≠ steps (this w) → heap w' !! r = heap w !! r;
}.

(** The invariant of the worlds a program reaches from [constructor].  The
    sequence numbers of the steps grow along the log and stay below the
    counter. *)
Record Inv (w : World) : Prop := {
  inv_steps : steps (this w) < length (heap w);
  inv_counter : length (current_steps w) ≤ sequenceCounter (this w);
  inv_sequence : ∀ i s, current_steps w !! i = Some s →
                        i ≤ step_sequence s < sequenceCounter (this w);
  inv_increasing : ∀ i j s s', i < j →
                     current_steps w !! i = Some s → current_steps w !! j = Some s' →
                     step_sequence s < step_sequence s';
  inv_startTime : getState w = recording → is_Some (startTime (this w));
  inv_state : getState w ≠ paused;
}.

(** Whether a call is an [addPrompt] that appends its step, and whether a
    history holds one. *)
Definition is_addPrompt (c : Call) : bool :=
  match c with AddPrompt content _ => is_string content | _ => false end.

Definition any_prompt (cs : list (Env * Call)) : bool :=
  existsb (λ ec, is_addPrompt ec.2) cs.

(** The number of calls in a history that append a step. *)
Definition mutations (cs : list (Env * Call)) : nat :=
  length (filter (λ ec, appends ec.2 = true) cs).

(** The outcome fields [stop] computes when the caller gives none. *)
Definition default_status (cs : list (Env * Call)) : string :=
  if any_prompt cs then "success" else "abandoned".

Definition default_summary (cs : list (Env * Call)) : string :=
  "Recorded " +:+ pretty (mutations cs) +:+ " steps".

(** The steps an artifact refers to, read in the world [w]. *)
Definition artifact_steps (w : World) (a : BuildlogFile) : list BuildlogStep :=
  array_at (heap w) (bf_steps a).

(** A call that keeps to the declared types: its content or summary is a
    string, and each tracked file list is absent or an array of strings. *)
Definition strings_or_absent (v : JSValue) : bool :=
  match v with
  | JUndefined => true
  | JArray items => forallb is_string items
  | _ => false
  end.

Definition well_typed (c : Call) : bool :=
  match c with
  | AddPrompt content _ | AddNote content _ => is_string content
  | AddAction summary options =>
      is_string summary
      && strings_or_absent (optional ao_filesCreated options)
      && strings_or_absent (optional ao_filesModified options)
  | _ => true
  end.

(** *** Sample sessions (after test/recording.test.ts) *)

Definition at_ms (ms : Z) : Env :=
  {| uuidv4 := "3f2c7a9e-5b1d-4c6f-8a0e-9d4b2e7c1f05";
     Date_now := ms;
     toLocaleDateString := "11/2/2026";
     askpass_node := "" |}.

Definition fresh : World := constructor (at_ms 0).

Definition files (created modified : option (list string)) : option ActionOptions :=
  Some {| ao_filesCreated := optional_strings created;
          ao_filesModified := optional_strings modified;
          ao_filesDeleted := None; ao_approach := None |}.

(** 'Should track sequence numbers correctly' *)
Definition sequence_test : list (Env * Call) :=
  [ (at_ms 2000, AddPrompt "First prompt" None);
    (at_ms 3000, AddAction "First action" None);
    (at_ms 4000, AddNote "First note" None);
    (at_ms 5000, AddPrompt "Second prompt" None) ].

(** 'Should mark buildlog as non-replicable without prompts' *)
Definition non_replicable_test : list (Env * Call) :=
  [ (at_ms 2000, AddAction "Manual file edit" None);
    (at_ms 3000, AddNote "Fixed typo" None) ].

(** Two actions that both list app.js as modified. *)
Definition duplicate_paths_test : list (Env * Call) :=
  [ (at_ms 2000, AddAction "Edited the handler" (files None (Some ["app.js"])));
    (at_ms 3000, AddAction "Edited it again" (files None (Some ["app.js"]))) ].

(** What the feed adapter makes of the line [{"type":"prompt"}], which has
    neither [raw] nor [content], followed by a note. *)
Definition prompt_without_content_test : list (Env * Call) :=
  [ (at_ms 2000, AddPrompt JUndefined
                   (Some {| po_context := None; po_intent := None |}));
    (at_ms 3000, AddNote "User wanted hover effects" None) ].

(** What the feed adapter makes of an action line whose [filesCreated] is
    the array ["a.js"] and whose [filesModified] is the string "b.js". *)
Definition path_not_in_a_list_test : list (Env * Call) :=
  [ (at_ms 2000,
     AddAction "Created a.js"
       (Some {| ao_filesCreated := JArray [JString "a.js"];
                ao_filesModified := JString "b.js";
                ao_filesDeleted := None; ao_approach := None |})) ].

End RecordingSession.

(** ** AgentFeedWatcher (agent/AgentFeedWatcher.ts)

    The feed is text written by other programs, and [JSON.parse] hands the
    adapter values of any shape; the entries are therefore JavaScript values,
    not the records the [AgentFeedEntry] interfaces describe.  A character of
    a string is one code unit below 256. *)

Module AgentFeedWatcher.
Export Values.
Import RecordingSession.

(** White space of [String.prototype.trim] among the code units below 256. *)
Definition isWhiteSpace (c : Ascii.ascii) : bool :=
  let n := Ascii.nat_of_ascii c in
  bool_decide (n = 9 ∨ n = 10 ∨ n = 11 ∨ n = 12 ∨ n = 13 ∨ n = 32 ∨ n = 160).

Fixpoint trimStart (s : string) : string :=
  match s with
  | EmptyString => EmptyString
  | String c s' => if isWhiteSpace c then trimStart s' else s
  end.

Definition trim (s : string) : string :=
  String.rev (trimStart (String.rev (trimStart s))).

(** [s.split('\n')] *)
Fixpoint split_go (cur : string) (s : string) : list string :=
  match s with
  | EmptyString => [String.rev cur]
  | String c s' =>
      if decide (c = Ascii.ascii_of_nat 10)
      then String.rev cur :: split_go EmptyString s'
      else split_go (String c cur) s'
  end.

Definition split_newline (s : string) : list string := split_go EmptyString s.

(** [s.substring(n)] *)
Fixpoint substring_from (n : nat) (s : string) : string :=
  match n, s with
  | 0, _ => s
  | S n', String _ s' => substring_from n' s'
  | S _, EmptyString => EmptyString
  end.

(** The calls the adapter makes on the session, with the values it passes. *)
Inductive SessionCall :=
  | session_addPrompt (content context intent : JSValue)
  | session_addAction (summary filesCreated filesModified filesDeleted approach : JSValue)
  | session_addNote (content category : JSValue)
  | session_addError (message resolved resolution : JSValue)
  | session_addCheckpoint (name summary : JSValue).

(** The session as the adapter sees it: its state and its mutation methods,
    any of which may throw. *)
Class SessionAPI (S : Type) := {
  session_getState : S → RecordingState;
  session_invoke : SessionCall → JS S unit;
}.

Inductive Diagnostic :=
  | InvalidLine (line : string)       (* console.warn('Invalid agent feed line:', line) *)
  | UnknownType (type : JSValue)      (* console.warn('Unknown agent feed entry type:', type) *)
  | ReadError (e : JSError).          (* console.error('Error reading agent feed:', e) *)

(** The watcher's fields, the session [getSession()] returns, and the
    diagnostics written so far. *)
Record Watcher (S : Type) := {
  lastPosition : nat;
  lastMtime : Z;
  session : option S;
  diagnostics : list Diagnostic;
}.
Arguments lastPosition {S} _.
Arguments lastMtime {S} _.
Arguments session {S} _.
Arguments diagnostics {S} _.

Section Adapter.
Context {S : Type} `{SessionAPI S}.

(** [JSON.parse]: the value of a line, or [None] where it throws a
    SyntaxError. *)
Variable JSON_parse : string → option JSValue.

Definition set_lastPosition (n : nat) (w : Watcher S) : Watcher S :=
  {| lastPosition := n; lastMtime := lastMtime w; session := session w;
     diagnostics := diagnostics w |}.

Definition warn (d : Diagnostic) : JS (Watcher S) unit := λ w,
  (Returns tt,
   {| lastPosition := lastPosition w; lastMtime := lastMtime w;
      session := session w; diagnostics := diagnostics w ++ [d] |}).

(** A method call on the session object. *)
Definition on_session (c : SessionCall) : JS (Watcher S) unit := λ w,
  match session w with
  | Some s =>
      let r := session_invoke c s in
      (r.1, {| lastPosition := lastPosition w; lastMtime := lastMtime w;
               session := Some r.2; diagnostics := diagnostics w |})
  | None => (Throws (TypeError "Cannot read properties of undefined"), w)
  end.

Definition parse (line : string) : JS (Watcher S) JSValue :=
  match JSON_parse line with
  | Some v => mret v
  | None => throw (SyntaxError "Unexpected token in JSON")
  end.

(** The first statement logs [entry.type] in a template literal, and the
    last one puts it in the status bar message in the same way.  The
    [switch] compares [entry.type] with each case label by [===], in the
    order of the cases. *)
Definition addEntryToSession (entry : JSValue) : JS (Watcher S) unit :=
  type ← property entry "type";
  interpolate type;;
  (if strict_equals type "prompt" then
    raw ← property entry "raw";
    content ← property entry "content";
    intent ← property entry "intent";
    context ← property entry "context";
    let fullPrompt := js_or raw content in
    let promptIntent := js_cond raw content intent in
    on_session (session_addPrompt fullPrompt context promptIntent)
  else if strict_equals type "action" then
    summary ← property entry "summary";
    content ← property entry "content";
    let actionSummary := js_or (js_or summary content) (JString "Action performed") in
    filesCreated ← property entry "filesCreated";
    filesModified ← property entry "filesModified";
    filesDeleted ← property entry "filesDeleted";
    approach ← property entry "approach";
    on_session (session_addAction actionSummary filesCreated filesModified
                  filesDeleted approach)
  else if strict_equals type "note" then
    content ← property entry "content";
    category ← property entry "category";
    on_session (session_addNote content category)
  else if strict_equals type "error" then
    message ← property entry "message";
    resolved ← property entry "resolved";
    resolution ← property entry "resolution";
    on_session (session_addError message resolved resolution)
  else if strict_equals type "checkpoint" then
    name ← property entry "name";
    summary ← property entry "summary";
    on_session (session_addCheckpoint name summary)
  else warn (UnknownType type));;
  interpolate type.

(** [file] is what [fs.readFileSync] returns, or the error it throws. *)
Definition processNewLines (file : Completion string) : JS (Watcher S) unit :=
  s ← gets session;
  match s with
  | None => mret tt
  | Some s0 =>
    if decide (session_getState s0 ≠ recording) then mret tt
    else
      try_catch
        (content ← (λ w, (file, w));
         pos ← gets lastPosition;
         let newContent := substring_from pos content in
         modify (set_lastPosition (String.length content));;
         if negb (truthy_string (trim newContent)) then mret tt
         else
           let lines := filter (λ line, truthy_string (trim line))
                          (split_newline newContent) in
           for_of lines (λ line,
             try_catch
               (entry ← parse line;
                addEntryToSession entry)
               (λ _, warn (InvalidLine line))))
        (λ e, warn (ReadError e))
  end.

(** *** What a batch asks of the session

    The feed format in its own terms: a line is well formed when it parses
    and its [type] is one of the five kinds; [translate] is the call a parsed
    entry stands for. *)

Definition known_types : list string :=
  ["prompt"; "action"; "note"; "error"; "checkpoint"].

Definition recognised (entry : JSValue) : bool :=
  match get entry "type" with
  | JString t => bool_decide (t ∈ known_types)
  | _ => false
  end.

Definition well_formed (line : string) : bool :=
  match JSON_parse line with
  | Some entry => recognised entry
  | None => false
  end.

Definition call_kind (c : SessionCall) : string :=
  match c with
  | session_addPrompt _ _ _ => "prompt"
  | session_addAction _ _ _ _ _ => "action"
  | session_addNote _ _ => "note"
  | session_addError _ _ _ => "error"
  | session_addCheckpoint _ _ => "checkpoint"
  end.

Definition translate (entry : JSValue) : option SessionCall :=
  let type := get entry "type" in
  if strict_equals type "prompt" then
    Some (session_addPrompt
            (js_or (get entry "raw") (get entry "content"))
            (get entry "context")
            (js_cond (get entry "raw") (get entry "content") (get entry "intent")))
  else if strict_equals type "action" then
    Some (session_addAction
            (js_or (js_or (get entry "summary") (get entry "content"))
               (JString "Action performed"))
            (get entry "filesCreated") (get entry "filesModified")
            (get entry "filesDeleted") (get entry "approach"))
  else if strict_equals type "note" then
    Some (session_addNote (get entry "content") (get entry "category"))
  else if strict_equals type "error" then
    Some (session_addError (get entry "message") (get entry "resolved")
            (get entry "resolution"))
  else if strict_equals type "checkpoint" then
    Some (session_addCheckpoint (get entry "name") (get entry "summary"))
  else None.

Definition line_call (line : string) : option SessionCall :=
  JSON_parse line ≫= translate.

(** A text of white space only. *)
Fixpoint blank (s : string) : bool :=
  match s with
  | EmptyString => true
  | String c s' => isWhiteSpace c && blank s'
  end.

(** The non-blank lines of a text. *)
Definition batch_lines (text : string) : list string :=
  filter (λ line, truthy_string (trim line)) (split_newline text).

(** Invoking calls one after the other, whatever each one's completion. *)
Definition invoke_all (cs : list SessionCall) (s : S) : S :=
  foldl (λ s c, (session_invoke c s).2) s cs.

End Adapter.

(** The watcher [w] with [s] as the state of its session and [d] appended to
    its diagnostics. *)
Definition watcher_after {S} (w : Watcher S) (s : S) (d : list Diagnostic) : Watcher S :=
  {| lastPosition := lastPosition w; lastMtime := lastMtime w;
     session := Some s; diagnostics := diagnostics w ++ d |}.

(** A session double that records the calls it receives and throws on the
    calls [spy_throws] selects. *)
Record Spy := {
  spy_state : RecordingState;
  spy_calls : list SessionCall;
  spy_throws : SessionCall → bool;
}.

Global Instance Spy_API : SessionAPI Spy := {|
  session_getState := spy_state;
  session_invoke c := λ s,
    (if spy_throws s c then Throws (TypeError "thrown by the session")
     else Returns tt,
     {| spy_state := spy_state s; spy_calls := spy_calls s ++ [c];
        spy_throws := spy_throws s |})
|}.

(** *** A sample feed *)

Definition quote_mark : Ascii.ascii := Ascii.ascii_of_nat 34.

Definition quoted (s : string) : string :=
  String quote_mark (s +:+ String quote_mark EmptyString).

Definition member (k v : string) : string := quoted k +:+ ":" +:+ quoted v.

Definition line_prompt : string :=
  "{" +:+ member "type" "prompt" +:+ "," +:+
  member "content" "Build a CTA component" +:+ "}".

Definition line_truncated : string := "{" +:+ quoted "type" +:+ ":".

Definition line_response : string :=
  "{" +:+ member "type" "response" +:+ "," +:+ member "content" "Done" +:+ "}".

Definition line_note : string :=
  "{" +:+ member "type" "note" +:+ "," +:+
  member "content" "User wanted hover effects" +:+ "}".

(** A line whose type is an object with a [toString] property. *)
Definition line_object_type : string :=
  "{" +:+ quoted "type" +:+ ":{" +:+ quoted "toString" +:+ ":null}}".

Definition newline : string := String (Ascii.ascii_of_nat 10) EmptyString.

Definition sample_feed : string :=
  line_prompt +:+ newline +:+ line_truncated +:+ newline +:+ "null" +:+ newline
  +:+ line_response +:+ newline +:+ newline +:+ line_note +:+ newline.

(** What [JSON.parse] makes of the lines of the sample feed. *)
Definition sample_parse (line : string) : option JSValue :=
  if decide (line = line_prompt) then
    Some (JObject [("type", JString "prompt");
                   ("content", JString "Build a CTA component")])
  else if decide (line = "null") then Some JNull
  else if decide (line = line_response) then
    Some (JObject [("type", JString "response"); ("content", JString "Done")])
  else if decide (line = line_note) then
    Some (JObject [("type", JString "note");
                   ("content", JString "User wanted hover effects")])
  else if decide (line = line_object_type) then
    Some (JObject [("type", JObject [("toString", JNull)])])
  else None.

(** A recording session double that throws on every note. *)
Definition sample_spy : Spy :=
  {| spy_state := recording; spy_calls := [];
     spy_throws := λ c, bool_decide (call_kind c = "note") |}.

Definition sample_watcher : Watcher Spy :=
  {| lastPosition := 0; lastMtime := 0%Z; session := Some sample_spy;
     diagnostics := [] |}.

(** A prompt entry with the exact words of the user in [raw]. *)
Definition entry_with_raw : JSValue :=
  JObject [("type", JString "prompt"); ("content", JString "Add a CTA");
           ("raw", JString "please add a call to action under the hero");
           ("intent", JString "feature")].

(** A prompt entry whose [raw] field is present and empty. *)
Definition entry_with_empty_raw : JSValue :=
  JObject [("type", JString "prompt"); ("content", JString "Add a CTA");
           ("raw", JString ""); ("intent", JString "feature")].

End AgentFeedWatcher.

(** ** The session over its lifetime

    Notions used to state what a whole history of calls leaves behind. *)

Module Lifecycle.
Import Types RecordingSession.

(** The title after a history of calls that holds no accepted [start]:
    [setTitle] is the only method that assigns it. *)
Definition title_after (t : string) (cs : list (Env * Call)) : string :=
  foldl (λ t ec, match ec.2 with SetTitle t' => t' | _ => t end) t cs.

(** The title [start] assigns. *)
Definition start_title (env : Env) (title : option string) : string :=
  or_string title ("Workflow " +:+ toLocaleDateString env).

(** What a session that is not recording holds, in a world reached from the
    constructor. *)
Record at_rest (w : World) : Prop := {
  rest_steps : current_steps w = [];
  rest_counter : sequenceCounter (this w) = 0;
  rest_startTime : startTime (this w) = None;
  rest_created : filesCreated (this w) = [];
  rest_modified : filesModified (this w) = [];
}.

(** The steps of the three kinds [getStats] counts as others. *)
Definition other_steps (l : list BuildlogStep) : list BuildlogStep :=
  filter (λ s, step_type s = terminal ∨ step_type s = checkpoint ∨ step_type s = error) l.

(** The clock never runs backwards over a history that starts at [t0]. *)
Fixpoint clock_monotone (t0 : Z) (cs : list (Env * Call)) : Prop :=
  match cs with
  | [] => True
  | ec :: cs' => (t0 ≤ Date_now ec.1)%Z ∧ clock_monotone (Date_now ec.1) cs'
  end.

(** A list of integers that never decreases and starts at [lo] or above. *)
Fixpoint ascending_from (lo : Z) (l : list Z) : Prop :=
  match l with
  | [] => True
  | x :: l' => (lo ≤ x)%Z ∧ ascending_from x l'
  end.

End Lifecycle.

(** ** Polling the feed (agent/AgentFeedWatcher.ts, continued) *)

Module FeedPolling.
Import RecordingSession AgentFeedWatcher.

Section Polling.
Context {S : Type} `{SessionAPI S}.
Variable JSON_parse : string → option JSValue.

Definition set_lastMtime (m : Z) (w : Watcher S) : Watcher S :=
  {| lastPosition := lastPosition w; lastMtime := m; session := session w;
     diagnostics := diagnostics w |}.

(** [stat] is the [mtimeMs] that [fs.statSync] reports, or the error it
    throws; only the order of modification times is used. *)
Definition checkForChanges (stat : Completion Z) (file : Completion string)
    : JS (Watcher S) unit :=
  try_catch
    (mtimeMs ← (λ w, (stat, w));
     last ← gets lastMtime;
     if decide (last < mtimeMs)%Z then
       modify (set_lastMtime mtimeMs);;
       processNewLines JSON_parse file
     else mret tt)
    (λ _, mret tt).

(** The diagnostic a line leaves when the session is in state [s].  A line
    is reported as invalid when it does not parse, when its value is [null],
    when its type has no text to log, and when the session throws. *)
Definition line_diagnostics (line : string) (s : S) : list Diagnostic :=
  match JSON_parse line with
  | None => [InvalidLine line]
  | Some entry =>
      if nullish entry || toString_throws (get entry "type") then [InvalidLine line]
      else match translate entry with
           | None => [UnknownType (get entry "type")]
           | Some c =>
               if returned (session_invoke c s).1 then [] else [InvalidLine line]
           end
  end.

(** The diagnostics of a batch, the session moving on from line to line. *)
Fixpoint batch_diagnostics (lines : list string) (s : S) : list Diagnostic :=
  match lines with
  | [] => []
  | line :: lines' =>
      line_diagnostics line s
      ++ batch_diagnostics lines'
           (invoke_all (option_list (line_call JSON_parse line)) s)
  end.

End Polling.

End FeedPolling.

(** ** FileChangeWatcher (watcher/FileChangeWatcher.ts)

    The watcher turns file system events into [addAction] calls, two seconds
    after the last event on a path.  A timer is an entry of [pending]; that
    its two seconds have passed is the event [timeout]. *)

Module FileChangeWatcher.
Import Types RecordingSession.

Inductive ChangeType := created | modified | deleted.

Definition startsWith (s p : string) : bool := is_prefix p s.

Definition endsWith (s p : string) : bool := is_prefix (String.rev p) (String.rev s).

(** The regular expressions the ignore patterns give rise to: a sequence of
    characters and dots, each possibly starred. *)
Inductive Atom := AnyChar | Char (c : Ascii.ascii).

Definition dot : Ascii.ascii := Ascii.ascii_of_nat 46.
Definition star : Ascii.ascii := Ascii.ascii_of_nat 42.

Definition atom_of (c : Ascii.ascii) : Atom :=
  if decide (c = dot) then AnyChar else Char c.

(** [new RegExp(p)]; a star with nothing to repeat is a SyntaxError. *)
Fixpoint regexp (p : string) : option (list (Atom * bool)) :=
  match p with
  | EmptyString => Some []
  | String c p' =>
      if decide (c = star) then None
      else match p' with
           | String c' p'' =>
               if decide (c' = star) then cons (atom_of c, true) <$> regexp p''
               else cons (atom_of c, false) <$> regexp p'
           | EmptyString => Some [(atom_of c, false)]
           end
  end.

(** A dot matches any character but a line terminator. *)
Definition line_terminator (c : Ascii.ascii) : bool :=
  bool_decide (Ascii.nat_of_ascii c = 10 ∨ Ascii.nat_of_ascii c = 13).

Definition matches (a : Atom) (c : Ascii.ascii) : bool :=
  match a with
  | AnyChar => negb (line_terminator c)
  | Char c' => bool_decide (c = c')
  end.

(** Whether [re] matches a prefix of [s]. *)
Fixpoint match_here (re : list (Atom * bool)) (s : string) : bool :=
  match re with
  | [] => true
  | (a, false) :: re' =>
      match s with
      | String c s' => matches a c && match_here re' s'
      | EmptyString => false
      end
  | (a, true) :: re' =>
      (fix repeat (s : string) : bool :=
         match_here re' s ||
         match s with
         | String c s' => matches a c && repeat s'
         | EmptyString => false
         end) s
  end.

(** [re.test(s)] *)
Fixpoint test (re : list (Atom * bool)) (s : string) : bool :=
  match_here re s ||
  match s with
  | String _ s' => test re s'
  | EmptyString => false
  end.

(** [p.replace('*', '.*')]: the first star only. *)
Fixpoint replace_star (p : string) : string :=
  match p with
  | EmptyString => EmptyString
  | String c p' =>
      if decide (c = star) then String dot (String star p')
      else String c (replace_star p')
  end.

Definition ignorePatterns : list string :=
  [".buildlog/"; "node_modules/"; ".git/"; "dist/"; "out/"; "build/"; ".vscode/";
   ".DS_Store"; "*.log"; "*.buildlog"].

(** The callback of [ignorePatterns.some].  An ill-formed expression would
    make [new RegExp] throw; neither starred pattern gives one. *)
Definition ignored_by (path pattern : string) : bool :=
  if endsWith pattern "/" then startsWith path pattern
  else if includes pattern "*" then
    match regexp (replace_star pattern) with
    | Some re => test re path
    | None => false
    end
  else includes path pattern.

Definition shouldIgnoreFile (path : string) : bool :=
  existsb (ignored_by path) ignorePatterns.

(** The options object [recordFileChange] fills in. *)
Definition options_of (relativePath : string) (changeType : ChangeType) : ActionOptions :=
  match changeType with
  | created =>
      {| ao_filesCreated := strings [relativePath]; ao_filesModified := JUndefined;
         ao_filesDeleted := None; ao_approach := None |}
  | modified =>
      {| ao_filesCreated := JUndefined; ao_filesModified := strings [relativePath];
         ao_filesDeleted := None; ao_approach := None |}
  | deleted =>
      {| ao_filesCreated := JUndefined; ao_filesModified := JUndefined;
         ao_filesDeleted := Some [relativePath]; ao_approach := None |}
  end.

Definition summary_of (relativePath : string) (changeType : ChangeType) : string :=
  match changeType with
  | created => "Created " +:+ relativePath
  | modified => "Modified " +:+ relativePath
  | deleted => "Deleted " +:+ relativePath
  end.

Definition recordFileChange (env : Env) (relativePath : string)
    (changeType : ChangeType) : JS World unit :=
  st ← gets getState;
  if decide (st ≠ recording) then mret tt
  else addAction env (summary_of relativePath changeType)
         (Some (options_of relativePath changeType)).

(** The watcher beside the session: the change each live timer will record. *)
Record Watching := {
  world : World;
  pendingChanges : gmap string ChangeType;
}.

(** [handleFileChange], with [relativePath] for
    [vscode.workspace.asRelativePath(uri)]. *)
Definition handleFileChange (relativePath : string) (changeType : ChangeType)
    (f : Watching) : Watching :=
  if decide (getState (world f) ≠ recording) then f
  else if shouldIgnoreFile relativePath then f
  else {| world := world f;
          pendingChanges := <[relativePath := changeType]> (pendingChanges f) |}.

(** The timer set for [relativePath] goes off, if it is still live. *)
Definition timeout (env : Env) (relativePath : string) (f : Watching) : Watching :=
  match pendingChanges f !! relativePath with
  | Some changeType =>
      {| world := (recordFileChange env relativePath changeType (world f)).2;
         pendingChanges := delete relativePath (pendingChanges f) |}
  | None => f
  end.

(** [stop()] *)
Definition stop_watching (f : Watching) : Watching :=
  {| world := world f; pendingChanges := ∅ |}.

(** A character other than a line terminator followed by the letters l, o, g. *)
Fixpoint something_log (s : string) : bool :=
  match s with
  | EmptyString => false
  | String c s' => negb (line_terminator c) && is_prefix "log" s' || something_log s'
  end.

(** The patterns of [ignorePatterns] that name a directory. *)
Definition directories : list string :=
  [".buildlog/"; "node_modules/"; ".git/"; "dist/"; "out/"; "build/"; ".vscode/"].

(** The action step a recorded change carries. *)
Definition action_of (relativePath : string) (changeType : ChangeType) : StepVariant :=
  ActionStep (summary_of relativePath changeType)
    (ao_filesCreated (options_of relativePath changeType))
    (ao_filesModified (options_of relativePath changeType))
    (ao_filesDeleted (options_of relativePath changeType))
    None.

(** File system events in the order the watcher is told of them. *)
Definition handle_all (events : list (string * ChangeType)) (f : Watching) : Watching :=
  foldl (λ f e, handleFileChange e.1 e.2 f) f events.

(** The expressions the two starred patterns end in. *)
Definition log_tail : list (Atom * bool) := default [] (regexp ".log").

Definition buildlog_tail : list (Atom * bool) := default [] (regexp ".buildlog").

(** The last change announced for [path] in a list of events. *)
Definition last_change (path : string) (events : list (string * ChangeType))
    : option ChangeType :=
  last (omap (λ e, if decide (e.1 = path) then Some e.2 else None) events).

(** A recording session with file events on two paths, one of them ignored. *)
Definition sample_watching : Watching :=
  {| world := started (at_ms 1000) None fresh; pendingChanges := ∅ |}.

Definition sample_events : list (string * ChangeType) :=
  [("src/app.ts", created); ("src/login.ts", modified); ("src/app.ts", modified)].

End FileChangeWatcher.

(** ** The chat participant (chat participant of [@buildlog])

    The request handler records the prompt of a chat turn, forwards it to the
    language model and records the response.  The handler awaits the model:
    [handler_request] is what it does before the first [await],
    [handler_response] what it does once the model has answered, failed or
    turned out to be missing; the calls other components make on the session
    in the meantime sit between the two.  What the handler writes to the
    chat stream is kept beside the session. *)

Module ChatParticipant.
Import Types RecordingSession AgentFeedWatcher.

Inductive Markdown :=
  | NotRecording          (* the '**Not recording.**' warning *)
  | Rule                  (* a horizontal rule *)
  | RecordedPrompt        (* '*Recorded prompt to buildlog*' and a rule *)
  | NoModel               (* 'No Copilot model available. ...' *)
  | Fragment (text : string)
  | ModelErrorText (message : string).

Record Chat := {
  world : World;
  stream : list Markdown;
}.

Definition markdown (m : Markdown) : JS Chat unit :=
  modify (λ c, {| world := world c; stream := stream c ++ [m] |}).

(** A method of the session, called from the handler. *)
Definition on_world {A} (m : JS World A) : JS Chat A := λ c,
  let '(r, w) := m (world c) in (r, {| world := w; stream := stream c |}).

Definition uri_of (v : JSValue) : JSValue :=
  match v with
  | JObject fields => default JUndefined (own_property fields "uri")
  | _ => JUndefined
  end.

Record ChatRequest := {
  prompt : string;
  command : option string;
  references : list JSValue;      (* the [value] of each reference *)
}.

(** How the forwarding ended: no model, a complete response, a
    [LanguageModelError] or another exception, each after the fragments that
    had been streamed by then. *)
Inductive Forwarded :=
  | Unavailable
  | Responded (fragments : list string)
  | ModelError (fragments : list string) (message : string)
  | OtherError (fragments : list string) (e : JSError).

(** [text.replace(/```[\s\S]*?```/g, '[code block]')]: each fence that has a
    later fence to close it is replaced, up to the nearest such fence. *)
Fixpoint closing_fence (s : string) : option nat :=
  if is_prefix "```" s then Some 0
  else match s with
       | EmptyString => None
       | String _ s' => S <$> closing_fence s'
       end.

Fixpoint replace_code_blocks (skip : nat) (s : string) : string :=
  match s with
  | EmptyString => EmptyString
  | String c s' =>
      match skip with
      | S k => replace_code_blocks k s'
      | 0 =>
          if is_prefix "```" s then
            match closing_fence (substring_from 3 s) with
            | Some j => "[code block]" +:+ replace_code_blocks (j + 5) s'
            | None => String c (replace_code_blocks 0 s')
            end
          else String c (replace_code_blocks 0 s')
      end
  end.

Definition createSummary (text : string) : string :=
  let withoutCode := replace_code_blocks 0 text in
  let lines :=
    filter (λ l, 0 < String.length (trim l)) (split_newline withoutCode) in
  let firstLine := or_string (head lines) "AI response" in
  if decide (200 < String.length firstLine)
  then String.substring 0 197 firstLine +:+ "..."
  else firstLine.

Definition is_object (v : JSValue) : bool :=
  match v with JObject _ | JArray _ => true | _ => false end.

Section Participant.
(** [vscode.workspace.asRelativePath], the two regular expressions of
    [extractFilePaths] and the message of the TypeError the engine throws
    for ['uri' in v] are taken as given. *)
Variable asRelativePath : JSValue → string.
Variable extractFilePaths : string → list string.
Variable in_operator_message : JSValue → string.

(** ['uri' in v]: a TypeError unless [v] is an object. *)
Definition uri_in (v : JSValue) : JS Chat bool :=
  if is_object v then mret (has_property v "uri")
  else throw (TypeError (in_operator_message v)).

Fixpoint extractReferences_from (refs : list string) (values : list JSValue)
    : JS Chat (list string) :=
  match values with
  | [] => mret refs
  | v :: values' =>
      has ← uri_in v;
      if has && truthy (uri_of v)
      then extractReferences_from (refs ++ [asRelativePath (uri_of v)]) values'
      else match v with
           | JString s => extractReferences_from (refs ++ [s]) values'
           | _ => extractReferences_from refs values'
           end
  end.

Definition extractReferences (request : ChatRequest) : JS Chat (list string) :=
  extractReferences_from [] (references request).

Definition fullPrompt (request : ChatRequest) : string :=
  match command request with
  | Some c =>
      if truthy_string c then "/" +:+ c +:+ " " +:+ prompt request
      else prompt request
  | None => prompt request
  end.

Definition handler_request (env : Env) (request : ChatRequest) : JS Chat unit :=
  st ← gets (λ c, getState (world c));
  (if decide (st ≠ recording) then markdown NotRecording;; markdown Rule
   else mret tt);;
  st ← gets (λ c, getState (world c));
  if decide (st = recording) then
    context ← extractReferences request;
    on_world (addPrompt env (fullPrompt request)
                (Some {| po_context := Some context;
                         po_intent := command request |}));;
    markdown RecordedPrompt
  else mret tt.

Definition fullResponse (fragments : list string) : string :=
  foldl String.append EmptyString fragments.

Definition response_options (text : string) : ActionOptions :=
  let filesModified := extractFilePaths text in
  {| ao_filesCreated := JUndefined;
     ao_filesModified :=
       if decide (0 < length filesModified) then strings filesModified else JUndefined;
     ao_filesDeleted := None;
     ao_approach :=
       if decide (500 < String.length text)
       then Some "See chat response for details" else None |}.

Definition handler_response (env : Env) (forwarded : Forwarded) : JS Chat unit :=
  match forwarded with
  | Unavailable => markdown NoModel
  | Responded fragments =>
      for_of fragments (λ fragment, markdown (Fragment fragment));;
      st ← gets (λ c, getState (world c));
      if bool_decide (st = recording) && truthy_string (fullResponse fragments) then
        on_world (addAction env (createSummary (fullResponse fragments))
                    (Some (response_options (fullResponse fragments))))
      else mret tt
  | ModelError fragments message =>
      for_of fragments (λ fragment, markdown (Fragment fragment));;
      markdown (ModelErrorText message);;
      st ← gets (λ c, getState (world c));
      if decide (st = recording)
      then on_world (addError env message (Some false) None)
      else mret tt
  | OtherError fragments e =>
      for_of fragments (λ fragment, markdown (Fragment fragment));;
      throw e
  end.

(** One chat turn, with the calls [between] made on the session while the
    handler waits for the model. *)
Definition handler (env1 : Env) (request : ChatRequest)
    (between : list (Env * Call)) (env2 : Env) (forwarded : Forwarded)
    : JS Chat unit := λ c,
  let '(r, c1) := handler_request env1 request c in
  let c2 := {| world := run between (world c1); stream := stream c1 |} in
  match r with
  | Returns _ => handler_response env2 forwarded c2
  | Throws e => (Throws e, c2)
  end.

(** The references the handler hands to [addPrompt]. *)
Definition location_paths (values : list JSValue) : list string :=
  omap (λ v, if has_property v "uri" && truthy (uri_of v)
             then Some (asRelativePath (uri_of v)) else None) values.

(** The first value that is not an object. *)
Fixpoint first_primitive (values : list JSValue) : option JSValue :=
  match values with
  | [] => None
  | v :: values' => if is_object v then first_primitive values' else Some v
  end.

(** The calls a chat turn makes on the session. *)
Definition request_calls (env : Env) (request : ChatRequest) : list (Env * Call) :=
  [(env, AddPrompt (fullPrompt request)
           (Some {| po_context := Some (location_paths (references request));
                    po_intent := command request |}))].

Definition response_calls (env : Env) (forwarded : Forwarded) : list (Env * Call) :=
  match forwarded with
  | Responded fragments =>
      if truthy_string (fullResponse fragments)
      then [(env, AddAction (createSummary (fullResponse fragments))
                    (Some (response_options (fullResponse fragments))))]
      else []
  | ModelError _ message => [(env, AddError message (Some false) None)]
  | Unavailable | OtherError _ _ => []
  end.

End Participant.

(** What the two phases write to the chat stream. *)
Definition request_stream (st : RecordingState) : list Markdown :=
  if decide (st = recording) then [RecordedPrompt] else [NotRecording; Rule].


Definition response_stream (forwarded : Forwarded) : list Markdown :=
  match forwarded with
  | Unavailable => [NoModel]
  | Responded fragments => Fragment <$> fragments
  | ModelError fragments message => (Fragment <$> fragments) ++ [ModelErrorText message]
  | OtherError fragments _ => Fragment <$> fragments
  end.

(** A reference to a selection, as an object with a [uri], and a chat turn. *)
Definition sample_location : JSValue :=
  JObject [("uri", JObject [("path", JString "/w/src/app.ts")]); ("range", JNull)].

Definition sample_asRelativePath (uri : JSValue) : string :=
  match uri with
  | JObject fields =>
      match own_property fields "path" with
      | Some (JString p) => substring_from 3 p
      | _ => EmptyString
      end
  | _ => EmptyString
  end.

Definition sample_request : ChatRequest :=
  {| prompt := "add a login form"; command := Some "fix";
     references := [sample_location] |}.

Definition sample_string_request : ChatRequest :=
  {| prompt := "explain this"; command := None;
     references := [sample_location; JString "selection"] |}.

Definition sample_extractFilePaths (text : string) : list string := [].

Definition sample_message (v : JSValue) : string :=
  match v with
  | JString s => "Cannot use 'in' operator to search for 'uri' in " +:+ s
  | _ => "Cannot use 'in' operator to search for 'uri'"
  end.

Definition sample_chat : Chat :=
  {| world := started (at_ms 1000) None fresh; stream := [] |}.

End ChatParticipant.

(** ** BuildlogWriter (buildlog/writer.ts): the name of the file written *)

Module BuildlogWriter.
Import Types.

(** [toLowerCase] on the code units below 256. *)
Definition lower_case (c : Ascii.ascii) : Ascii.ascii :=
  let n := Ascii.nat_of_ascii c in
  if decide (65 ≤ n ≤ 90 ∨ 192 ≤ n ≤ 214 ∨ 216 ≤ n ≤ 222)
  then Ascii.ascii_of_nat (n + 32) else c.

Fixpoint toLowerCase (s : string) : string :=
  match s with
  | EmptyString => EmptyString
  | String c s' => String (lower_case c) (toLowerCase s')
  end.

(** The class [[a-z0-9]]. *)
Definition alphanumeric (c : Ascii.ascii) : bool :=
  let n := Ascii.nat_of_ascii c in
  bool_decide (97 ≤ n ≤ 122 ∨ 48 ≤ n ≤ 57).

Definition dash : Ascii.ascii := Ascii.ascii_of_nat 45.

(** [.replace(/[^a-z0-9]+/g, '-')]: [in_run] says that the run the
    character before belongs to has been replaced already. *)
Fixpoint replace_runs (in_run : bool) (s : string) : string :=
  match s with
  | EmptyString => EmptyString
  | String c s' =>
      if alphanumeric c then String c (replace_runs false s')
      else if in_run then replace_runs true s'
      else String dash (replace_runs true s')
  end.

(** [.replace(/^-+|-+$/g, '')], the run in front and the run at the end. *)
Fixpoint strip_leading (s : string) : string :=
  match s with
  | EmptyString => EmptyString
  | String c s' => if decide (c = dash) then strip_leading s' else s
  end.

Fixpoint strip_trailing (s : string) : string :=
  match s with
  | EmptyString => EmptyString
  | String c s' =>
      match strip_trailing s' with
      | EmptyString => if decide (c = dash) then EmptyString else String c EmptyString
      | r => String c r
      end
  end.

Definition sanitizeFilename (name : string) : string :=
  or_string
    (Some (String.substring 0 50
             (strip_trailing (strip_leading (replace_runs false (toLowerCase name))))))
    "recording".

(** [.replace(/[:.]/g, '-')] *)
Fixpoint replace_colons_and_dots (s : string) : string :=
  match s with
  | EmptyString => EmptyString
  | String c s' =>
      String (if bool_decide (Ascii.nat_of_ascii c = 58 ∨ Ascii.nat_of_ascii c = 46)
              then dash else c)
             (replace_colons_and_dots s')
  end.

(** The file name [write] builds, [toISOString] being
    [new Date().toISOString()]. *)
Definition filename (title toISOString : string) : string :=
  let sanitizedTitle := sanitizeFilename title in
  let timestamp := String.substring 0 19 (replace_colons_and_dots toISOString) in
  sanitizedTitle +:+ "-" +:+ timestamp +:+ ".buildlog".

(** Every character of [s] passes [f]. *)
Fixpoint all_chars (f : Ascii.ascii → bool) (s : string) : bool :=
  match s with
  | EmptyString => true
  | String c s' => f c && all_chars f s'
  end.

Definition filename_char (c : Ascii.ascii) : bool :=
  alphanumeric c || bool_decide (c = dash).

(** Names made of file name characters with no two dashes in a row. *)
Record tidy (s : string) : Prop := {
  tidy_chars : all_chars filename_char s = true;
  tidy_dashes : includes s "--" = false;
}.

End BuildlogWriter.

(** ** Identifiers (utils: [v4]) *)

Module Utils.

(** [v.toString(16)] for a natural number. *)
Definition toString16 (v : nat) : string :=
  HexadecimalString.NilZero.string_of_uint (Nat.to_hex_uint v).

Definition letter_x : Ascii.ascii := Ascii.ascii_of_nat 120.
Definition letter_y : Ascii.ascii := Ascii.ascii_of_nat 121.

(** [template.replace(/[xy]/g, c => ...)]; [random i] is the value of
    [(Math.random() * 16) | 0] in the [i]-th call of the callback. *)
Fixpoint replace_xy (random : nat → nat) (i : nat) (template : string) : string :=
  match template with
  | EmptyString => EmptyString
  | String c template' =>
      if decide (c = letter_x ∨ c = letter_y) then
        let r := random i in
        let v := if decide (c = letter_x) then r else Nat.lor (Nat.land r 3) 8 in
        toString16 v +:+ replace_xy random (S i) template'
      else String c (replace_xy random i template')
  end.

Definition v4 (random : nat → nat) : string :=
  replace_xy random 0 "xxxxxxxx-xxxx-4xxx-yxxx-xxxxxxxxxxxx".

(** The layout of a version 4 identifier: [x] stands for a hexadecimal
    digit, [y] for one of 8, 9, a and b, any other character for itself. *)
Definition hex_digit (c : Ascii.ascii) : bool :=
  let n := Ascii.nat_of_ascii c in
  bool_decide (48 ≤ n ≤ 57 ∨ 97 ≤ n ≤ 102).

Definition variant_digit (c : Ascii.ascii) : bool :=
  let n := Ascii.nat_of_ascii c in
  bool_decide (n = 56 ∨ n = 57 ∨ n = 97 ∨ n = 98).

Fixpoint has_layout (layout s : string) : bool :=
  match layout, s with
  | EmptyString, EmptyString => true
  | String p layout', String c s' =>
      (if decide (p = letter_x) then hex_digit c
       else if decide (p = letter_y) then variant_digit c
       else bool_decide (c = p)) && has_layout layout' s'
  | _, _ => false
  end.

End Utils.

(** ** StatusBar (ui/StatusBar.ts)

    The status bar item, the handle of the interval the bar keeps in
    [updateInterval], and the intervals that are alive: those set and not
    cleared since. *)

Module StatusBar.
Import Types RecordingSession.

Definition newline_char : string := String (Ascii.ascii_of_nat 10) EmptyString.

(** [s.padStart(2, '0')] *)
Definition padStart2 (s : string) : string :=
  match String.length s with
  | 0 => "00" +:+ s
  | 1 => "0" +:+ s
  | _ => s
  end.

(** [formatDuration(ms)] for a whole number of milliseconds: [Math.floor]
    of a quotient is [`div`], the remainder [%] takes the sign of the
    dividend, as [Z.rem] does. *)
Definition formatDuration (ms : Z) : string :=
  let totalSeconds := (ms `div` 1000)%Z in
  let hours := (totalSeconds `div` 3600)%Z in
  let minutes := (Z.rem totalSeconds 3600 `div` 60)%Z in
  let seconds := Z.rem totalSeconds 60 in
  if decide (0 < hours)%Z then
    padStart2 (pretty hours) +:+ ":" +:+ padStart2 (pretty minutes) +:+ ":" +:+
    padStart2 (pretty seconds)
  else padStart2 (pretty minutes) +:+ ":" +:+ padStart2 (pretty seconds).

Record Bar := {
  text : string;
  tooltip : string;
  command : string;
  warningBackground : bool;
  updateInterval : option nat;
  intervals : list nat;
  handles : nat;                 (* the handles [setInterval] has given out *)
}.

Definition stopTimer (bar : Bar) : Bar :=
  match updateInterval bar with
  | Some h =>
      {| text := text bar; tooltip := tooltip bar; command := command bar;
         warningBackground := warningBackground bar;
         updateInterval := None;
         intervals := filter (λ h', h' ≠ h) (intervals bar);
         handles := handles bar |}
  | None => bar
  end.

Definition showIdleDisplay (bar : Bar) : Bar :=
  let bar := stopTimer bar in
  {| text := "$(circle-outline) Buildlog";
     tooltip := "Click to start recording";
     command := "buildlog.startRecording";
     warningBackground := false;
     updateInterval := updateInterval bar;
     intervals := intervals bar;
     handles := handles bar |}.

Definition updateRecordingDisplay (env : Env) (w : World) (bar : Bar) : Bar :=
  let duration := getDuration env w in
  let timeString := formatDuration duration in
  let stepCount := getStepCount w in
  let promptCount := getPromptCount w in
  {| text := "$(circle-filled) REC " +:+ timeString;
     tooltip := "Recording: " +:+ getTitle w +:+ newline_char +:+
                pretty stepCount +:+ " steps (" +:+ pretty promptCount +:+
                " prompts)" +:+ newline_char +:+ "Click to stop";
     command := "buildlog.stopRecording";
     warningBackground := true;
     updateInterval := updateInterval bar;
     intervals := intervals bar;
     handles := handles bar |}.

(** [setInterval] gives out a new handle, which is alive from then on. *)
Definition startRecordingDisplay (env : Env) (w : World) (bar : Bar) : Bar :=
  let bar := updateRecordingDisplay env w bar in
  {| text := text bar; tooltip := tooltip bar; command := command bar;
     warningBackground := warningBackground bar;
     updateInterval := Some (handles bar);
     intervals := intervals bar ++ [handles bar];
     handles := S (handles bar) |}.

Definition showPausedDisplay (env : Env) (w : World) (bar : Bar) : Bar :=
  let bar := stopTimer bar in
  let duration := getDuration env w in
  let timeString := formatDuration duration in
  {| text := "$(debug-pause) PAUSED " +:+ timeString;
     tooltip := "Recording paused. Click to resume.";
     command := "buildlog.startRecording";
     warningBackground := true;
     updateInterval := updateInterval bar;
     intervals := intervals bar;
     handles := handles bar |}.

Definition updateDisplay (env : Env) (w : World) (state : RecordingState)
    (bar : Bar) : Bar :=
  match state with
  | recording => startRecordingDisplay env w bar
  | paused => showPausedDisplay env w bar
  | idle => showIdleDisplay bar
  end.

(** The constructor: a fresh item, then the display of the session's state. *)
Definition new_StatusBar (env : Env) (w : World) : Bar :=
  updateDisplay env w (getState w)
    {| text := EmptyString; tooltip := EmptyString; command := EmptyString;
       warningBackground := false; updateInterval := None; intervals := [];
       handles := 0 |}.

(** The listener of [onStateChange], called for each event as it is fired;
    steps are not listened to. *)
Definition listen (env : Env) (w : World) (events : list Emission) (bar : Bar)
    : Bar :=
  foldl (λ bar e, match e with
                  | StateChange state => updateDisplay env w state bar
                  | Step _ => bar
                  end) bar events.

(** What happens to a session with its status bar: a call on the session,
    whose events the bar hears ([env_bar] is what the bar reads the clock
    from), or an interval that is alive going off. *)
Inductive Happening :=
  | Called (env : Env) (c : Call) (env_bar : Env)
  | Tick (h : nat) (env_bar : Env).

Definition happen (x : Happening) (wb : World * Bar) : World * Bar :=
  match x with
  | Called env c env_bar =>
      let w' := (call env c wb.1).2 in
      (w', listen env_bar w' (drop (length (fired wb.1)) (fired w')) wb.2)
  | Tick h env_bar =>
      if bool_decide (h ∈ intervals wb.2)
      then (wb.1, updateRecordingDisplay env_bar wb.1 wb.2)
      else wb
  end.

Definition happenings (xs : list Happening) (wb : World * Bar) : World * Bar :=
  foldl (λ wb x, happen x wb) wb xs.

(** The bar shows what the session is doing. *)
Record in_step (wb : World * Bar) : Prop := {
  step_command :
    command wb.2 = if decide (getState wb.1 = recording)
                   then "buildlog.stopRecording" else "buildlog.startRecording";
  step_intervals : intervals wb.2 = option_list (updateInterval wb.2);
  step_interval : is_Some (updateInterval wb.2) ↔ getState wb.1 = recording;
  step_handles : ∀ h, h ∈ intervals wb.2 → h < handles wb.2;
}.

Definition zero : Ascii.ascii := Ascii.ascii_of_nat 48.

(** The class of decimal digits. *)
Definition digit (c : Ascii.ascii) : bool :=
  let n := Ascii.nat_of_ascii c in bool_decide (48 ≤ n ≤ 57).

End StatusBar.

(** ** The stop command (commands/stopRecording.ts, v2)

    The command asks its questions while the rest of the extension goes on:
    the calls other components make on the session while a dialog is open are
    [during_confirmation] and [during_questions].  What the user sees, the
    commands the command starts and the files the writer has written are
    kept beside the session. *)

Module Commands.
Import Types RecordingSession.

Inductive Message :=
  | Warning (text : string)                          (* showWarningMessage *)
  | BuildlogSaved (sizeKB : Z) (replicable : bool)   (* 'Buildlog saved (...)' *)
  | Failure (text : string).                         (* showErrorMessage *)

Record Desk := {
  world : World;
  shown : list Message;
  executed : list string;
  written : list BuildlogFile;
}.

Definition show (m : Message) (d : Desk) : Desk :=
  {| world := world d; shown := shown d ++ [m]; executed := executed d;
     written := written d |}.

Definition executeCommand (c : string) (d : Desk) : Desk :=
  {| world := world d; shown := shown d; executed := executed d ++ [c];
     written := written d |}.

Definition with_world (w : World) (d : Desk) : Desk :=
  {| world := w; shown := shown d; executed := executed d; written := written d |}.

Definition wrote (buildlog : BuildlogFile) (d : Desk) : Desk :=
  {| world := world d; shown := shown d; executed := executed d;
     written := written d ++ [buildlog] |}.

(** [error instanceof Error ? error.message : 'Unknown error'] *)
Definition message_of (e : JSError) : string :=
  match e with Error m | TypeError m | SyntaxError m => m end.

(** The answers to the dialogs: the button pressed on the first one, the
    status picked, the summary typed. *)
Record Answers := {
  proceed : option string;
  statusChoice : option OutcomeStatus;
  summary : option string;
}.

(** [Math.round(size / 1024)] *)
Definition round_kb (size : Z) : Z := ((2 * size + 1024) `div` 2048)%Z.

Definition failed (e : JSError) (d : Desk) : Desk :=
  show (Failure ("Failed to save recording: " +:+ message_of e)) d.

(** [write], [stat] and [opened] are how [writer.write], [fs.stat] and the
    handling of the button pressed on the last message end. *)
Definition stopRecording (answers : Answers)
    (during_confirmation during_questions : list (Env * Call)) (env : Env)
    (workspaceFolder : option string) (write : Completion string)
    (stat : Completion Z) (opened : Completion unit) (d : Desk) : Desk :=
  if negb (isRecording (world d)) then show (Warning "No recording in progress.") d
  else
    let stepCount := getStepCount (world d) in
    let promptCount := getPromptCount (world d) in
    let d1 := with_world (run during_confirmation (world d)) d in
    if bool_decide (promptCount = 0) &&
       bool_decide (proceed answers = Some "Add Prompt First")
    then executeCommand "buildlog.addPrompt" d1
    else if negb (bool_decide (proceed answers = Some "Stop & Save")) then d1
    else
      let d2 := with_world (run during_questions (world d1)) d1 in
      let outcome :=
        {| so_status := or_string (statusChoice answers) "abandoned";
           so_summary := or_string (summary answers)
                           ("Recorded " +:+ pretty stepCount +:+ " steps") |} in
      match stop env (Some outcome) (world d2) with
      | (Throws e, w) => failed e (with_world w d2)
      | (Returns buildlog, w) =>
          let d3 := with_world w d2 in
          match workspaceFolder with
          | None => failed (Error "No workspace folder found") d3
          | Some _ =>
              match write with
              | Throws e => failed e d3
              | Returns filePath =>
                  let d4 := wrote buildlog d3 in
                  match stat with
                  | Throws e => failed e d4
                  | Returns size =>
                      let d5 := show (BuildlogSaved (round_kb size)
                                        (bool_decide (0 < promptCount))) d4 in
                      match opened with
                      | Throws e => failed e d5
                      | Returns _ => d5
                      end
                  end
              end
          end
      end.

(** A desk at which a session with one action is being recorded, and a
    prompt that arrives while the questions are asked. *)
Definition sample_recorded : list (Env * Call) :=
  [(at_ms 2000, AddAction "Edited by hand" None)].

Definition sample_meanwhile : list (Env * Call) :=
  [(at_ms 3000, AddPrompt "Add a login form" None)].

Definition sample_desk : Desk :=
  {| world := run sample_recorded (start (at_ms 1000) (Some "T") fresh).2;
     shown := []; executed := []; written := [] |}.

Definition sample_answers : Answers :=
  {| proceed := Some "Stop & Save"; statusChoice := None; summary := None |}.

Definition sample_cancelled : Answers :=
  {| proceed := Some "Add Prompt First"; statusChoice := None; summary := None |}.

End Commands.

(** ** The global chat interceptor (chat/globalInterceptor.ts)

    Two listeners share [lastChatRequest].  Each reads the clock twice, once
    for its own purposes and once inside the session. *)

Module GlobalInterceptor.
Import Types RecordingSession AgentFeedWatcher.

(** [text.split('\n\n')[0]] *)
Fixpoint first_paragraph (text : string) : string :=
  if is_prefix (newline +:+ newline) text then EmptyString
  else match text with
       | EmptyString => EmptyString
       | String c text' => String c (first_paragraph text')
       end.

Definition createSummary (text : string) : string :=
  let firstPara := first_paragraph text in
  if decide (String.length firstPara ≤ 200) then firstPara
  else trim (String.substring 0 200 text) +:+ "...".

Inductive Role := User | Assistant.

Global Instance Role_eq_dec : EqDecision Role.
Proof. solve_decision. Defined.

(** A message of the request: its role and its content, a string or the
    values of its parts. *)
Record ChatMessage := {
  role : Role;
  content : string + list string;
}.

(** [parts.join('\n')] *)
Fixpoint join_newline (parts : list string) : string :=
  match parts with
  | [] => EmptyString
  | [p] => p
  | p :: parts' => p +:+ newline +:+ join_newline parts'
  end.

Definition prompt_of (m : ChatMessage) : string :=
  match content m with
  | inl s => s
  | inr parts => join_newline parts
  end.

Record Interceptor := {
  world : World;
  lastChatRequest : option (string * Z);
}.

Section Listeners.
(** The two regular expressions of [extractFileMentions] are taken as given. *)
Variable extractFileMentions : string → list string.

(** The listener of [onDidSendChatModelRequest]; [env] is what [addPrompt]
    reads, [env_stamp] what the time stamp of the request is taken from. *)
Definition requestListener (env env_stamp : Env) (messages : list ChatMessage)
    (i : Interceptor) : Interceptor :=
  if decide (getState (world i) ≠ recording) then i
  else
    let userMessages := filter (λ m, role m = User) messages in
    match last userMessages with
    | Some lastUserMessage =>
        let prompt := prompt_of lastUserMessage in
        {| world := (addPrompt env prompt
                       (Some {| po_context := None; po_intent := None |})
                       (world i)).2;
           lastChatRequest := Some (prompt, Date_now env_stamp) |}
    | None => i
    end.

Definition response_options (responseText : string) : ActionOptions :=
  let filesModified := extractFileMentions responseText in
  {| ao_filesCreated := JUndefined;
     ao_filesModified :=
       if decide (0 < length filesModified) then strings filesModified else JUndefined;
     ao_filesDeleted := None;
     ao_approach :=
       if decide (500 < String.length responseText)
       then Some "See chat response for details" else None |}.

(** The listener of [onDidReceiveChatModelResponse]; [env_check] is the
    clock the age of the request is measured with, [text] is
    [event.response.text]. *)
Definition responseListener (env_check env : Env) (text : option string)
    (i : Interceptor) : Interceptor :=
  if decide (getState (world i) ≠ recording) then i
  else
    match lastChatRequest i with
    | None => i
    | Some (_, timestamp) =>
        if decide (30000 < Date_now env_check - timestamp)%Z then i
        else
          let responseText := or_string text EmptyString in
          if decide (String.length responseText = 0) then i
          else
            {| world := (addAction env (createSummary responseText)
                           (Some (response_options responseText)) (world i)).2;
               lastChatRequest := None |}
    end.

(** The action step a recorded response carries. *)
Definition response_step (responseText : string) : StepVariant :=
  ActionStep (createSummary responseText) JUndefined
    (ao_filesModified (response_options responseText)) None
    (ao_approach (response_options responseText)).

End Listeners.

End GlobalInterceptor.

(** * Running a computation *)

Lemma bind_run {W A B} (m : JS W A) (f : A → JS W B) (w : W) :
  (m ≫= f) w = match m w with
               | (Returns a, w') => f a w'
               | (Throws e, w') => (Throws e, w')
               end.
Proof. reflexivity. Qed.

Lemma mret_run {W A} (a : A) (w : W) : (mret a : JS W A) w = (Returns a, w).
Proof. reflexivity. Qed.

Lemma try_catch_run {W A} (body : JS W A) (handler : JSError → JS W A) (w : W) :
  try_catch body handler w = match body w with
                             | (Returns a, w') => (Returns a, w')
                             | (Throws e, w') => handler e w'
                             end.
Proof. reflexivity. Qed.

(** * Properties of the recording session *)

Module SessionProperties.
Import Types RecordingSession.

(** ** The methods in closed form *)

Lemma start_accepted env t w :
  getState w ≠ recording →
  start env t w = (Returns tt, started env t w).
Proof.
  destruct w as [h [st id ti t0 r n fc fm] f]; unfold getState; simpl.
  intros Hst. destruct st; try done; reflexivity.
Qed.

Lemma start_rejected env t w :
  getState w = recording →
  start env t w = (Throws (Error "Recording already in progress"), w).
Proof.
  destruct w as [h [st id ti t0 r n fc fm] f]; unfold getState; simpl.
  intros ->. reflexivity.
Qed.

Lemma stop_rejected env o w :
  getState w ≠ recording →
  stop env o w = (Throws (Error "No recording in progress"), w).
Proof.
  destruct w as [h [st id ti t0 r n fc fm] f]; unfold getState; simpl.
  intros Hst. destruct st; try done; reflexivity.
Qed.

Lemma stop_accepted env o t w :
  getState w = recording →
  startTime (this w) = Some t →
  stop env o w = (Returns (artifact env o t w), stopped w).
Proof.
  destruct w as [h [st id ti t0 r n fc fm] f]; unfold getState; simpl.
  intros -> ->. reflexivity.
Qed.

Lemma mutation_dropped env c w :
  getState w ≠ recording →
  is_mutation c = true →
  call env c w = (Returns None, w).
Proof.
  destruct w as [h [st id ti t0 r n fc fm] f]; unfold getState; simpl.
  intros Hst Hc. destruct st; try done; destruct c; try done; reflexivity.
Qed.

(** [forEach] over an array adds its elements one after the other. *)
Lemma forEach_created name v w :
  absent_or_array v = true →
  optional_forEach name v
    (λ f, modify (on_this (λ s, set_filesCreated (Set_add f (filesCreated s)) s))) w
  = (Returns tt, on_this (λ s, set_filesCreated (add_all v (filesCreated s)) s) w).
Proof.
  destruct v as [| | | | |items|]; try done; intros _;
    try (destruct w as [h [] f]; reflexivity).
  simpl. induction items as [|x items IH] in w |- *.
  - destruct w as [h [] f]; reflexivity.
  - cbn [for_of]. rewrite bind_run. unfold modify at 1. rewrite IH. reflexivity.
Qed.

Lemma forEach_modified name v w :
  absent_or_array v = true →
  optional_forEach name v
    (λ f, modify (on_this (λ s, set_filesModified (Set_add f (filesModified s)) s))) w
  = (Returns tt, on_this (λ s, set_filesModified (add_all v (filesModified s)) s) w).
Proof.
  destruct v as [| | | | |items|]; try done; intros _;
    try (destruct w as [h [] f]; reflexivity).
  simpl. induction items as [|x items IH] in w |- *.
  - destruct w as [h [] f]; reflexivity.
  - cbn [for_of]. rewrite bind_run. unfold modify at 1. rewrite IH. reflexivity.
Qed.

Lemma forEach_throws {W} name v (f : JSValue → JS W unit) (w : W) :
  absent_or_array v = false →
  optional_forEach name v f w
  = (Throws (TypeError (name +:+ "?.forEach is not a function")), w).
Proof. by destruct v. Qed.

Lemma add_all_not_array v s : absent_or_array v = false → add_all v s = s.
Proof. by destruct v. Qed.

Lemma join_returns {W} name v (w : W) :
  absent_or_array v = true → toString_throws v = false →
  join_if_length name v w = (Returns tt, w).
Proof.
  destruct v as [| | | | |items|]; try done. intros _ Hj.
  destruct items as [|x items]; [done|].
  unfold join_if_length, interpolate. by rewrite Hj.
Qed.

Lemma join_throws {W} name v (w : W) :
  absent_or_array v = true → toString_throws v = true →
  join_if_length name v w
  = (Throws (TypeError "Cannot convert object to primitive value"), w).
Proof.
  destruct v as [| | | | |items|]; try done. intros _ Hj.
  destruct items as [|x items]; [done|].
  unfold join_if_length, interpolate. by rewrite Hj.
Qed.

Ltac run_step :=
  rewrite ?bind_run, ?mret_run;
  cbn [gets modify compose on_this this heap fired state sessionId title startTime
       steps sequenceCounter filesCreated filesModified set_sequenceCounter
       set_filesCreated set_filesModified fst snd].

Lemma mutation_accepted env c v w :
  getState w = recording →
  payload c = Some v →
  call env c w = (Returns None, accept env v w).
Proof.
  destruct w as [h [st id ti t0 r n fc fm] f]; unfold getState; simpl.
  intros -> Hc.
  destruct c as [| |content options|summary options| |content category| | |];
    simpl in Hc; try done.
  - destruct content; try done. injection Hc as <-. destruct t0; reflexivity.
  - destruct (absent_or_array (optional ao_filesCreated options)) eqn:Hfc; [|done].
    destruct (absent_or_array (optional ao_filesModified options)) eqn:Hfm; [|done].
    destruct (toString_throws (optional ao_filesModified options)) eqn:Hj; [done|].
    destruct (toString_throws summary) eqn:Hs; [done|].
    injection Hc as <-.
    cbn [call]. unfold addAction. rewrite !bind_run. cbn [gets getState this state].
    rewrite decide_False by (by intros []).
    rewrite bind_run, (forEach_created _ _ _ Hfc).
    rewrite bind_run, (forEach_modified _ _ _ Hfm).
    unfold getTimestamp, next_sequence. repeat run_step.
    destruct t0; repeat run_step; rewrite (join_returns _ _ _ Hfm Hj);
      run_step; unfold interpolate; rewrite Hs; reflexivity.
  - injection Hc as <-. destruct t0; reflexivity.
  - destruct content; try done. injection Hc as <-. destruct t0; reflexivity.
  - injection Hc as <-. destruct t0; reflexivity.
  - injection Hc as <-. destruct t0; reflexivity.
Qed.

(** A mutation call that does not get as far as appending its step throws,
    and leaves the log and the notifications as they were. *)
Lemma mutation_failed env c w :
  getState w = recording →
  is_mutation c = true →
  payload c = None →
  ∃ e, call env c w = (Throws e, after_throw c w).
Proof.
  destruct w as [h [st id ti t0 r n fc fm] f]; unfold getState; simpl.
  intros -> Hm Hc.
  destruct c as [| |content options|summary options| |content category| | |];
    simpl in Hc; try done.
  - destruct content; try done; destruct t0; by eexists.
  - cbn [call]. unfold addAction. rewrite !bind_run. cbn [gets getState this state].
    rewrite decide_False by (by intros []).
    unfold after_throw, draws, created_after, modified_after.
    destruct (absent_or_array (optional ao_filesCreated options)) eqn:Hfc.
    2:{ rewrite bind_run, (forEach_throws _ _ _ _ Hfc).
        rewrite (add_all_not_array _ _ Hfc). by eexists. }
    rewrite bind_run, (forEach_created _ _ _ Hfc).
    destruct (absent_or_array (optional ao_filesModified options)) eqn:Hfm.
    2:{ rewrite bind_run, (forEach_throws _ _ _ _ Hfm).
        rewrite (add_all_not_array _ _ Hfm). by eexists. }
    rewrite bind_run, (forEach_modified _ _ _ Hfm).
    destruct (toString_throws (optional ao_filesModified options)) eqn:Hj.
    unfold getTimestamp, next_sequence. repeat run_step.
    { destruct t0; repeat run_step; rewrite (join_throws _ _ _ Hfm Hj); by eexists. }
    destruct (toString_throws summary) eqn:Hs; [|done].
    unfold getTimestamp, next_sequence. repeat run_step.
    destruct t0; repeat run_step; rewrite (join_returns _ _ _ Hfm Hj);
      run_step; unfold interpolate; rewrite Hs; by eexists.
  - destruct content; try done; destruct t0; by eexists.
Qed.

(** ** One call in a recording session *)

Lemma payload_draws c v : payload c = Some v → draws c = true.
Proof.
  destruct c as [| |content options|summary options| |content category| | |];
    simpl; try done.
  destruct (absent_or_array (optional ao_filesCreated options)); [|done].
  by destruct (absent_or_array (optional ao_filesModified options)).
Qed.

Lemma payload_is_mutation c v : payload c = Some v → is_mutation c = true.
Proof. by destruct c. Qed.

Lemma appends_payload c : appends c = true ↔ is_Some (payload c).
Proof. unfold appends. apply bool_decide_eq_true. Qed.

Lemma current_steps_accept env v w :
  steps (this w) < length (heap w) →
  current_steps (accept env v w) = current_steps w ++ [next_step env v w].
Proof.
  intros Hr. unfold current_steps, array_at; simpl.
  rewrite list_lookup_alter_eq.
  destruct (lookup_lt_is_Some_2 _ _ Hr) as [a ->]. reflexivity.
Qed.

Lemma next_step_step_of env v w t0 :
  startTime (this w) = Some t0 →
  next_step env v w = step_of t0 (sequenceCounter (this w)) env v.
Proof. unfold next_step, step_of. by intros ->. Qed.

Lemma drawn_app cs1 cs2 : drawn (cs1 ++ cs2) = drawn cs1 + drawn cs2.
Proof. unfold drawn. by rewrite filter_app, length_app. Qed.

Lemma drawn_cons e c cs :
  drawn ((e, c) :: cs) = (if draws c then 1 else 0) + drawn cs.
Proof.
  unfold drawn. rewrite filter_cons. simpl.
  destruct (draws c); case_decide; try done.
Qed.

Lemma accepted_app t0 n cs1 cs2 :
  accepted t0 n (cs1 ++ cs2) =
  accepted t0 n cs1 ++ accepted t0 (n + drawn cs1) cs2.
Proof.
  induction cs1 as [|[e c] cs1 IH] in n |- *; simpl.
  - by rewrite Nat.add_0_r.
  - rewrite drawn_cons.
    destruct (payload c) as [v|] eqn:Hp; simpl; rewrite IH.
    + rewrite (payload_draws _ _ Hp). do 3 f_equal. lia.
    + destruct (draws c); do 2 f_equal; lia.
Qed.

Lemma extends_refl t0 w :
  getState w = recording → startTime (this w) = Some t0 → extends t0 [] w w.
Proof.
  intros Hst Ht.
  split; simpl; rewrite ?app_nil_r, ?Nat.add_0_r; done.
Qed.

Lemma extends_trans t0 cs1 cs2 w1 w2 w3 :
  extends t0 cs1 w1 w2 → extends t0 cs2 w2 w3 → extends t0 (cs1 ++ cs2) w1 w3.
Proof.
  intros [] []. split; try congruence.
  - rewrite ext_current1, ext_current0, accepted_app, ext_counter0.
    by rewrite app_assoc.
  - rewrite ext_counter1, ext_counter0, drawn_app. lia.
  - by rewrite ext_created1, ext_created0, foldl_app.
  - by rewrite ext_modified1, ext_modified0, foldl_app.
  - intros r Hr. rewrite ext_frame1 by congruence. by apply ext_frame0.
Qed.

Lemma accept_created c v s :
  payload c = Some v → add_all (created_of v) s = created_after c s.
Proof.
  destruct c as [| |content options|summary options| |content category| | |];
    simpl; try done; try (by intros [= <-]).
  - destruct (is_string content); [by intros [= <-] | done].
  - destruct (_ && _); [by intros [= <-] | done].
  - destruct (is_string content); [by intros [= <-] | done].
Qed.

Lemma accept_modified c v s :
  payload c = Some v → add_all (modified_of v) s = modified_after c s.
Proof.
  destruct c as [| |content options|summary options| |content category| | |];
    simpl; try done; try (by intros [= <-]).
  - destruct (is_string content); [by intros [= <-] | done].
  - destruct (absent_or_array (optional ao_filesCreated options)); [|done].
    destruct (_ && _); [by intros [= <-] | done].
  - destruct (is_string content); [by intros [= <-] | done].
Qed.

Lemma call_extends env c w t0 :
  getState w = recording →
  startTime (this w) = Some t0 →
  steps (this w) < length (heap w) →
  is_stop c = false →
  extends t0 [(env, c)] w (call env c w).2.
Proof.
  intros Hst Ht Hr Hc. unfold accepted.
  destruct (payload c) as [v|] eqn:Hp.
  - rewrite (mutation_accepted _ _ _ _ Hst Hp); cbn [snd].
    split; simpl; rewrite ?Hp, ?drawn_cons, ?(payload_draws _ _ Hp); try done.
    + by rewrite length_alter.
    + rewrite <- (next_step_step_of _ _ _ _ Ht). by apply current_steps_accept.
    + unfold drawn; simpl. lia.
    + by apply accept_created.
    + by apply accept_modified.
    + intros r Hne. by rewrite list_lookup_alter_ne.
  - destruct (is_mutation c) eqn:Hm.
    + destruct (mutation_failed env c w Hst Hm Hp) as [e ->]; cbn [snd].
      split; simpl; rewrite ?Hp, ?drawn_cons; try done.
      * unfold current_steps; simpl. by rewrite app_nil_r.
      * unfold drawn; simpl. destruct (draws c); lia.
    + destruct c; try done.
      * cbn [call]. rewrite bind_run, (start_rejected _ _ _ Hst).
        split; simpl; rewrite ?app_nil_r; try done.
      * destruct w as [h [st id ti ts r n fc fm] f]; simpl in *.
        unfold getState in Hst; simpl in *; subst.
        split; simpl; try done.
        unfold current_steps; simpl. by rewrite app_nil_r.
Qed.

(** *** Calls that keep to the declared types *)

Lemma strings_or_absent_strings l : strings_or_absent (strings l) = true.
Proof. simpl. by induction l. Qed.

Lemma strings_have_text items :
  forallb is_string items = true → existsb toString_throws items = false.
Proof.
  induction items as [|x items IH]; simpl; [done|].
  intros [Hx Hitems]%andb_true_iff. rewrite (IH Hitems). by destruct x.
Qed.

Lemma strings_or_absent_ok v :
  strings_or_absent v = true → absent_or_array v = true ∧ toString_throws v = false.
Proof.
  destruct v as [| | | | |items|]; simpl; try done.
  intros Hitems. split; [done|]. by apply strings_have_text.
Qed.

Lemma well_typed_appends c :
  is_mutation c = true → well_typed c = true → appends c = true.
Proof.
  intros Hm Hw. apply appends_payload.
  destruct c as [| |content options|summary options| |content category| | |];
    simpl in *; try done; try (by eexists).
  - rewrite Hw. by eexists.
  - apply andb_true_iff in Hw as [[Hs Hfc]%andb_true_iff Hfm].
    destruct (strings_or_absent_ok _ Hfc) as [-> _].
    destruct (strings_or_absent_ok _ Hfm) as [-> ->].
    by destruct summary.
  - rewrite Hw. by eexists.
Qed.

Lemma well_typed_payload summary options :
  well_typed (AddAction summary options) = true →
  payload (AddAction summary options)
  = Some (ActionStep summary (optional ao_filesCreated options)
            (optional ao_filesModified options) (options ≫= ao_filesDeleted)
            (options ≫= ao_approach)).
Proof.
  simpl. intros [[Hs Hfc]%andb_true_iff Hfm]%andb_true_iff.
  destruct (strings_or_absent_ok _ Hfc) as [-> _].
  destruct (strings_or_absent_ok _ Hfm) as [-> ->].
  by destruct summary.
Qed.

(** A mutation call returns unless it is made while recording and does not
    get as far as appending its step. *)
Lemma call_returns env c w :
  is_mutation c = true →
  returned (call env c w).1 = negb (isRecording w) || appends c.
Proof.
  intros Hm. unfold isRecording.
  destruct (decide (getState w = recording)) as [Hst|Hst].
  - rewrite (bool_decide_eq_true_2 _ Hst). simpl. unfold appends.
    destruct (payload c) as [v|] eqn:Hp.
    + by rewrite (mutation_accepted _ _ _ _ Hst Hp).
    + by destruct (mutation_failed env c w Hst Hm Hp) as [e ->].
  - rewrite (bool_decide_eq_false_2 _ Hst). simpl.
    by rewrite mutation_dropped.
Qed.

Lemma well_typed_returns env c w :
  is_mutation c = true → well_typed c = true → returned (call env c w).1 = true.
Proof.
  intros Hm Hw. rewrite (call_returns _ _ _ Hm), (well_typed_appends _ Hm Hw).
  apply orb_true_r.
Qed.

Lemma run_app cs1 cs2 w : run (cs1 ++ cs2) w = run cs2 (run cs1 w).
Proof. unfold run. by rewrite foldl_app. Qed.

Lemma run_extends cs w t0 :
  getState w = recording →
  startTime (this w) = Some t0 →
  steps (this w) < length (heap w) →
  Forall (λ ec, is_stop ec.2 = false) cs →
  extends t0 cs w (run cs w).
Proof.
  intros Hst Ht Hr.
  induction cs as [|[e c] cs IH] using rev_ind; intros Hcs.
  - by apply extends_refl.
  - apply Forall_app in Hcs as [Hcs Hc%Forall_inv].
    rewrite run_app.
    destruct (IH Hcs) as [].
    eapply extends_trans; [by split|].
    apply call_extends; [done | done | | done].
    by rewrite ext_steps0, ext_heap_length0.
Qed.

(** ** A whole session: start, calls, stop *)

Lemma current_steps_started env t w : current_steps (started env t w) = [].
Proof.
  unfold current_steps, array_at; simpl.
  by rewrite lookup_app_r, Nat.sub_diag.
Qed.

Lemma session_extends w0 envs t cs :
  Forall (λ ec, is_stop ec.2 = false) cs →
  extends (Date_now envs) cs (started envs t w0) (run cs (started envs t w0)).
Proof.
  intros Hcs.
  apply (run_extends cs (started envs t w0) (Date_now envs)); try done.
  simpl. rewrite length_app; simpl. lia.
Qed.

Lemma session_steps w0 envs t cs :
  Forall (λ ec, is_stop ec.2 = false) cs →
  current_steps (run cs (started envs t w0)) = accepted (Date_now envs) 0 cs.
Proof.
  intros Hcs. destruct (session_extends w0 envs t cs Hcs) as [].
  by rewrite ext_current0, current_steps_started.
Qed.

Lemma session_stop w0 envs t cs enve o :
  Forall (λ ec, is_stop ec.2 = false) cs →
  let w2 := run cs (started envs t w0) in
  stop enve o w2 = (Returns (artifact enve o (Date_now envs) w2), stopped w2).
Proof.
  intros Hcs w2. subst w2. destruct (session_extends w0 envs t cs Hcs) as [].
  by apply stop_accepted.
Qed.

Lemma artifact_steps_stopped env o t w :
  steps (this w) < length (heap w) →
  artifact_steps (stopped w) (artifact env o t w) = current_steps w.
Proof.
  intros Hr. unfold artifact_steps, current_steps, array_at; simpl.
  by rewrite lookup_app_l.
Qed.

Lemma session_artifact_steps w0 envs t cs enve o :
  Forall (λ ec, is_stop ec.2 = false) cs →
  let w2 := run cs (started envs t w0) in
  artifact_steps (stopped w2) (artifact enve o (Date_now envs) w2)
  = accepted (Date_now envs) 0 cs.
Proof.
  intros Hcs w2. subst w2. destruct (session_extends w0 envs t cs Hcs) as [].
  rewrite artifact_steps_stopped, session_steps; [done..|].
  rewrite ext_steps0, ext_heap_length0. simpl. rewrite length_app; simpl. lia.
Qed.

Lemma accepted_variants t0 n cs :
  step_variant <$> accepted t0 n cs = omap (λ ec, payload ec.2) cs.
Proof.
  induction cs as [|[e c] cs IH] in n |- *; simpl; [done|].
  destruct (payload c); simpl; by rewrite IH.
Qed.

Lemma take_no_stop k (cs : list (Env * Call)) :
  Forall (λ ec, is_stop ec.2 = false) cs →
  Forall (λ ec, is_stop ec.2 = false) (take k cs).
Proof. apply Forall_take. Qed.

(** ** The invariant of reachable worlds *)

Lemma Inv_constructor env : Inv (constructor env).
Proof.
  split; simpl; try done; try lia; intros *; by rewrite ?lookup_nil.
Qed.

Lemma Inv_empty w :
  steps (this w) < length (heap w) →
  current_steps w = [] →
  (getState w = recording → is_Some (startTime (this w))) →
  getState w ≠ paused →
  Inv w.
Proof.
  intros Hr Hl Ht Hp. split; rewrite ?Hl; simpl; try done; try lia;
    intros *; by rewrite ?lookup_nil.
Qed.

Lemma Inv_started env t w : Inv (started env t w).
Proof.
  apply Inv_empty; [|apply current_steps_started|by eexists|done].
  simpl. rewrite length_app; simpl; lia.
Qed.

Lemma current_steps_stopped w : current_steps (stopped w) = [].
Proof.
  unfold current_steps, array_at; simpl.
  by rewrite lookup_app_r, Nat.sub_diag.
Qed.

Lemma Inv_stopped w : Inv (stopped w).
Proof.
  apply Inv_empty; [|apply current_steps_stopped|done|done].
  simpl. rewrite length_app; simpl; lia.
Qed.

Lemma Inv_accept env v w : Inv w → Inv (accept env v w).
Proof.
  intros []. split; rewrite ?current_steps_accept by done; simpl; try done.
  - by rewrite length_alter.
  - rewrite length_app; simpl. lia.
  - intros i s Hi. apply lookup_app_Some in Hi as [Hi|[Hlen Hi]].
    + specialize (inv_sequence0 _ _ Hi). lia.
    + apply list_lookup_singleton_Some in Hi as [Hi <-]. simpl. lia.
  - intros i j s s' Hij Hi Hj.
    apply lookup_app_Some in Hj as [Hj|[Hlen Hj]].
    + rewrite lookup_app_l in Hi by (apply lookup_lt_Some in Hj; lia).
      by eapply inv_increasing0.
    + apply list_lookup_singleton_Some in Hj as [Hj <-]. simpl.
      rewrite lookup_app_l in Hi by lia.
      specialize (inv_sequence0 _ _ Hi). lia.
Qed.

Lemma Inv_after_throw c w : Inv w → Inv (after_throw c w).
Proof.
  intros []. split; try done.
  - change (current_steps (after_throw c w)) with (current_steps w). simpl.
    destruct (draws c); lia.
  - change (current_steps (after_throw c w)) with (current_steps w). simpl.
    intros i s Hi. specialize (inv_sequence0 _ _ Hi). destruct (draws c); lia.
Qed.

Lemma Inv_call env c w : Inv w → Inv (call env c w).2.
Proof.
  intros HI.
  destruct (decide (getState w = recording)) as [Hst|Hst].
  - destruct (payload c) as [v|] eqn:Hp.
    { rewrite (mutation_accepted _ _ _ _ Hst Hp). by apply Inv_accept. }
    destruct (is_mutation c) eqn:Hm.
    { destruct (mutation_failed env c w Hst Hm Hp) as [e ->].
      by apply Inv_after_throw. }
    destruct c; try done; cbn [call]; rewrite bind_run.
    + by rewrite (start_rejected _ _ _ Hst).
    + destruct (inv_startTime _ HI Hst) as [t0 Ht].
      rewrite (stop_accepted _ _ _ _ Hst Ht). apply Inv_stopped.
    + destruct HI. by split.
  - destruct (is_mutation c) eqn:Hm.
    { by rewrite mutation_dropped. }
    destruct c; try done; cbn [call]; rewrite bind_run.
    + rewrite (start_accepted _ _ _ Hst). apply Inv_started.
    + by rewrite (stop_rejected _ _ _ Hst).
    + destruct HI. by split.
Qed.

Lemma Inv_run cs w : Inv w → Inv (run cs w).
Proof.
  induction cs as [|[e c] cs IH] in w |- *; [done|].
  intros HI. apply IH, Inv_call, HI.
Qed.

Lemma Inv_reachable env0 hist : Inv (run hist (constructor env0)).
Proof. apply Inv_run, Inv_constructor. Qed.

(** ** The scenarios of the specification *)

Example scenario_hello_world :
  let calls :=
    [ (at_ms 1000, Start (Some "T"));
      (at_ms 2000, AddPrompt "Create a hello world function" None);
      (at_ms 3000, AddAction "Created hello.js" (files (Some ["hello.js"]) None)) ] in
  ∃ a w',
    stop (at_ms 4000) None (run calls fresh) = (Returns a, w') ∧
    (λ s, (step_sequence s, step_type s)) <$> artifact_steps w' a
    = [(0, prompt); (1, action)] ∧
    md_replicable (bf_metadata a) = true ∧
    oc_status (bf_outcome a) = "success" ∧
    oc_filesCreated (bf_outcome a) = 1.
Proof. eexists _, _. split; [vm_compute; reflexivity|]. by vm_compute. Qed.

Example scenario_manual_edit :
  let calls :=
    (at_ms 1000, Start (Some "T")) :: non_replicable_test in
  ∃ a w',
    stop (at_ms 4000) None (run calls fresh) = (Returns a, w') ∧
    md_replicable (bf_metadata a) = false ∧
    oc_status (bf_outcome a) = "abandoned".
Proof. eexists _, _. split; [vm_compute; reflexivity|]. by vm_compute. Qed.

Example scenario_duplicate_paths :
  let calls :=
    (at_ms 1000, Start (Some "T")) :: duplicate_paths_test in
  ∃ a w',
    stop (at_ms 4000) None (run calls fresh) = (Returns a, w') ∧
    oc_filesModified (bf_outcome a) = 1.
Proof. eexists _, _. split; [vm_compute; reflexivity|]. by vm_compute. Qed.

Example scenario_idle_writes_dropped :
  let calls :=
    [ (at_ms 100, AddPrompt "This should be ignored" None);
      (at_ms 200, AddAction "This should be ignored" None);
      (at_ms 1000, Start (Some "Test")) ] in
  ∃ a w',
    stop (at_ms 4000) None (run calls fresh) = (Returns a, w') ∧
    artifact_steps w' a = [].
Proof. eexists _, _. split; [vm_compute; reflexivity|]. by vm_compute. Qed.

(** ** Ordering and numbering of the steps *)

(** C1: the session is recording and the feed adapter reads the line
    [{"type":"prompt"}], for which it calls [addPrompt(undefined, ...)], and
    then a note.  [addPrompt] draws the sequence number 0 and throws on the
    line that logs the step, before the step is appended: the session stays
    recording with no step and a sequence counter of 1.  The note is then
    numbered 1, and [stop] returns an artifact whose only step, at index 0,
    has the sequence number 1. *)
Theorem C1_sequence_number_spent_by_a_failed_prompt :
  let w1 := (start (at_ms 1000) (Some "T") fresh).2 in
  let undefined_prompt :=
    AddPrompt JUndefined (Some {| po_context := None; po_intent := None |}) in
  AgentFeedWatcher.translate (JObject [("type", JString "prompt")])
  = Some (AgentFeedWatcher.session_addPrompt JUndefined JUndefined JUndefined) ∧
  prompt_without_content_test
  = [(at_ms 2000, undefined_prompt);
     (at_ms 3000, AddNote "User wanted hover effects" None)] ∧
  (call (at_ms 2000) undefined_prompt w1).1
  = Throws (TypeError "Cannot read properties of undefined (reading 'substring')") ∧
  getState (call (at_ms 2000) undefined_prompt w1).2 = recording ∧
  length (current_steps (call (at_ms 2000) undefined_prompt w1).2) = 0 ∧
  sequenceCounter (this (call (at_ms 2000) undefined_prompt w1).2) = 1 ∧
  ∃ a w3,
    stop (at_ms 9000) None (run prompt_without_content_test w1) = (Returns a, w3) ∧
    (λ s, (step_sequence s, step_type s)) <$> artifact_steps w3 a = [(1, note)].
Proof.
  do 6 (split; [reflexivity|]).
  eexists _, _. split; [vm_compute; reflexivity|]. reflexivity.
Qed.

(** Where no call throws, the steps are numbered by their index and there
    are as many of them as the counter says, after every prefix of the
    calls. *)
Lemma draws_is_mutation c : draws c = true → is_mutation c = true.
Proof. by destruct c. Qed.

Lemma draws_appends c :
  (is_mutation c = true → appends c = true) → payload c = None → draws c = false.
Proof.
  intros Hc Hp. destruct (draws c) eqn:Hd; [|done].
  apply draws_is_mutation, Hc, appends_payload in Hd as [v Hv]. congruence.
Qed.

Lemma accepted_sequence t0 n cs i s :
  Forall (λ ec, is_mutation ec.2 = true → appends ec.2 = true) cs →
  accepted t0 n cs !! i = Some s → step_sequence s = n + i.
Proof.
  intros Hcs.
  induction Hcs as [|[e c] cs Hc Hcs IH] in n, i |- *; simpl in *; [done|].
  destruct (payload c) eqn:Hp.
  - destruct i as [|i]; simpl.
    + intros [= <-]. simpl. lia.
    + intros Hi%IH. lia.
  - rewrite (draws_appends _ Hc Hp). apply IH.
Qed.

Lemma length_accepted_drawn t0 n cs :
  Forall (λ ec, is_mutation ec.2 = true → appends ec.2 = true) cs →
  length (accepted t0 n cs) = drawn cs.
Proof.
  intros Hcs.
  induction Hcs as [|[e c] cs Hc Hcs IH] in n |- *; simpl in *; [done|].
  rewrite drawn_cons. destruct (payload c) eqn:Hp.
  - rewrite (payload_draws _ _ Hp). simpl. by rewrite IH.
  - rewrite (draws_appends _ Hc Hp). simpl. by rewrite IH.
Qed.

Lemma steps_in_acceptance_order w0 envs title cs enve outcome :
  getState w0 ≠ recording →
  Forall (λ ec, is_stop ec.2 = false) cs →
  Forall (λ ec, is_mutation ec.2 = true → appends ec.2 = true) cs →
  let w1 := (start envs title w0).2 in
  let w2 := run cs w1 in
  ∃ a, (stop enve outcome w2).1 = Returns a ∧
    let l := artifact_steps (stop enve outcome w2).2 a in
    l = accepted (Date_now envs) 0 cs ∧
    step_variant <$> l = omap (λ ec, payload ec.2) cs ∧
    (∀ i s, l !! i = Some s → step_sequence s = i) ∧
    (∀ k, let w := run (take k cs) w1 in
          getState w = recording ∧
          length (current_steps w) = sequenceCounter (this w)).
Proof.
  intros Hst Hcs Hok w1 w2. subst w1 w2.
  rewrite (start_accepted _ _ _ Hst); cbn [snd].
  rewrite (session_stop w0 envs title cs enve outcome Hcs); cbn [fst snd].
  eexists; split; [done|].
  rewrite (session_artifact_steps w0 envs title cs enve outcome Hcs).
  split; [done|]. split; [apply accepted_variants|].
  split; [intros i s Hi; by apply (accepted_sequence _ _ _ _ _ Hok) in Hi|].
  intros k.
  destruct (session_extends w0 envs title (take k cs) (take_no_stop k cs Hcs)) as [].
  split; [done|].
  rewrite ext_current0, ext_counter0, current_steps_started. simpl.
  apply length_accepted_drawn. by apply Forall_take.
Qed.

Lemma steps_in_acceptance_order_witness :
  ∃ a,
    (stop (at_ms 9000) None
       (run sequence_test (start (at_ms 1000) (Some "Sequence Test") fresh).2)).1
    = Returns a ∧
    step_sequence <$>
      artifact_steps
        (stop (at_ms 9000) None
           (run sequence_test (start (at_ms 1000) (Some "Sequence Test") fresh).2)).2 a
    = [0; 1; 2; 3].
Proof.
  assert (getState fresh ≠ recording) as H1 by done.
  assert (Forall (λ ec, is_stop ec.2 = false) sequence_test) as H2
    by (repeat constructor).
  assert (Forall (λ ec, is_mutation ec.2 = true → appends ec.2 = true) sequence_test)
    as H3 by (repeat constructor).
  destruct (steps_in_acceptance_order fresh (at_ms 1000) (Some "Sequence Test")
              sequence_test (at_ms 9000) None H1 H2 H3) as (a & Ha & Hl & _).
  exists a. split; [exact Ha|]. rewrite Hl. reflexivity.
Defined.

(** ** What the artifact of a session says *)

Lemma is_prompt_step_of t0 n env c v :
  payload c = Some v → is_prompt (step_of t0 n env v) = is_addPrompt c.
Proof.
  destruct c as [| |content options|summary options| |content category| | |];
    simpl; try done; try (by intros [= <-]).
  - destruct (is_string content); [by intros [= <-] | done].
  - destruct (_ && _); [by intros [= <-] | done].
  - destruct (is_string content); [by intros [= <-] | done].
Qed.

Lemma is_addPrompt_payload c : payload c = None → is_addPrompt c = false.
Proof.
  destruct c as [| |content options|summary options| |content category| | |];
    simpl; try done.
  by destruct (is_string content).
Qed.

Lemma existsb_is_prompt_accepted t0 n cs :
  existsb is_prompt (accepted t0 n cs) = any_prompt cs.
Proof.
  unfold any_prompt.
  induction cs as [|[e c] cs IH] in n |- *; simpl; [done|].
  destruct (payload c) as [v|] eqn:Hp; simpl.
  - by rewrite IH, (is_prompt_step_of _ _ _ _ _ Hp).
  - by rewrite IH, (is_addPrompt_payload _ Hp).
Qed.

Lemma length_accepted t0 n cs : length (accepted t0 n cs) = mutations cs.
Proof.
  unfold mutations.
  induction cs as [|[e c] cs IH] in n |- *; simpl; [done|].
  destruct (payload c) as [v|] eqn:Hp; simpl.
  - rewrite filter_cons_True; [simpl; by rewrite IH|].
    unfold appends; simpl. rewrite Hp. by apply bool_decide_eq_true.
  - rewrite filter_cons_False; [by rewrite IH|].
    unfold appends; simpl. rewrite Hp.
    intros [v Hv]%bool_decide_eq_true. done.
Qed.

Lemma any_prompt_true cs :
  any_prompt cs = true ↔ ∃ ec, ec ∈ cs ∧ is_addPrompt ec.2 = true.
Proof.
  unfold any_prompt. rewrite existsb_exists.
  split; intros (ec & Hin & Hp); exists ec; by rewrite ?list_elem_of_In in *.
Qed.

(** The artifact of a session, field by field, in terms of the calls made
    between [start] and [stop]. *)
Lemma session_result w0 envs t cs enve o :
  getState w0 ≠ recording →
  Forall (λ ec, is_stop ec.2 = false) cs →
  ∃ a w3,
    stop enve o (run cs (start envs t w0).2) = (Returns a, w3) ∧
    Inv w3 ∧ getState w3 = idle ∧
    bf_steps a < length (heap w3) ∧ bf_steps a ≠ steps (this w3) ∧
    artifact_steps w3 a = accepted (Date_now envs) 0 cs ∧
    md_replicable (bf_metadata a) = any_prompt cs ∧
    oc_canReplicate (bf_outcome a) = any_prompt cs ∧
    oc_status (bf_outcome a) = or_string (so_status <$> o) (default_status cs) ∧
    oc_summary (bf_outcome a) = or_string (so_summary <$> o) (default_summary cs) ∧
    oc_filesCreated (bf_outcome a)
      = length (foldl (λ s ec, created_after ec.2 s) [] cs) ∧
    oc_filesModified (bf_outcome a)
      = length (foldl (λ s ec, modified_after ec.2 s) [] cs).
Proof.
  intros Hst Hcs.
  rewrite (start_accepted _ _ _ Hst); cbn [snd].
  rewrite (session_stop w0 envs t cs enve o Hcs).
  eexists _, _; split; [done|].
  pose proof (session_steps w0 envs t cs Hcs) as Hl.
  destruct (session_extends w0 envs t cs Hcs) as [].
  assert (steps (this (run cs (started envs t w0)))
          < length (heap (run cs (started envs t w0)))) as Hr.
  { rewrite ext_steps0, ext_heap_length0; simpl. rewrite length_app; simpl; lia. }
  split; [apply Inv_stopped|]. split; [done|].
  split; [simpl; rewrite length_app; simpl; lia|].
  split; [simpl; lia|].
  split; [by apply session_artifact_steps|].
  simpl. rewrite Hl, existsb_is_prompt_accepted, length_accepted.
  by rewrite ext_created0, ext_modified0.
Qed.

(** C2: the artifact of a session is marked replicable, in its metadata and
    in its outcome, exactly when an [addPrompt] call was accepted between
    [start] and [stop]; the two flags always agree; and with no prompt and no
    outcome handed to [stop] the status is 'abandoned'. *)
Theorem C2_replicable_iff_prompt_accepted w0 envs title cs enve outcome :
  getState w0 ≠ recording →
  Forall (λ ec, is_stop ec.2 = false) cs →
  ∃ a, (stop enve outcome (run cs (start envs title w0).2)).1 = Returns a ∧
    ((md_replicable (bf_metadata a) = true ∧ oc_canReplicate (bf_outcome a) = true)
     ↔ ∃ ec, ec ∈ cs ∧ is_addPrompt ec.2 = true) ∧
    oc_canReplicate (bf_outcome a) = md_replicable (bf_metadata a) ∧
    ((¬ ∃ ec, ec ∈ cs ∧ is_addPrompt ec.2 = true) →
     outcome = None → oc_status (bf_outcome a) = "abandoned").
Proof.
  intros Hst Hcs.
  destruct (session_result w0 envs title cs enve outcome Hst Hcs)
    as (a & w3 & Hstop & _ & _ & _ & _ & _ & Hrep & Hcan & Hstatus & _).
  exists a. rewrite Hstop. split; [done|].
  rewrite Hrep, Hcan, Hstatus, <- any_prompt_true.
  split; [tauto|]. split; [done|].
  intros Hno ->. unfold default_status.
  by destruct (any_prompt cs).
Qed.

Lemma C2_witness :
  getState fresh ≠ recording ∧
  Forall (λ ec, is_stop ec.2 = false) non_replicable_test ∧
  ∃ a,
    (stop (at_ms 9000) None
       (run non_replicable_test
          (start (at_ms 1000) (Some "Non-replicable Test") fresh).2)).1
    = Returns a ∧
    oc_canReplicate (bf_outcome a) = md_replicable (bf_metadata a).
Proof.
  assert (getState fresh ≠ recording) as H1 by done.
  assert (Forall (λ ec, is_stop ec.2 = false) non_replicable_test) as H2
    by (repeat constructor).
  split; [exact H1|]. split; [exact H2|].
  destruct (C2_replicable_iff_prompt_accepted fresh (at_ms 1000)
              (Some "Non-replicable Test") non_replicable_test (at_ms 9000) None
              H1 H2) as (a & Ha & _ & Heq & _).
  exists a. split; [exact Ha | exact Heq].
Defined.

(** ** Calls outside a recording *)

(** C3: a mutation call made while the session is not recording returns
    normally and leaves the whole world as it was: step log, sequence
    counter, file sets and notifications.  Whatever is called afterwards
    completes as it would have without the dropped call. *)
Theorem C3_mutation_dropped_when_not_recording env c w :
  getState w ≠ recording →
  is_mutation c = true →
  call env c w = (Returns None, w) ∧
  ∀ later,
    run ((env, c) :: later) w = run later w ∧
    completions ((env, c) :: later) w = Returns None :: completions later w.
Proof.
  intros Hst Hc.
  pose proof (mutation_dropped env c w Hst Hc) as Hdrop.
  split; [done|]. intros later.
  unfold run; simpl. by rewrite Hdrop.
Qed.

Lemma C3_witness :
  getState fresh ≠ recording ∧
  is_mutation (AddPrompt "This should be ignored" None) = true ∧
  call (at_ms 500) (AddPrompt "This should be ignored" None) fresh
  = (Returns None, fresh).
Proof.
  assert (getState fresh ≠ recording) as H1 by done.
  assert (is_mutation (AddPrompt "This should be ignored" None) = true) as H2
    by reflexivity.
  split; [exact H1|]. split; [exact H2|].
  exact (proj1 (C3_mutation_dropped_when_not_recording (at_ms 500)
                  (AddPrompt "This should be ignored" None) fresh H1 H2)).
Defined.

(** ** Protocol violations *)

Lemma stop_without_startTime env o w :
  getState w = recording →
  startTime (this w) = None →
  returned (stop env o w).1 = false.
Proof.
  destruct w as [h [st id ti t0 r n fc fm] f]; unfold getState; simpl.
  intros -> ->. reflexivity.
Qed.

Lemma stop_returns env o w a w' :
  stop env o w = (Returns a, w') →
  ∃ t, getState w = recording ∧ startTime (this w) = Some t ∧
       a = artifact env o t w ∧ w' = stopped w.
Proof.
  intros Hstop.
  destruct (decide (getState w = recording)) as [Hst|Hst].
  - destruct (startTime (this w)) as [t|] eqn:Ht.
    + rewrite (stop_accepted _ _ _ _ Hst Ht) in Hstop.
      injection Hstop as <- <-. by exists t.
    + pose proof (stop_without_startTime env o w Hst Ht) as Hr.
      by rewrite Hstop in Hr.
  - by rewrite (stop_rejected _ _ _ Hst) in Hstop.
Qed.

(** C4: [start] on a recording session and [stop] on a session that is not
    recording throw, and leave the world as it was; after a [stop] that
    returned an artifact, a second [stop] throws, and the steps the artifact
    refers to are the same after the failed call as before it. *)
Theorem C4_protocol_violations_fail env t o w :
  (getState w = recording →
   start env t w = (Throws (Error "Recording already in progress"), w)) ∧
  (getState w ≠ recording →
   stop env o w = (Throws (Error "No recording in progress"), w)) ∧
  (∀ env1 o1 a w1,
     stop env1 o1 w = (Returns a, w1) →
     stop env o w1 = (Throws (Error "No recording in progress"), w1) ∧
     artifact_steps (stop env o w1).2 a = artifact_steps w1 a).
Proof.
  split; [apply start_rejected|]. split; [apply stop_rejected|].
  intros env1 o1 a w1 (t1 & _ & _ & _ & ->)%stop_returns.
  assert (stop env o (stopped w)
          = (Throws (Error "No recording in progress"), stopped w)) as Hsecond
    by (by apply stop_rejected).
  by rewrite Hsecond.
Qed.

Lemma C4_witness :
  getState (start (at_ms 1000) None fresh).2 = recording ∧
  start (at_ms 2000) None (start (at_ms 1000) None fresh).2
  = (Throws (Error "Recording already in progress"),
     (start (at_ms 1000) None fresh).2).
Proof.
  assert (getState (start (at_ms 1000) None fresh).2 = recording) as H1
    by reflexivity.
  split; [exact H1|].
  exact (proj1 (C4_protocol_violations_fail (at_ms 2000) None None
                  (start (at_ms 1000) None fresh).2) H1).
Defined.

(** ** File counts *)

(** C5: the session is recording and the feed adapter reads an action line
    whose [filesCreated] is the array ["a.js"] and whose [filesModified] is
    the string "b.js".  [addAction] adds a.js to the set of created files and
    then throws on [filesModified], which has no [forEach]: no step is
    appended.  [stop] then returns an artifact with no step at all, and so
    with no path in any action step, whose outcome counts one created
    file. *)
Theorem C5_path_counted_without_a_step :
  let w1 := (start (at_ms 1000) (Some "T") fresh).2 in
  let entry :=
    JObject [("type", JString "action"); ("summary", JString "Created a.js");
             ("filesCreated", JArray [JString "a.js"]);
             ("filesModified", JString "b.js")] in
  let action :=
    AddAction "Created a.js"
      (Some {| ao_filesCreated := JArray [JString "a.js"];
               ao_filesModified := JString "b.js";
               ao_filesDeleted := None; ao_approach := None |}) in
  AgentFeedWatcher.translate entry
  = Some (AgentFeedWatcher.session_addAction (JString "Created a.js")
            (JArray [JString "a.js"]) (JString "b.js") JUndefined JUndefined) ∧
  path_not_in_a_list_test = [(at_ms 2000, action)] ∧
  (call (at_ms 2000) action w1).1
  = Throws (TypeError "options?.filesModified?.forEach is not a function") ∧
  current_steps (call (at_ms 2000) action w1).2 = [] ∧
  filesCreated (this (call (at_ms 2000) action w1).2) = [JString "a.js"] ∧
  ∃ a w3,
    stop (at_ms 9000) None (run path_not_in_a_list_test w1) = (Returns a, w3) ∧
    artifact_steps w3 a = [] ∧
    oc_filesCreated (bf_outcome a) = 1 ∧
    oc_filesModified (bf_outcome a) = 0.
Proof.
  do 5 (split; [reflexivity|]).
  eexists _, _. split; [vm_compute; reflexivity|]. by vm_compute.
Qed.

(** Where the calls keep to the declared types, the two counts are the
    numbers of distinct paths the action steps of the artifact list. *)
Lemma existsb_same_string f ps :
  existsb (same_value_zero (JString f)) (JString <$> ps) = bool_decide (f ∈ ps).
Proof.
  induction ps as [|x ps IH]; [done|].
  rewrite fmap_cons. cbn [existsb same_value_zero]. rewrite IH.
  destruct (decide (f = x)) as [->|Hne].
  - rewrite (bool_decide_eq_true_2 (x = x)) by done. simpl. symmetry.
    apply bool_decide_eq_true_2, elem_of_cons. by left.
  - rewrite (bool_decide_eq_false_2 (f = x)) by done. simpl.
    apply bool_decide_ext. rewrite elem_of_cons. tauto.
Qed.

Lemma add_strings items ps :
  forallb is_string items = true →
  NoDup ps →
  ∃ ps', foldl (λ s f, Set_add f s) (JString <$> ps) items = JString <$> ps' ∧
         NoDup ps' ∧
         ∀ x, x ∈ ps' ↔ x ∈ ps ∨ x ∈ paths_of (JArray items).
Proof.
  induction items as [|v items IH] in ps |- *.
  - intros _ Hps. exists ps. split; [done|]. split; [done|].
    intros x. simpl. rewrite elem_of_nil. tauto.
  - intros [Hv Hitems]%andb_true_iff Hps.
    destruct v as [| | | |f| |]; try done.
    cbn [foldl paths_of omap list_omap]. unfold Set_add at 2.
    rewrite existsb_same_string.
    case_bool_decide as Hin.
    + destruct (IH ps Hitems Hps) as (ps' & -> & Hnd & Hel).
      exists ps'. split; [done|]. split; [done|].
      intros x. rewrite Hel, elem_of_cons. simpl. split; [tauto|].
      intros [?|[->|?]]; tauto.
    + assert ((JString <$> ps) ++ [JString f]
              = JString <$> (ps ++ [f] : list string)) as Happ
        by (by rewrite fmap_app).
      rewrite Happ.
      destruct (IH (ps ++ [f]) Hitems) as (ps' & -> & Hnd & Hel).
      { apply NoDup_app. split; [done|]. split; [|apply NoDup_singleton].
        intros x Hx ->%list_elem_of_singleton. done. }
      exists ps'. split; [done|]. split; [done|].
      intros x. rewrite Hel, elem_of_cons, elem_of_app, list_elem_of_singleton.
      simpl. tauto.
Qed.

Lemma add_all_typed v ps :
  strings_or_absent v = true →
  NoDup ps →
  ∃ ps', add_all v (JString <$> ps) = JString <$> ps' ∧
         NoDup ps' ∧
         ∀ x, x ∈ ps' ↔ x ∈ ps ∨ x ∈ paths_of v.
Proof.
  destruct v as [| | | | |items|]; try done.
  - intros _ Hps. exists ps. split; [done|]. split; [done|].
    intros x. simpl. rewrite elem_of_nil. tauto.
  - intros Hitems Hps. by apply add_strings.
Qed.

(** The paths a call adds to the two sets. *)
Lemma tracked_typed c ps :
  well_typed c = true →
  NoDup ps →
  (∃ ps', created_after c (JString <$> ps) = JString <$> ps' ∧ NoDup ps' ∧
          ∀ x, x ∈ ps' ↔
               x ∈ ps ∨ x ∈ from_option (paths_of ∘ created_of) [] (payload c)) ∧
  (∃ ps', modified_after c (JString <$> ps) = JString <$> ps' ∧ NoDup ps' ∧
          ∀ x, x ∈ ps' ↔
               x ∈ ps ∨ x ∈ from_option (paths_of ∘ modified_of) [] (payload c)).
Proof.
  intros Hw Hps.
  assert (∃ ps', JString <$> ps = JString <$> ps' ∧ NoDup ps' ∧
                 ∀ x, x ∈ ps' ↔ x ∈ ps ∨ x ∈ @nil string) as Hsame.
  { exists ps. split; [done|]. split; [done|].
    intros x. rewrite elem_of_nil. tauto. }
  destruct c as [| |content options|summary options| |content category| | |];
    simpl in *; try (by split).
  - rewrite Hw. by split.
  - apply andb_true_iff in Hw as [[Hs Hfc]%andb_true_iff Hfm].
    destruct (strings_or_absent_ok _ Hfc) as [Hfc1 _].
    destruct (strings_or_absent_ok _ Hfm) as [Hfm1 Hfm2].
    rewrite Hfc1, Hfm1, Hfm2. destruct summary; try done. simpl.
    split; by apply add_all_typed.
  - rewrite Hw. by split.
Qed.

Lemma tracked_history t0 n cs ps qs :
  Forall (λ ec, well_typed ec.2 = true) cs →
  NoDup ps → NoDup qs →
  (∃ ps', foldl (λ s ec, created_after ec.2 s) (JString <$> ps) cs = JString <$> ps' ∧
          NoDup ps' ∧
          ∀ x, x ∈ ps' ↔ x ∈ ps ∨ x ∈ accepted t0 n cs ≫= created_by) ∧
  (∃ qs', foldl (λ s ec, modified_after ec.2 s) (JString <$> qs) cs = JString <$> qs' ∧
          NoDup qs' ∧
          ∀ x, x ∈ qs' ↔ x ∈ qs ∨ x ∈ accepted t0 n cs ≫= modified_by).
Proof.
  intros Hcs.
  induction Hcs as [|[e c] cs Hc Hcs IH] in n, ps, qs |- *; intros Hps Hqs.
  - simpl. split; [exists ps | exists qs]; (split; [done|]); (split; [done|]);
      intros x; rewrite elem_of_nil; tauto.
  - cbn [foldl accepted fst snd] in *.
    destruct (tracked_typed c ps Hc Hps) as [(ps1 & -> & Hps1 & Hel1) _].
    destruct (tracked_typed c qs Hc Hqs) as [_ (qs1 & -> & Hqs1 & Hel2)].
    destruct (payload c) as [v|] eqn:Hp; simpl in Hel1, Hel2.
    + destruct (IH (S n) ps1 qs1 Hps1 Hqs1)
        as [(ps' & -> & Hnd1 & He1) (qs' & -> & Hnd2 & He2)].
      split; [exists ps' | exists qs']; (split; [done|]); (split; [done|]);
        intros x; rewrite ?He1, ?He2, ?Hel1, ?Hel2, bind_cons, elem_of_app;
        cbn [created_by modified_by step_of step_variant]; tauto.
    + destruct (IH (if draws c then S n else n) ps1 qs1 Hps1 Hqs1)
        as [(ps' & -> & Hnd1 & He1) (qs' & -> & Hnd2 & He2)].
      split; [exists ps' | exists qs']; (split; [done|]); (split; [done|]);
        intros x; rewrite ?He1, ?He2, ?Hel1, ?Hel2, elem_of_nil; tauto.
Qed.

Lemma length_distinct (ps l : list string) :
  NoDup ps → (∀ x, x ∈ ps ↔ x ∈ l) → length ps = length (remove_dups l).
Proof.
  intros Hps Hel. apply Permutation_length, NoDup_Permutation; [done| |].
  - apply NoDup_remove_dups.
  - intros x. by rewrite Hel, elem_of_remove_dups.
Qed.

Lemma distinct_file_counts w0 envs title cs enve outcome :
  getState w0 ≠ recording →
  Forall (λ ec, is_stop ec.2 = false) cs →
  Forall (λ ec, well_typed ec.2 = true) cs →
  ∃ a, (stop enve outcome (run cs (start envs title w0).2)).1 = Returns a ∧
    let l := artifact_steps (stop enve outcome (run cs (start envs title w0).2)).2 a in
    oc_filesCreated (bf_outcome a) = length (remove_dups (l ≫= created_by)) ∧
    oc_filesModified (bf_outcome a) = length (remove_dups (l ≫= modified_by)).
Proof.
  intros Hst Hcs Hty.
  destruct (session_result w0 envs title cs enve outcome Hst Hcs)
    as (a & w3 & Hstop & _ & _ & _ & _ & Hl & _ & _ & _ & _ & Hc & Hm).
  exists a. rewrite Hstop; cbn [fst snd]. split; [done|].
  rewrite Hl, Hc, Hm.
  destruct (tracked_history (Date_now envs) 0 cs [] [] Hty NoDup_nil_2
              NoDup_nil_2)
    as [(ps & Hps & Hnd1 & He1) (qs & Hqs & Hnd2 & He2)].
  simpl in Hps, Hqs. rewrite Hps, Hqs, !length_fmap.
  split; apply length_distinct; try done.
  - intros x. rewrite He1, elem_of_nil. tauto.
  - intros x. rewrite He2, elem_of_nil. tauto.
Qed.

Lemma distinct_file_counts_witness :
  ∃ a,
    (stop (at_ms 9000) None
       (run duplicate_paths_test (start (at_ms 1000) (Some "T") fresh).2)).1
    = Returns a ∧
    oc_filesModified (bf_outcome a) = 1.
Proof.
  assert (getState fresh ≠ recording) as H1 by done.
  assert (Forall (λ ec, is_stop ec.2 = false) duplicate_paths_test) as H2
    by (repeat constructor).
  assert (Forall (λ ec, well_typed ec.2 = true) duplicate_paths_test) as H3
    by (repeat constructor).
  destruct (distinct_file_counts fresh (at_ms 1000) (Some "T")
              duplicate_paths_test (at_ms 9000) None H1 H2 H3)
    as (a & Ha & _ & Hm).
  exists a. split; [exact Ha|]. rewrite Hm.
  vm_compute in Ha. injection Ha as <-. reflexivity.
Defined.

(** ** The outcome *)

(** Against C6 as stated: [stop] is handed the explicit outcome
    [{status: 'partial', summary: ''}] and the artifact's summary is not the
    one handed in. *)
Lemma C6_counterexample :
  let explicit := {| so_status := "partial"; so_summary := "" |} in
  ∃ a,
    (stop (at_ms 9000) (Some explicit)
       (run sequence_test (start (at_ms 1000) (Some "T") fresh).2)).1
    = Returns a ∧
    oc_status (bf_outcome a) = "partial" ∧
    oc_summary (bf_outcome a) = "Recorded 4 steps" ∧
    oc_summary (bf_outcome a) ≠ so_summary explicit.
Proof. eexists. split; [vm_compute; reflexivity|]. done. Qed.

(** C6, amended: a status and a summary handed to [stop] are used exactly
    when they are not the empty string (so a status of the declared type
    always is), and an empty one is replaced by the computed default, which
    differs from it; when [stop] is handed no outcome the status is 'success'
    if an [addPrompt] call was accepted and 'abandoned' otherwise, and the
    summary is 'Recorded N steps' with N the number of accepted steps. *)
Theorem C6_outcome_explicit_or_default w0 envs title cs enve outcome :
  getState w0 ≠ recording →
  Forall (λ ec, is_stop ec.2 = false) cs →
  ∃ a, (stop enve outcome (run cs (start envs title w0).2)).1 = Returns a ∧
    (∀ o, outcome = Some o →
       (so_status o ≠ "" → oc_status (bf_outcome a) = so_status o) ∧
       (declared_status (so_status o) → oc_status (bf_outcome a) = so_status o) ∧
       (so_summary o ≠ "" → oc_summary (bf_outcome a) = so_summary o) ∧
       (so_status o = "" →
        oc_status (bf_outcome a) = (if any_prompt cs then "success" else "abandoned") ∧
        oc_status (bf_outcome a) ≠ so_status o) ∧
       (so_summary o = "" →
        oc_summary (bf_outcome a)
        = "Recorded " +:+ pretty (mutations cs) +:+ " steps" ∧
        oc_summary (bf_outcome a) ≠ so_summary o)) ∧
    (outcome = None →
       oc_status (bf_outcome a) = (if any_prompt cs then "success" else "abandoned") ∧
       oc_summary (bf_outcome a) = "Recorded " +:+ pretty (mutations cs) +:+ " steps" ∧
       mutations cs
       = length (artifact_steps
                   (stop enve outcome (run cs (start envs title w0).2)).2 a)).
Proof.
  intros Hst Hcs.
  destruct (session_result w0 envs title cs enve outcome Hst Hcs)
    as (a & w3 & Hstop & _ & _ & _ & _ & Hl & _ & _ & Hstatus & Hsummary & _).
  exists a. rewrite Hstop; cbn [fst snd]. split; [done|].
  rewrite Hstatus, Hsummary, Hl, length_accepted. split.
  - intros o ->; simpl. split; [|split; [|split; [|split]]].
    + by destruct (so_status o).
    + by intros [-> | [-> | [-> | ->]]].
    + by destruct (so_summary o).
    + intros ->. simpl. unfold default_status.
      split; [done|]. by destruct (any_prompt cs).
    + intros ->. simpl. unfold default_summary. done.
  - by intros ->.
Qed.

Lemma C6_witness :
  getState fresh ≠ recording ∧
  Forall (λ ec, is_stop ec.2 = false) sequence_test ∧
  ∃ a,
    (stop (at_ms 9000) None
       (run sequence_test (start (at_ms 1000) (Some "T") fresh).2)).1
    = Returns a ∧
    oc_status (bf_outcome a) = "success" ∧
    oc_summary (bf_outcome a) = "Recorded 4 steps".
Proof.
  assert (getState fresh ≠ recording) as H1 by done.
  assert (Forall (λ ec, is_stop ec.2 = false) sequence_test) as H2
    by (repeat constructor).
  split; [exact H1|]. split; [exact H2|].
  destruct (C6_outcome_explicit_or_default fresh (at_ms 1000) (Some "T")
              sequence_test (at_ms 9000) None H1 H2)
    as (a & Ha & _ & Hnone).
  destruct (Hnone eq_refl) as (Hs & Hsum & _).
  exists a. split; [exact Ha|]. split; [exact Hs | exact Hsum].
Defined.

(** C10: a status or a summary that is the empty string in the outcome
    handed to [stop] is replaced by the computed default, and neither field
    of the artifact's outcome is ever the empty string. *)
Theorem C10_empty_outcome_fields_fall_back w0 envs title cs enve outcome :
  getState w0 ≠ recording →
  Forall (λ ec, is_stop ec.2 = false) cs →
  ∃ a, (stop enve outcome (run cs (start envs title w0).2)).1 = Returns a ∧
    (∀ o, outcome = Some o →
       (so_status o = "" →
        oc_status (bf_outcome a) = (if any_prompt cs then "success" else "abandoned")) ∧
       (so_summary o = "" →
        oc_summary (bf_outcome a)
        = "Recorded " +:+ pretty (mutations cs) +:+ " steps")) ∧
    oc_status (bf_outcome a) ≠ "" ∧
    oc_summary (bf_outcome a) ≠ "".
Proof.
  intros Hst Hcs.
  destruct (session_result w0 envs title cs enve outcome Hst Hcs)
    as (a & w3 & Hstop & _ & _ & _ & _ & _ & _ & _ & Hstatus & Hsummary & _).
  exists a. rewrite Hstop; cbn [fst snd]. split; [done|].
  rewrite Hstatus, Hsummary. unfold default_status, default_summary.
  split; [|split].
  - intros o ->; simpl. split; by intros ->.
  - destruct outcome as [[st su]|]; simpl;
      [destruct st; simpl|]; by destruct (any_prompt cs).
  - destruct outcome as [[st su]|]; simpl; [destruct su; simpl|]; done.
Qed.

Lemma C10_witness :
  getState fresh ≠ recording ∧
  Forall (λ ec, is_stop ec.2 = false) non_replicable_test ∧
  ∃ a,
    (stop (at_ms 9000) (Some {| so_status := ""; so_summary := "" |})
       (run non_replicable_test (start (at_ms 1000) (Some "T") fresh).2)).1
    = Returns a ∧
    oc_status (bf_outcome a) = "abandoned" ∧
    oc_summary (bf_outcome a) = "Recorded 2 steps".
Proof.
  assert (getState fresh ≠ recording) as H1 by done.
  assert (Forall (λ ec, is_stop ec.2 = false) non_replicable_test) as H2
    by (repeat constructor).
  split; [exact H1|]. split; [exact H2|].
  destruct (C10_empty_outcome_fields_fall_back fresh (at_ms 1000) (Some "T")
              non_replicable_test (at_ms 9000)
              (Some {| so_status := ""; so_summary := "" |}) H1 H2)
    as (a & Ha & Hempty & _).
  destruct (Hempty _ eq_refl) as (Hs & Hsum).
  exists a. split; [exact Ha|]. split; [exact (Hs eq_refl) | exact (Hsum eq_refl)].
Defined.

(** ** After stop *)

(** A call changes no array other than the session's own step log, and the
    arrays it creates are new ones. *)
Lemma frame_call env c w r :
  Inv w →
  r < length (heap w) →
  r ≠ steps (this w) →
  heap (call env c w).2 !! r = heap w !! r ∧
  r < length (heap (call env c w).2) ∧
  r ≠ steps (this (call env c w).2).
Proof.
  intros HI Hr Hne.
  assert (∀ h' : list (list BuildlogStep),
            (heap w ++ h') !! r = heap w !! r ∧
            r < length (heap w ++ h') ∧ r ≠ length (heap w)) as Hfresh.
  { intros h'. rewrite lookup_app_l, length_app by done. split; [done|lia]. }
  destruct (decide (getState w = recording)) as [Hst|Hst].
  - destruct (payload c) as [v|] eqn:Hp.
    { rewrite (mutation_accepted _ _ _ _ Hst Hp); simpl.
      rewrite list_lookup_alter_ne, length_alter by done. done. }
    destruct (is_mutation c) eqn:Hm.
    { by destruct (mutation_failed env c w Hst Hm Hp) as [e ->]. }
    destruct c; try done; cbn [call]; rewrite bind_run.
    + by rewrite (start_rejected _ _ _ Hst).
    + destruct (inv_startTime _ HI Hst) as [t0 Ht].
      rewrite (stop_accepted _ _ _ _ Hst Ht). apply Hfresh.
  - destruct (is_mutation c) eqn:Hm.
    { by rewrite mutation_dropped. }
    destruct c; try done; cbn [call]; rewrite bind_run.
    + rewrite (start_accepted _ _ _ Hst). apply Hfresh.
    + by rewrite (stop_rejected _ _ _ Hst).
Qed.

Lemma frame_run later w r :
  Inv w →
  r < length (heap w) →
  r ≠ steps (this w) →
  heap (run later w) !! r = heap w !! r.
Proof.
  induction later as [|[e c] later IH] in w |- *; [done|].
  intros HI Hr Hne.
  destruct (frame_call e c w r HI Hr Hne) as (Hsame & Hr' & Hne').
  unfold run; simpl. fold (run later (call e c w).2).
  rewrite IH; [done | by apply Inv_call | done..].
Qed.

(** C7: when [stop] returns an artifact in a world reached from the
    constructor, the session is idle with no step, no prompt, an empty title,
    a zero duration and all statistics at zero; the artifact refers to the
    steps the session held just before; and no later history of calls on the
    session changes the steps the artifact refers to.  (The outcome counts
    are numbers stored in the artifact itself, out of the session's reach.) *)
Theorem C7_stop_resets_session_and_detaches_artifact env0 hist env o a w' :
  stop env o (run hist (constructor env0)) = (Returns a, w') →
  getState w' = idle ∧
  getStepCount w' = 0 ∧
  getPromptCount w' = 0 ∧
  getTitle w' = "" ∧
  (∀ env', getDuration env' w' = 0%Z) ∧
  getStats w' = {| totalSteps := 0; prompts := 0; actions := 0; notes := 0;
                   others := 0; stat_filesCreated := 0; stat_filesModified := 0 |} ∧
  artifact_steps w' a = current_steps (run hist (constructor env0)) ∧
  ∀ later, artifact_steps (run later w') a = artifact_steps w' a.
Proof.
  intros (t & Hst & Ht & -> & ->)%stop_returns.
  pose proof (Inv_reachable env0 hist) as HI.
  set (w := run hist (constructor env0)) in *.
  assert (current_steps (stopped w) = []) as Hl.
  { unfold current_steps, array_at; simpl.
    by rewrite lookup_app_r, Nat.sub_diag. }
  split; [done|].
  unfold getStepCount, getPromptCount, getStats. rewrite Hl.
  do 5 (split; [done|]).
  split; [apply artifact_steps_stopped, HI|].
  intros later. unfold artifact_steps, array_at.
  rewrite frame_run; [done | apply Inv_stopped | |]; simpl.
  - rewrite length_app; simpl. destruct HI. lia.
  - destruct HI. lia.
Qed.

Lemma C7_witness :
  ∃ a w',
    stop (at_ms 9000) None
      (run ((at_ms 1000, Start (Some "T")) :: sequence_test) (constructor (at_ms 0)))
    = (Returns a, w') ∧
    getStepCount w' = 0 ∧
    length (artifact_steps
              (run ((at_ms 10000, Start None) :: sequence_test) w') a) = 4.
Proof.
  eexists _, _.
  assert (stop (at_ms 9000) None
            (run ((at_ms 1000, Start (Some "T")) :: sequence_test)
               (constructor (at_ms 0)))
          = (Returns (artifact (at_ms 9000) None 1000
                        (run ((at_ms 1000, Start (Some "T")) :: sequence_test)
                           (constructor (at_ms 0)))),
             stopped (run ((at_ms 1000, Start (Some "T")) :: sequence_test)
                        (constructor (at_ms 0))))) as Hstop
    by (by apply stop_accepted).
  split; [exact Hstop|].
  destruct (C7_stop_resets_session_and_detaches_artifact _ _ _ _ _ _ Hstop)
    as (_ & Hcount & _ & _ & _ & _ & Hsteps & Hlater).
  split; [exact Hcount|].
  rewrite Hlater, Hsteps. reflexivity.
Defined.

End SessionProperties.

(** * Properties of the agent feed adapter *)

Module FeedProperties.
Import Types RecordingSession AgentFeedWatcher.

(** ** Blank text *)

Lemma trimStart_blank s : blank s = true → trimStart s = EmptyString.
Proof.
  induction s as [|c s IH]; simpl; [done|].
  destruct (isWhiteSpace c); [apply IH | done].
Qed.

Lemma trimStart_not_blank s : blank s = false → truthy_string (trimStart s) = true.
Proof.
  induction s as [|c s IH]; simpl; [done|].
  destruct (isWhiteSpace c); [apply IH | done].
Qed.

Lemma blank_trimStart s : blank (trimStart s) = blank s.
Proof.
  induction s as [|c s IH]; simpl; [done|].
  destruct (isWhiteSpace c) eqn:Hc; simpl; [done | by rewrite Hc].
Qed.

Lemma blank_rev_app s1 s2 : blank (String.rev_app s1 s2) = blank s1 && blank s2.
Proof.
  induction s1 as [|c s1 IH] in s2 |- *; simpl; [done|].
  rewrite IH; simpl. by destruct (isWhiteSpace c), (blank s1).
Qed.

Lemma blank_rev s : blank (String.rev s) = blank s.
Proof. unfold String.rev. rewrite blank_rev_app; simpl. apply andb_true_r. Qed.

Lemma truthy_rev_app s1 s2 :
  truthy_string (String.rev_app s1 s2) = truthy_string s1 || truthy_string s2.
Proof.
  induction s1 as [|c s1 IH] in s2 |- *; simpl; [done|].
  rewrite IH; simpl. apply orb_true_r.
Qed.

Lemma truthy_rev s : truthy_string (String.rev s) = truthy_string s.
Proof. unfold String.rev. rewrite truthy_rev_app; simpl. apply orb_false_r. Qed.

(** [s.trim()] is the empty string exactly when [s] is white space only. *)
Lemma truthy_trim s : truthy_string (trim s) = negb (blank s).
Proof.
  unfold trim. rewrite truthy_rev.
  destruct (blank s) eqn:Hs; simpl.
  - by rewrite (trimStart_blank s Hs).
  - apply trimStart_not_blank. by rewrite blank_rev, blank_trimStart.
Qed.

Lemma split_go_blank cur s :
  blank cur = true → blank s = true →
  Forall (λ line, blank line = true) (split_go cur s).
Proof.
  induction s as [|c s IH] in cur |- *; simpl; intros Hcur Hs.
  - constructor; [by rewrite blank_rev | constructor].
  - apply andb_true_iff in Hs as [Hc Hs].
    case_decide.
    + constructor; [by rewrite blank_rev | by apply IH].
    + apply IH; [|done]. simpl. by rewrite Hc.
Qed.

Lemma batch_lines_blank text : blank text = true → batch_lines text = [].
Proof.
  intros Hb. unfold batch_lines, split_newline.
  pose proof (split_go_blank EmptyString text eq_refl Hb) as Hall.
  induction Hall as [|line lines Hline _ IH]; [done|].
  rewrite filter_cons_False; [done|].
  rewrite truthy_trim, Hline. simpl. tauto.
Qed.

Section Feed.
Context {S : Type} `{SessionAPI S}.
Variable JSON_parse : string → option JSValue.

(** ** One entry *)

Lemma property_returns {W} entry k (w : W) :
  nullish entry = false → property entry k w = (Returns (get entry k), w).
Proof. by destruct entry. Qed.

Lemma property_throws {W} entry k (w : W) :
  nullish entry = true → returned (property entry k w).1 = false ∧
                        (property entry k w).2 = w.
Proof. by destruct entry. Qed.

Lemma get_nullish entry k : nullish entry = true → get entry k = JUndefined.
Proof. by destruct entry. Qed.

Lemma translate_nullish entry : nullish entry = true → translate entry = None.
Proof. by destruct entry. Qed.

Lemma translate_no_text entry :
  toString_throws (get entry "type") = true → translate entry = None.
Proof. unfold translate. by destruct (get entry "type"). Qed.

Lemma then_interpolate {W} (m : JS W unit) v (w : W) :
  toString_throws v = false → (m;; interpolate v) w = m w.
Proof.
  intros Hv. rewrite bind_run. unfold interpolate. rewrite Hv.
  by destruct (m w) as [[[]|e] w'].
Qed.

(** The entry handler makes the call [translate] names and no other. *)
Lemma addEntryToSession_translate entry (w : Watcher S) :
  nullish entry = false →
  toString_throws (get entry "type") = false →
  addEntryToSession entry w =
  match translate entry with
  | Some c => on_session c w
  | None => warn (UnknownType (get entry "type")) w
  end.
Proof.
  intros Hn Ht. unfold addEntryToSession, translate.
  rewrite bind_run, (property_returns _ _ _ Hn).
  rewrite bind_run. unfold interpolate at 1. rewrite Ht, mret_run. cbv beta iota.
  rewrite (then_interpolate _ _ _ Ht).
  repeat (destruct (strict_equals _ _);
          [repeat (rewrite bind_run, (property_returns _ _ _ Hn)); reflexivity|]).
  reflexivity.
Qed.

(** An entry whose type has no text is given up on the line that logs it. *)
Lemma addEntryToSession_no_text entry (w : Watcher S) :
  nullish entry = false →
  toString_throws (get entry "type") = true →
  addEntryToSession entry w
  = (Throws (TypeError "Cannot convert object to primitive value"), w).
Proof.
  intros Hn Ht. unfold addEntryToSession.
  rewrite bind_run, (property_returns _ _ _ Hn).
  rewrite bind_run. unfold interpolate at 1. by rewrite Ht.
Qed.

Lemma addEntryToSession_nullish entry (w : Watcher S) :
  nullish entry = true →
  returned (addEntryToSession entry w).1 = false ∧ (addEntryToSession entry w).2 = w.
Proof. by destruct entry. Qed.

(** ** One line and a batch of lines *)

Lemma invoke_all_app cs1 cs2 (s : S) :
  invoke_all (cs1 ++ cs2) s = invoke_all cs2 (invoke_all cs1 s).
Proof. unfold invoke_all. by rewrite foldl_app. Qed.

Lemma watcher_after_after (w : Watcher S) s1 d1 s2 d2 :
  watcher_after (watcher_after w s1 d1) s2 d2 = watcher_after w s2 (d1 ++ d2).
Proof. unfold watcher_after; simpl. by rewrite app_assoc. Qed.

(** Whatever a line holds and whatever the session does with the call, the
    guarded body of the loop returns normally, and the session has seen the
    call of the line if the line has one. *)
Lemma line_handled line (w : Watcher S) s :
  session w = Some s →
  ∃ d,
    try_catch (entry ← parse JSON_parse line; addEntryToSession entry)
      (λ _, warn (InvalidLine line)) w
    = (Returns tt,
       watcher_after w (invoke_all (option_list (line_call JSON_parse line)) s) d).
Proof.
  intros Hs. destruct w as [pos mt ses dg]; simpl in Hs; subst ses.
  rewrite try_catch_run, bind_run. unfold parse, line_call.
  destruct (JSON_parse line) as [entry|]; simpl; [|by eexists].
  destruct (nullish entry) eqn:Hn.
  - rewrite (translate_nullish _ Hn).
    destruct entry; try done; by eexists.
  - destruct (toString_throws (get entry "type")) eqn:Ht.
    { rewrite (addEntryToSession_no_text _ _ Hn Ht), (translate_no_text _ Ht).
      by eexists. }
    rewrite (addEntryToSession_translate _ _ Hn Ht).
    destruct (translate entry) as [c|]; simpl; [|by eexists].
    unfold on_session, watcher_after, invoke_all; simpl.
    destruct (session_invoke c s) as [[[]|e] s']; simpl.
    + exists []. by rewrite app_nil_r.
    + by eexists.
Qed.

Lemma lines_handled lines (w : Watcher S) s :
  session w = Some s →
  ∃ d,
    for_of lines (λ line,
      try_catch (entry ← parse JSON_parse line; addEntryToSession entry)
        (λ _, warn (InvalidLine line))) w
    = (Returns tt,
       watcher_after w (invoke_all (omap (line_call JSON_parse) lines) s) d).
Proof.
  induction lines as [|line lines IH] in w, s |- *; intros Hs.
  - exists []. destruct w; simpl in *; subst.
    unfold watcher_after; simpl. by rewrite app_nil_r.
  - cbn [for_of]. rewrite bind_run.
    destruct (line_handled line w s Hs) as [d1 ->].
    destruct (IH (watcher_after w
                    (invoke_all (option_list (line_call JSON_parse line)) s) d1)
                 _ eq_refl) as [d2 ->].
    exists (d1 ++ d2). rewrite watcher_after_after, <- invoke_all_app.
    do 3 f_equal. simpl. by destruct (line_call JSON_parse line).
Qed.

(** ** Well-formed lines and their calls *)

Lemma strict_equals_true v s : strict_equals v s = true ↔ v = JString s.
Proof.
  destruct v; simpl; try (split; [done | discriminate]).
  rewrite bool_decide_eq_true. split; [by intros -> | by intros [= ->]].
Qed.

Lemma translate_kind entry c :
  translate entry = Some c → get entry "type" = JString (call_kind c).
Proof.
  unfold translate.
  repeat match goal with
         | |- (if strict_equals ?v ?k then _ else _) = _ → _ =>
             let E := fresh "E" in
             destruct (strict_equals v k) eqn:E;
             [intros [= <-]; simpl; by apply strict_equals_true in E|]
         end.
  done.
Qed.

Lemma translate_recognised entry : is_Some (translate entry) ↔ recognised entry = true.
Proof.
  unfold recognised, translate, known_types.
  destruct (get entry "type") as [| | | |t| |]; simpl;
    try (split; [by intros [? ?] | done]).
  rewrite bool_decide_eq_true, !elem_of_cons, elem_of_nil.
  repeat case_bool_decide; subst; split;
    first [ by eauto | by intros [? ?] | intros ?; tauto ].
Qed.

Lemma line_call_well_formed line :
  is_Some (line_call JSON_parse line) ↔ well_formed JSON_parse line = true.
Proof.
  unfold line_call, well_formed.
  destruct (JSON_parse line) as [entry|]; simpl; [apply translate_recognised|].
  split; [by intros [? ?] | done].
Qed.

Lemma length_omap_line_call lines :
  length (omap (line_call JSON_parse) lines)
  = length (filter (λ line, well_formed JSON_parse line = true) lines).
Proof.
  induction lines as [|line lines IH]; [done|]. simpl.
  pose proof (line_call_well_formed line) as Hwf.
  destruct (line_call JSON_parse line) as [c|].
  - rewrite filter_cons_True by (apply Hwf; by eexists). simpl. f_equal. exact IH.
  - rewrite filter_cons_False; [exact IH|].
    intros Hw%Hwf. by destruct Hw.
Qed.

(** C8: when the adapter processes the text appended to the feed while the
    session is recording, it returns normally whatever the lines hold and
    whatever the session does; the session has received, in line order,
    exactly one call for each well-formed line (a line that parses and whose
    type is one of the five kinds) and none for any other line; and the call
    of a well-formed line is the mutation method its type names. *)
Theorem C8_bad_lines_skipped_batch_continues content (w : Watcher S) s :
  session w = Some s →
  session_getState s = recording →
  let lines := batch_lines (substring_from (lastPosition w) content) in
  let calls := omap (line_call JSON_parse) lines in
  (processNewLines JSON_parse (Returns content) w).1 = Returns tt ∧
  session (processNewLines JSON_parse (Returns content) w).2
  = Some (invoke_all calls s) ∧
  length calls = length (filter (λ line, well_formed JSON_parse line = true) lines) ∧
  ∀ line,
    (well_formed JSON_parse line = false → line_call JSON_parse line = None) ∧
    (well_formed JSON_parse line = true →
     ∃ entry c, JSON_parse line = Some entry ∧
                line_call JSON_parse line = Some c ∧
                get entry "type" = JString (call_kind c)).
Proof.
  intros Hs Hrec lines calls.
  assert (∃ d, processNewLines JSON_parse (Returns content) w
               = (Returns tt, set_lastPosition (String.length content)
                                (watcher_after w (invoke_all calls s) d)))
    as [d Hrun].
  { unfold processNewLines. rewrite bind_run; simpl. rewrite Hs.
    rewrite decide_False by (by intros []).
    rewrite try_catch_run, !bind_run; simpl.
    rewrite truthy_trim, negb_involutive.
    destruct (blank (substring_from (lastPosition w) content)) eqn:Hb.
    - exists []. subst calls lines. rewrite (batch_lines_blank _ Hb); simpl.
      destruct w; simpl in *; subst.
      unfold set_lastPosition, watcher_after; simpl. by rewrite app_nil_r.
    - destruct (lines_handled lines
                  (set_lastPosition (String.length content) w) s Hs) as [d Hd].
      rewrite bind_run. unfold modify.
      fold (batch_lines (substring_from (lastPosition w) content)).
      fold lines. rewrite Hd. by exists d. }
  rewrite Hrun; simpl. split; [done|]. split; [done|].
  split; [apply length_omap_line_call|].
  intros line. pose proof (line_call_well_formed line) as Hwf. split.
  - intros Hbad. destruct (line_call JSON_parse line) as [c|] eqn:Hc; [|done].
    assert (well_formed JSON_parse line = true) by (apply Hwf; by eexists).
    congruence.
  - intros [c Hc]%Hwf. unfold line_call in Hc.
    destruct (JSON_parse line) as [entry|] eqn:Hp; [|done]. simpl in Hc.
    exists entry, c. split; [done|]. split.
    + unfold line_call. by rewrite Hp.
    + by apply translate_kind.
Qed.

(** C9, amended: for an entry of type prompt the adapter makes exactly one
    call, [addPrompt]; when [raw] is truthy (present and, for a string, not
    empty) the prompt is [raw] and the intent is the entry's [content]; when
    [raw] is falsy (absent, or the empty string) the prompt is [content] and
    the intent is the entry's own [intent]; the context is the entry's
    [context] in both cases. *)
Theorem C9_prompt_entry_precedence entry (w : Watcher S) :
  get entry "type" = JString "prompt" →
  ∃ c,
    addEntryToSession entry w = on_session c w ∧
    (∀ s, session w = Some s →
          session (addEntryToSession entry w).2 = Some (session_invoke c s).2) ∧
    (truthy (get entry "raw") = true →
     c = session_addPrompt (get entry "raw") (get entry "context")
           (get entry "content")) ∧
    (truthy (get entry "raw") = false →
     c = session_addPrompt (get entry "content") (get entry "context")
           (get entry "intent")) ∧
    (has_property entry "raw" = false → truthy (get entry "raw") = false) ∧
    (∀ r, get entry "raw" = JString r →
          truthy (get entry "raw") = negb (bool_decide (r = ""))).
Proof.
  intros Ht.
  assert (nullish entry = false) as Hn by (by destruct entry).
  assert (toString_throws (get entry "type") = false) as Hlog by (by rewrite Ht).
  assert (translate entry
          = Some (session_addPrompt
                    (js_or (get entry "raw") (get entry "content"))
                    (get entry "context")
                    (js_cond (get entry "raw") (get entry "content")
                       (get entry "intent")))) as Htr
    by (unfold translate; by rewrite Ht).
  eexists. split; [by rewrite (addEntryToSession_translate _ _ Hn Hlog), Htr|].
  split.
  { intros s Hs. rewrite (addEntryToSession_translate _ _ Hn Hlog), Htr.
    unfold on_session. by rewrite Hs. }
  unfold js_or, js_cond.
  split; [by intros ->|]. split; [by intros ->|]. split.
  - destruct entry as [| | | | | |fields]; try done. simpl.
    destruct (own_property fields "raw"); [|done].
    intros Hp. by apply bool_decide_eq_false in Hp as [].
  - intros r ->. simpl. by destruct r.
Qed.

End Feed.

Lemma C8_witness :
  session sample_watcher = Some sample_spy ∧
  session_getState sample_spy = recording ∧
  (processNewLines sample_parse (Returns sample_feed) sample_watcher).1 = Returns tt ∧
  spy_calls <$>
    session (processNewLines sample_parse (Returns sample_feed) sample_watcher).2
  = Some [session_addPrompt (JString "Build a CTA component") JUndefined JUndefined;
          session_addNote (JString "User wanted hover effects") JUndefined].
Proof.
  assert (session sample_watcher = Some sample_spy) as H1 by reflexivity.
  assert (session_getState sample_spy = recording) as H2 by reflexivity.
  destruct (C8_bad_lines_skipped_batch_continues sample_parse sample_feed
              sample_watcher sample_spy H1 H2) as (Hret & Hses & _).
  split; [exact H1|]. split; [exact H2|]. split; [exact Hret|].
  rewrite Hses. vm_compute. reflexivity.
Defined.

(** Against C9 as stated: the entry has a [raw] field, the empty string, and
    the adapter passes [content] as the prompt and the entry's own [intent]
    as the intent, where the claim has [raw] as the prompt and [content] as
    the intent. *)
Lemma C9_counterexample :
  has_property entry_with_empty_raw "raw" = true ∧
  get entry_with_empty_raw "type" = JString "prompt" ∧
  spy_calls <$> session (addEntryToSession entry_with_empty_raw sample_watcher).2
  = Some [session_addPrompt (JString "Add a CTA") JUndefined (JString "feature")] ∧
  spy_calls <$> session (addEntryToSession entry_with_empty_raw sample_watcher).2
  ≠ Some [session_addPrompt (get entry_with_empty_raw "raw")
            (get entry_with_empty_raw "context")
            (get entry_with_empty_raw "content")].
Proof. repeat split; done. Qed.

Lemma C9_witness :
  get entry_with_raw "type" = JString "prompt" ∧
  ∃ c,
    addEntryToSession entry_with_raw sample_watcher = on_session c sample_watcher ∧
    c = session_addPrompt (JString "please add a call to action under the hero")
          JUndefined (JString "Add a CTA").
Proof.
  split; [reflexivity|].
  destruct (C9_prompt_entry_precedence entry_with_raw sample_watcher eq_refl)
    as (c & Hc & _ & Hraw & _).
  exists c. split; [exact Hc | exact (Hraw eq_refl)].
Defined.

End FeedProperties.

(** * The recording session over its lifetime *)

Module LifecycleProperties.
Import Types RecordingSession Lifecycle SessionProperties.

(** ** Notifications *)

Lemma fired_call env c w t0 :
  getState w = recording →
  startTime (this w) = Some t0 →
  is_stop c = false →
  fired (call env c w).2
  = fired w ++ (Step <$> accepted t0 (sequenceCounter (this w)) [(env, c)]).
Proof.
  intros Hst Ht Hc. unfold accepted; cbn [fst snd].
  destruct (payload c) as [v|] eqn:Hp.
  - rewrite (mutation_accepted _ _ _ _ Hst Hp); simpl.
    by rewrite (next_step_step_of _ _ _ _ Ht).
  - destruct (is_mutation c) eqn:Hm.
    { destruct (mutation_failed env c w Hst Hm Hp) as [e ->]; simpl.
      by rewrite app_nil_r. }
    destruct c; try done; cbn [call]; rewrite bind_run.
    + rewrite (start_rejected _ _ _ Hst); simpl. by rewrite app_nil_r.
    + simpl. by rewrite app_nil_r.
Qed.

Lemma fired_run cs w t0 :
  getState w = recording →
  startTime (this w) = Some t0 →
  steps (this w) < length (heap w) →
  Forall (λ ec, is_stop ec.2 = false) cs →
  fired (run cs w) = fired w ++ (Step <$> accepted t0 (sequenceCounter (this w)) cs).
Proof.
  intros Hst Ht Hr.
  induction cs as [|[e c] cs IH] using rev_ind; intros Hcs.
  - simpl. by rewrite app_nil_r.
  - apply Forall_app in Hcs as [Hcs Hc%Forall_inv].
    destruct (run_extends cs w t0 Hst Ht Hr Hcs) as [].
    rewrite run_app, accepted_app, fmap_app, app_assoc, <- (IH Hcs).
    rewrite <- ext_counter0. unfold run at 1; simpl.
    by apply fired_call.
Qed.

(** X1.  Over a session, the subscribers of the two emitters are told, in this
    order and nothing else: the change to recording, each step of the artifact
    in its order, the change to idle. *)
Theorem notifications_of_a_session w0 envs title cs enve outcome :
  getState w0 ≠ recording →
  Forall (λ ec, is_stop ec.2 = false) cs →
  ∃ a w3,
    stop enve outcome (run cs (start envs title w0).2) = (Returns a, w3) ∧
    fired w3 = fired w0 ++ [StateChange recording]
               ++ (Step <$> artifact_steps w3 a) ++ [StateChange idle].
Proof.
  intros Hst Hcs.
  rewrite (start_accepted _ _ _ Hst); cbn [snd].
  rewrite (session_stop w0 envs title cs enve outcome Hcs).
  eexists _, _. split; [done|].
  rewrite (session_artifact_steps w0 envs title cs enve outcome Hcs).
  simpl. rewrite (fired_run cs (started envs title w0) (Date_now envs)); try done.
  - simpl. by rewrite <- !app_assoc.
  - simpl. rewrite length_app; simpl. lia.
Qed.

Lemma notifications_of_a_session_witness :
  ∃ a w3,
    stop (at_ms 9000) None
      (run non_replicable_test (start (at_ms 1000) None fresh).2) = (Returns a, w3) ∧
    length (fired w3) = 4.
Proof.
  assert (getState fresh ≠ recording) as H1 by done.
  assert (Forall (λ ec, is_stop ec.2 = false) non_replicable_test) as H2
    by (repeat constructor).
  destruct (notifications_of_a_session fresh (at_ms 1000) None
              non_replicable_test (at_ms 9000) None H1 H2) as (a & w3 & Hs & Hf).
  exists a, w3. split; [exact Hs|].
  vm_compute in Hs. injection Hs as <- <-. reflexivity.
Defined.

(** ** Which calls fail *)

(** X2.  In every world a program reaches from the constructor the state is
    idle or recording, never paused; [start] returns exactly when the session
    is not recording and [stop] returns an artifact exactly when it is.  A
    mutation method throws only while the session is recording, and then
    exactly when it is handed a value it cannot log or iterate: [addPrompt]
    and [addNote] when the content is not a string; [addAction] when one of
    the two tracked file lists is neither absent nor an array, or when the
    summary or an element of the list of modified files has no text.
    [addTerminal], [addCheckpoint], [addError] and [setTitle] never throw. *)
Theorem which_calls_throw env0 hist env :
  let w := run hist (constructor env0) in
  getState w ≠ paused ∧
  (∀ t, returned (start env t w).1 = negb (isRecording w)) ∧
  (∀ o, returned (stop env o w).1 = isRecording w) ∧
  (∀ content options,
     returned (call env (AddPrompt content options) w).1
     = negb (isRecording w) || is_string content) ∧
  (∀ content category,
     returned (call env (AddNote content category) w).1
     = negb (isRecording w) || is_string content) ∧
  (∀ summary options,
     returned (call env (AddAction summary options) w).1
     = negb (isRecording w)
       || absent_or_array (optional ao_filesCreated options)
          && absent_or_array (optional ao_filesModified options)
          && negb (toString_throws (optional ao_filesModified options))
          && negb (toString_throws summary)) ∧
  (∀ command outcome options,
     returned (call env (AddTerminal command outcome options) w).1 = true) ∧
  (∀ name summary, returned (call env (AddCheckpoint name summary) w).1 = true) ∧
  (∀ message resolved resolution,
     returned (call env (AddError message resolved resolution) w).1 = true) ∧
  (∀ t, returned (call env (SetTitle t) w).1 = true).
Proof.
  intros w. pose proof (Inv_reachable env0 hist) as HI. fold w in HI.
  split; [apply HI|].
  assert (∀ v : option StepVariant,
            bool_decide (is_Some v) = match v with Some _ => true | None => false end)
    as Hsome.
  { intros [v|]; [apply bool_decide_eq_true; by eexists|].
    apply bool_decide_eq_false. by intros [? ?]. }
  assert ((∀ t, returned (start env t w).1 = negb (isRecording w)) ∧
          (∀ o, returned (stop env o w).1 = isRecording w)) as [Hstart Hstop].
  { unfold isRecording.
    destruct (decide (getState w = recording)) as [Hst|Hst].
    - rewrite (bool_decide_eq_true_2 _ Hst).
      destruct (inv_startTime _ HI Hst) as [t0 Ht].
      split; [intros t; by rewrite (start_rejected _ _ _ Hst)|].
      intros o; by rewrite (stop_accepted _ _ _ _ Hst Ht).
    - rewrite (bool_decide_eq_false_2 _ Hst).
      split; [intros t; by rewrite (start_accepted _ _ _ Hst)|].
      intros o; by rewrite (stop_rejected _ _ _ Hst). }
  split; [exact Hstart|]. split; [exact Hstop|].
  split; [intros content options; rewrite call_returns by done;
          unfold appends; rewrite Hsome; simpl; by destruct (is_string content)|].
  split; [intros content category; rewrite call_returns by done;
          unfold appends; rewrite Hsome; simpl; by destruct (is_string content)|].
  split; [intros summary options; rewrite call_returns by done;
          unfold appends; rewrite Hsome; simpl; by destruct (_ && _)|].
  split; [intros command outcome options; rewrite call_returns by done;
          unfold appends; rewrite Hsome; simpl; apply orb_true_r|].
  split; [intros name summary; rewrite call_returns by done;
          unfold appends; rewrite Hsome; simpl; apply orb_true_r|].
  split; [intros message resolved resolution; rewrite call_returns by done;
          unfold appends; rewrite Hsome; simpl; apply orb_true_r|].
  done.
Qed.

(** ** Statistics *)

Lemma type_partition (l : list BuildlogStep) :
  length l = length (of_type prompt l) + length (of_type action l)
             + length (of_type note l) + length (other_steps l).
Proof.
  unfold of_type, other_steps.
  induction l as [|s l IH]; [done|].
  rewrite !filter_cons. simpl.
  destruct (step_type s) eqn:Hs; repeat case_decide; simpl;
    first [lia | exfalso; intuition congruence].
Qed.

(** X3.  The four counts of [getStats] account for every step exactly once:
    prompts, actions, notes, and as others the terminal, checkpoint and error
    steps; in particular [others] is never negative. *)
Theorem stats_account_for_every_step w :
  totalSteps (getStats w)
  = prompts (getStats w) + actions (getStats w) + notes (getStats w)
    + length (other_steps (current_steps w)) ∧
  others (getStats w) = Z.of_nat (length (other_steps (current_steps w))) ∧
  totalSteps (getStats w) = getStepCount w ∧
  prompts (getStats w) = getPromptCount w.
Proof.
  unfold getStats, getStepCount, getPromptCount; simpl.
  pose proof (type_partition (current_steps w)) as Hp.
  repeat split; [done | lia].
Qed.

Lemma existsb_is_prompt_of_type (l : list BuildlogStep) :
  existsb is_prompt l = true ↔ 0 < length (of_type prompt l).
Proof.
  unfold of_type, is_prompt.
  induction l as [|s l IH]; simpl; [split; [done | lia]|].
  rewrite filter_cons, orb_true_iff, IH, bool_decide_eq_true.
  case_decide; simpl; [split; [lia | tauto]|].
  split; [intros [?|?]; [done | lia] | tauto].
Qed.

(** X4.  What the statistics of a recording session show is what [stop] then
    puts in the artifact: as many steps, a replicable artifact exactly when
    the prompt count is positive, and the same two file counts. *)
Theorem stats_agree_with_the_artifact env0 hist env o a w' :
  stop env o (run hist (constructor env0)) = (Returns a, w') →
  let st := getStats (run hist (constructor env0)) in
  length (artifact_steps w' a) = totalSteps st ∧
  (md_replicable (bf_metadata a) = true ↔ 0 < prompts st) ∧
  (oc_canReplicate (bf_outcome a) = true ↔ 0 < prompts st) ∧
  oc_filesCreated (bf_outcome a) = stat_filesCreated st ∧
  oc_filesModified (bf_outcome a) = stat_filesModified st.
Proof.
  intros (t & Hst & Ht & -> & ->)%stop_returns.
  pose proof (Inv_reachable env0 hist) as HI.
  rewrite artifact_steps_stopped by apply HI.
  simpl. by rewrite !existsb_is_prompt_of_type.
Qed.

Lemma stats_agree_with_the_artifact_witness :
  ∃ a w',
    stop (at_ms 9000) None
      (run ((at_ms 1000, Start None) :: sequence_test) (constructor (at_ms 0)))
    = (Returns a, w') ∧
    length (artifact_steps w' a) = 4.
Proof.
  eexists _, _.
  assert (stop (at_ms 9000) None
            (run ((at_ms 1000, Start None) :: sequence_test) (constructor (at_ms 0)))
          = (Returns (artifact (at_ms 9000) None 1000
                        (run ((at_ms 1000, Start None) :: sequence_test)
                           (constructor (at_ms 0)))),
             stopped (run ((at_ms 1000, Start None) :: sequence_test)
                        (constructor (at_ms 0))))) as Hstop
    by (by apply stop_accepted).
  split; [exact Hstop|].
  destruct (stats_agree_with_the_artifact _ _ _ _ _ _ Hstop) as (Hlen & _).
  rewrite Hlen. reflexivity.
Defined.

(** ** Metadata *)

Lemma title_call env c w :
  getState w = recording →
  is_stop c = false →
  title (this (call env c w).2) = title_after (title (this w)) [(env, c)].
Proof.
  intros Hst Hc. unfold title_after; simpl.
  destruct (payload c) as [v|] eqn:Hp.
  - rewrite (mutation_accepted _ _ _ _ Hst Hp); simpl. by destruct c.
  - destruct (is_mutation c) eqn:Hm.
    { destruct (mutation_failed env c w Hst Hm Hp) as [e ->]; simpl.
      by destruct c. }
    destruct c; try done; cbn [call]; rewrite bind_run.
    by rewrite (start_rejected _ _ _ Hst).
Qed.

Lemma title_run cs w t0 :
  getState w = recording →
  startTime (this w) = Some t0 →
  steps (this w) < length (heap w) →
  Forall (λ ec, is_stop ec.2 = false) cs →
  title (this (run cs w)) = title_after (title (this w)) cs.
Proof.
  intros Hst Ht Hr.
  induction cs as [|[e c] cs IH] using rev_ind; intros Hcs; [done|].
  apply Forall_app in Hcs as [Hcs Hc%Forall_inv].
  destruct (run_extends cs w t0 Hst Ht Hr Hcs) as [].
  rewrite run_app. unfold title_after. rewrite foldl_app.
  fold (title_after (title (this w)) cs). rewrite <- (IH Hcs).
  unfold run at 1; simpl. by apply title_call.
Qed.

(** X5.  The metadata of a session's artifact: the identifier drawn by
    [start], the instant of [start], the rounded seconds from [start] to
    [stop], the editor detected at [stop], and as title the argument of the
    last [setTitle] since [start] if there is one, else the title given to
    [start], which is replaced by 'Workflow ' and the date when it is omitted
    or empty. *)
Theorem metadata_of_a_session w0 envs title cs enve outcome :
  getState w0 ≠ recording →
  Forall (λ ec, is_stop ec.2 = false) cs →
  ∃ a, (stop enve outcome (run cs (start envs title w0).2)).1 = Returns a ∧
    md_id (bf_metadata a) = uuidv4 envs ∧
    md_createdAt (bf_metadata a) = Date_now envs ∧
    md_durationSeconds (bf_metadata a)
    = round_seconds (Date_now enve - Date_now envs) ∧
    md_editor (bf_metadata a) = detectEditor enve ∧
    md_title (bf_metadata a) = title_after (start_title envs title) cs ∧
    (title = None ∨ title = Some "" →
     start_title envs title = "Workflow " +:+ toLocaleDateString envs) ∧
    bf_version a = "2.0.0" ∧ bf_format a = slim.
Proof.
  intros Hst Hcs.
  rewrite (start_accepted _ _ _ Hst); cbn [snd].
  rewrite (session_stop w0 envs title cs enve outcome Hcs); cbn [fst].
  eexists; split; [done|].
  destruct (session_extends w0 envs title cs Hcs) as [].
  simpl. rewrite ext_sessionId0; simpl.
  rewrite (title_run cs (started envs title w0) (Date_now envs)); try done.
  - repeat split; try done. by intros [-> | ->].
  - simpl. rewrite length_app; simpl. lia.
Qed.

Lemma metadata_of_a_session_witness :
  ∃ a,
    (stop (at_ms 9400) None
       (run ((at_ms 1500, SetTitle "Counter") :: sequence_test)
          (start (at_ms 1000) (Some "") fresh).2)).1 = Returns a ∧
    md_title (bf_metadata a) = "Counter" ∧
    md_durationSeconds (bf_metadata a) = 8%Z.
Proof.
  assert (getState fresh ≠ recording) as H1 by done.
  assert (Forall (λ ec, is_stop ec.2 = false)
            ((at_ms 1500, SetTitle "Counter") :: sequence_test)) as H2
    by (repeat constructor).
  destruct (metadata_of_a_session fresh (at_ms 1000) (Some "")
              ((at_ms 1500, SetTitle "Counter") :: sequence_test)
              (at_ms 9400) None H1 H2)
    as (a & Ha & _ & _ & Hd & _ & Ht & _).
  exists a. split; [exact Ha|]. split; [exact Ht | exact Hd].
Defined.

(** ** Elapsed time *)

Lemma round_seconds_mono a b : (a ≤ b)%Z → (round_seconds a ≤ round_seconds b)%Z.
Proof. intros Hab. unfold round_seconds. apply Z.div_le_mono; lia. Qed.

Lemma ascending_from_weaken lo lo' l :
  (lo ≤ lo')%Z → ascending_from lo' l → ascending_from lo l.
Proof. destruct l as [|x l]; simpl; [done|]. intros ? [? ?]. split; [lia | done]. Qed.

Lemma accepted_ascending t0 t n cs :
  (t0 ≤ t)%Z →
  clock_monotone t cs →
  ascending_from (round_seconds (t - t0)) (step_timestamp <$> accepted t0 n cs).
Proof.
  induction cs as [|[e c] cs IH] in t, n |- *; simpl; [done|].
  intros Ht [Hte Hcs].
  assert (round_seconds (t - t0) ≤ round_seconds (Date_now e - t0))%Z as Hle
    by (apply round_seconds_mono; lia).
  destruct (payload c); simpl.
  - split; [done|]. apply IH; [lia | done].
  - eapply ascending_from_weaken; [exact Hle|]. apply IH; [lia | done].
Qed.

(** X6.  When the clock does not run backwards between [start] and the calls
    that follow it, the elapsed seconds stamped on the steps of the artifact
    are never negative and never decrease along the step list. *)
Theorem timestamps_never_decrease w0 envs title cs enve outcome :
  getState w0 ≠ recording →
  Forall (λ ec, is_stop ec.2 = false) cs →
  clock_monotone (Date_now envs) cs →
  ∃ a w3,
    stop enve outcome (run cs (start envs title w0).2) = (Returns a, w3) ∧
    ascending_from 0 (step_timestamp <$> artifact_steps w3 a).
Proof.
  intros Hst Hcs Hclock.
  rewrite (start_accepted _ _ _ Hst); cbn [snd].
  rewrite (session_stop w0 envs title cs enve outcome Hcs).
  eexists _, _. split; [done|].
  rewrite (session_artifact_steps w0 envs title cs enve outcome Hcs).
  pose proof (accepted_ascending (Date_now envs) (Date_now envs) 0 cs
                (Z.le_refl _) Hclock) as Hasc.
  by rewrite Z.sub_diag in Hasc.
Qed.

Lemma timestamps_never_decrease_witness :
  ∃ a w3,
    stop (at_ms 9000) None
      (run sequence_test (start (at_ms 1000) None fresh).2) = (Returns a, w3) ∧
    step_timestamp <$> artifact_steps w3 a = [1; 2; 3; 4]%Z.
Proof.
  assert (getState fresh ≠ recording) as H1 by done.
  assert (Forall (λ ec, is_stop ec.2 = false) sequence_test) as H2
    by (repeat constructor).
  assert (clock_monotone (Date_now (at_ms 1000)) sequence_test) as H3
    by (simpl; lia).
  destruct (timestamps_never_decrease fresh (at_ms 1000) None sequence_test
              (at_ms 9000) None H1 H2 H3) as (a & w3 & Hs & _).
  exists a, w3. split; [exact Hs|].
  vm_compute in Hs. injection Hs as <- <-. reflexivity.
Defined.

(** ** At rest *)

Lemma at_rest_constructor env : at_rest (constructor env).
Proof. by split. Qed.

Lemma at_rest_stopped w : at_rest (stopped w).
Proof.
  split; try done.
  unfold current_steps, array_at; simpl. by rewrite lookup_app_r, Nat.sub_diag.
Qed.

Lemma at_rest_call env c w :
  Inv w →
  (getState w ≠ recording → at_rest w) →
  getState (call env c w).2 ≠ recording → at_rest (call env c w).2.
Proof.
  intros HI Hrest.
  destruct (decide (getState w = recording)) as [Hst|Hst].
  - destruct (payload c) as [v|] eqn:Hp.
    { rewrite (mutation_accepted _ _ _ _ Hst Hp). unfold getState; simpl.
      intros []. apply Hst. }
    destruct (is_mutation c) eqn:Hm.
    { destruct (mutation_failed env c w Hst Hm Hp) as [e ->].
      unfold getState; simpl. intros []. apply Hst. }
    destruct c; try done; cbn [call]; rewrite bind_run.
    + rewrite (start_rejected _ _ _ Hst); simpl. by intros [].
    + destruct (inv_startTime _ HI Hst) as [t0 Ht].
      rewrite (stop_accepted _ _ _ _ Hst Ht); simpl. intros _. apply at_rest_stopped.
  - specialize (Hrest Hst).
    destruct (is_mutation c) eqn:Hm.
    { by rewrite mutation_dropped. }
    destruct c; try done; cbn [call]; rewrite bind_run.
    + rewrite (start_accepted _ _ _ Hst); simpl. by intros [].
    + by rewrite (stop_rejected _ _ _ Hst).
    + simpl. intros _. destruct Hrest. by split.
Qed.

Lemma at_rest_run cs w :
  Inv w →
  (getState w ≠ recording → at_rest w) →
  getState (run cs w) ≠ recording → at_rest (run cs w).
Proof.
  induction cs as [|[e c] cs IH] in w |- *; [done|].
  intros HI Hrest. apply IH; [by apply Inv_call | by apply at_rest_call].
Qed.

(** X7.  Whenever a session reached from the constructor is not recording,
    after whatever accepted, rejected and dropped calls, it holds no step, no
    file path and no start time: the step and prompt counts, the duration and
    every statistic are zero. *)
Theorem a_session_at_rest_holds_nothing env0 hist env :
  let w := run hist (constructor env0) in
  getState w ≠ recording →
  getState w = idle ∧
  getStepCount w = 0 ∧
  getPromptCount w = 0 ∧
  getDuration env w = 0%Z ∧
  getStats w = {| totalSteps := 0; prompts := 0; actions := 0; notes := 0;
                  others := 0; stat_filesCreated := 0; stat_filesModified := 0 |}.
Proof.
  intros w Hst.
  assert (at_rest w) as [Hl Hn Ht Hc Hm].
  { apply at_rest_run; [apply Inv_constructor | | done].
    intros _. apply at_rest_constructor. }
  pose proof (inv_state _ (Inv_reachable env0 hist)) as Hp. fold w in Hp.
  split; [by destruct (getState w)|].
  unfold getStepCount, getPromptCount, getDuration, getStats.
  by rewrite Hl, Ht, Hc, Hm.
Qed.

Lemma a_session_at_rest_holds_nothing_witness :
  getStepCount
    (run [(at_ms 100, AddPrompt "This should be ignored" None);
          (at_ms 200, Stop None); (at_ms 300, SetTitle "Later")]
       (constructor (at_ms 0))) = 0.
Proof.
  assert (getState
            (run [(at_ms 100, AddPrompt "This should be ignored" None);
                  (at_ms 200, Stop None); (at_ms 300, SetTitle "Later")]
               (constructor (at_ms 0))) ≠ recording) as H1 by done.
  exact (proj1 (proj2 (a_session_at_rest_holds_nothing (at_ms 0)
                         [(at_ms 100, AddPrompt "This should be ignored" None);
                          (at_ms 200, Stop None); (at_ms 300, SetTitle "Later")]
                         (at_ms 400) H1))).
Defined.

End LifecycleProperties.

(** * Polling the feed *)

Module FeedPollingProperties.
Import RecordingSession AgentFeedWatcher FeedPolling FeedProperties.

Section Polling.
Context {S : Type} `{SessionAPI S}.
Variable JSON_parse : string → option JSValue.

(** ** The world a poll leaves *)

Lemma line_run line (w : Watcher S) s :
  session w = Some s →
  try_catch (entry ← parse JSON_parse line; addEntryToSession entry)
    (λ _, warn (InvalidLine line)) w
  = (Returns tt,
     watcher_after w (invoke_all (option_list (line_call JSON_parse line)) s)
       (line_diagnostics JSON_parse line s)).
Proof.
  intros Hs. destruct w as [pos mt ses dg]; simpl in Hs; subst ses.
  rewrite try_catch_run, bind_run. unfold parse, line_call, line_diagnostics.
  destruct (JSON_parse line) as [entry|]; simpl; [|done].
  destruct (nullish entry) eqn:Hn.
  - rewrite (translate_nullish _ Hn). by destruct entry.
  - destruct (toString_throws (get entry "type")) eqn:Ht; simpl.
    { by rewrite (addEntryToSession_no_text _ _ Hn Ht), (translate_no_text _ Ht). }
    rewrite (addEntryToSession_translate _ _ Hn Ht).
    destruct (translate entry) as [c|]; simpl; [|done].
    unfold on_session, watcher_after, invoke_all; simpl.
    destruct (session_invoke c s) as [[[]|e] s']; simpl; [|done].
    by rewrite app_nil_r.
Qed.

Lemma lines_run lines (w : Watcher S) s :
  session w = Some s →
  for_of lines (λ line,
    try_catch (entry ← parse JSON_parse line; addEntryToSession entry)
      (λ _, warn (InvalidLine line))) w
  = (Returns tt,
     watcher_after w (invoke_all (omap (line_call JSON_parse) lines) s)
       (batch_diagnostics JSON_parse lines s)).
Proof.
  induction lines as [|line lines IH] in w, s |- *; intros Hs.
  - destruct w; simpl in *; subst. unfold watcher_after; simpl.
    by rewrite app_nil_r.
  - cbn [for_of]. rewrite bind_run, (line_run line w s Hs).
    rewrite (IH (watcher_after w
                   (invoke_all (option_list (line_call JSON_parse line)) s)
                   (line_diagnostics JSON_parse line s))
               (invoke_all (option_list (line_call JSON_parse line)) s) eq_refl).
    rewrite watcher_after_after, <- invoke_all_app.
    do 3 f_equal. simpl. by destruct (line_call JSON_parse line).
Qed.

(** The whole effect of a poll that reads [content] while the session is
    recording. *)
Lemma poll_run content (w : Watcher S) s :
  session w = Some s →
  session_getState s = recording →
  let lines := batch_lines (substring_from (lastPosition w) content) in
  processNewLines JSON_parse (Returns content) w
  = (Returns tt,
     {| lastPosition := String.length content;
        lastMtime := lastMtime w;
        session := Some (invoke_all (omap (line_call JSON_parse) lines) s);
        diagnostics := diagnostics w ++ batch_diagnostics JSON_parse lines s |}).
Proof.
  intros Hs Hrec lines.
  unfold processNewLines. rewrite bind_run; simpl. rewrite Hs.
  rewrite decide_False by (by intros []).
  rewrite try_catch_run, !bind_run; simpl.
  rewrite truthy_trim, negb_involutive.
  destruct (blank (substring_from (lastPosition w) content)) eqn:Hb.
  - subst lines. rewrite (batch_lines_blank _ Hb); simpl.
    destruct w; simpl in *; subst.
    unfold set_lastPosition; simpl. by rewrite app_nil_r.
  - rewrite bind_run. unfold modify.
    fold (batch_lines (substring_from (lastPosition w) content)). fold lines.
    by rewrite (lines_run lines (set_lastPosition (String.length content) w) s Hs).
Qed.

Lemma poll_idle file (w : Watcher S) :
  (∀ s, session w = Some s → session_getState s ≠ recording) →
  processNewLines JSON_parse file w = (Returns tt, w).
Proof.
  intros Hidle. unfold processNewLines. rewrite bind_run; simpl.
  destruct (session w) as [s|] eqn:Hs; [|reflexivity].
  rewrite decide_True by (by apply Hidle). reflexivity.
Qed.

Lemma poll_unreadable e (w : Watcher S) s :
  session w = Some s →
  session_getState s = recording →
  processNewLines JSON_parse (Throws e) w
  = (Returns tt,
     {| lastPosition := lastPosition w; lastMtime := lastMtime w;
        session := session w; diagnostics := diagnostics w ++ [ReadError e] |}).
Proof.
  intros Hs Hrec. unfold processNewLines. rewrite bind_run; simpl. rewrite Hs.
  rewrite decide_False by (by intros []).
  rewrite try_catch_run, bind_run. unfold warn. by rewrite Hs.
Qed.

(** ** What a poll never does *)

(** X8.  A poll never throws: not for want of a session, not when the feed
    cannot be read, not on any line, not when the session throws.  Outside a
    recording it leaves the watcher as it is, the cursor included, so nothing
    of the feed is consumed; when the feed cannot be read it only notes the
    error. *)
Theorem a_poll_never_throws file (w : Watcher S) :
  (processNewLines JSON_parse file w).1 = Returns tt ∧
  ((∀ s, session w = Some s → session_getState s ≠ recording) →
   (processNewLines JSON_parse file w).2 = w) ∧
  (∀ e, file = Throws e →
        lastPosition (processNewLines JSON_parse file w).2 = lastPosition w ∧
        session (processNewLines JSON_parse file w).2 = session w).
Proof.
  destruct (session w) as [s|] eqn:Hs.
  - destruct (decide (session_getState s = recording)) as [Hrec|Hrec].
    + destruct file as [content|e].
      * rewrite (poll_run content w s Hs Hrec). split; [done|]. split; [|done].
        intros Hidle. by destruct (Hidle s eq_refl).
      * rewrite (poll_unreadable e w s Hs Hrec). split; [done|]. split; [|done].
        intros Hidle. by destruct (Hidle s eq_refl).
    + rewrite poll_idle; [done|].
      intros s' Hs'. rewrite Hs in Hs'. by injection Hs' as <-.
  - rewrite poll_idle; [done|]. intros s' Hs'. by rewrite Hs in Hs'.
Qed.

(** ** Diagnostics *)

Lemma line_diagnostics_cases line (s : S) :
  length (line_diagnostics JSON_parse line s) ≤ 1 ∧
  (line_diagnostics JSON_parse line s = [] ↔
   ∃ c, line_call JSON_parse line = Some c ∧ returned (session_invoke c s).1 = true).
Proof.
  unfold line_diagnostics, line_call.
  destruct (JSON_parse line) as [entry|]; simpl.
  - destruct (nullish entry) eqn:Hn.
    + rewrite (translate_nullish _ Hn). simpl. split; [done|].
      split; [done | by intros (c & ? & ?)].
    + destruct (toString_throws (get entry "type")) eqn:Ht; simpl.
      { rewrite (translate_no_text _ Ht). split; [done|].
        split; [done | by intros (c & ? & ?)]. }
      destruct (translate entry) as [c|]; simpl.
      * destruct (returned (session_invoke c s).1) eqn:Hr; simpl.
        -- split; [lia|]. split; [by eauto | done].
        -- split; [done|]. split; [done|]. intros (c' & [= <-] & Hr'). congruence.
      * split; [done|]. split; [done | by intros (c & ? & ?)].
  - split; [done|]. split; [done | by intros (c & ? & ?)].
Qed.

(** X9.  After a poll the diagnostics are those from before followed by those
    of the lines, in line order; a line leaves at most one, and leaves none
    exactly when it has a call and the session returned from it normally.  A
    line whose call made the session throw is thus reported as an invalid
    line, and so is a line whose type cannot be put into the text of the
    log, an object with a [toString] property for one; a line of any other
    type that is not one of the five kinds is reported as of unknown type. *)
Theorem every_skipped_line_is_reported content (w : Watcher S) s :
  session w = Some s →
  session_getState s = recording →
  diagnostics (processNewLines JSON_parse (Returns content) w).2
  = diagnostics w
    ++ batch_diagnostics JSON_parse
         (batch_lines (substring_from (lastPosition w) content)) s ∧
  ∀ line s',
    length (line_diagnostics JSON_parse line s') ≤ 1 ∧
    (line_diagnostics JSON_parse line s' = [] ↔
     ∃ c, line_call JSON_parse line = Some c ∧
          returned (session_invoke c s').1 = true) ∧
    (∀ c, line_call JSON_parse line = Some c →
          returned (session_invoke c s').1 = false →
          line_diagnostics JSON_parse line s' = [InvalidLine line]) ∧
    (∀ entry, JSON_parse line = Some entry →
          toString_throws (get entry "type") = true →
          line_diagnostics JSON_parse line s' = [InvalidLine line]) ∧
    (∀ entry, JSON_parse line = Some entry →
          nullish entry = false →
          toString_throws (get entry "type") = false →
          recognised entry = false →
          line_diagnostics JSON_parse line s' = [UnknownType (get entry "type")]).
Proof.
  intros Hs Hrec. rewrite (poll_run content w s Hs Hrec). split; [done|].
  intros line s'. destruct (line_diagnostics_cases line s') as [Hlen Hnil].
  split; [done|]. split; [done|]. split; [|split].
  - intros c Hc Hr. unfold line_diagnostics. unfold line_call in Hc.
    destruct (JSON_parse line) as [entry|]; [|done]. simpl in Hc.
    destruct (nullish entry) eqn:Hn; [by rewrite (translate_nullish _ Hn) in Hc|].
    destruct (toString_throws (get entry "type")) eqn:Ht;
      [by rewrite (translate_no_text _ Ht) in Hc|].
    simpl. by rewrite Hc, Hr.
  - intros entry He Ht. unfold line_diagnostics. rewrite He, Ht.
    by rewrite orb_true_r.
  - intros entry He Hn Ht Hrecog. unfold line_diagnostics. rewrite He, Hn, Ht.
    simpl. destruct (translate entry) as [c|] eqn:Hc; [|done].
    assert (is_Some (translate entry)) as Hsome by (by eexists).
    apply (translate_recognised JSON_parse) in Hsome. congruence.
Qed.

(** ** The cursor *)

Lemma app_cons c a b : String c a +:+ b = String c (a +:+ b).
Proof. reflexivity. Qed.

Lemma app_empty a : EmptyString +:+ a = a.
Proof. reflexivity. Qed.

Lemma app_assoc_string a b c : (a +:+ b) +:+ c = a +:+ b +:+ c.
Proof. induction a as [|x a IH]; [done|]. by rewrite !app_cons, IH. Qed.

Lemma length_app_string a b :
  String.length (a +:+ b) = String.length a + String.length b.
Proof. induction a as [|x a IH]; [done|]. rewrite app_cons; simpl. by rewrite IH. Qed.

Lemma substring_from_app p a b :
  p ≤ String.length a → substring_from p (a +:+ b) = substring_from p a +:+ b.
Proof.
  induction a as [|x a IH] in p |- *; simpl; intros Hp.
  - by replace p with 0 by lia.
  - destruct p as [|p]; [done|]. rewrite app_cons; simpl. apply IH. lia.
Qed.

Lemma substring_from_length a : substring_from (String.length a) a = EmptyString.
Proof. induction a as [|x a IH]; [done|]. simpl. apply IH. Qed.

Lemma substring_from_length_app a b : substring_from (String.length a) (a +:+ b) = b.
Proof. by rewrite substring_from_app, substring_from_length. Qed.




(** X10.  A poll leaves the cursor at the end of what it read.  While the
    session is still recording, reading the same content again changes
    nothing, and reading the content with more text appended hands the session
    the calls of the lines of the appended text, and of no earlier line. *)
Theorem a_poll_reads_only_what_was_appended content (w : Watcher S) s :
  session w = Some s →
  session_getState s = recording →
  let w1 := (processNewLines JSON_parse (Returns content) w).2 in
  lastPosition w1 = String.length content ∧
  ∀ s1, session w1 = Some s1 → session_getState s1 = recording →
    processNewLines JSON_parse (Returns content) w1 = (Returns tt, w1) ∧
    ∀ more,
      session (processNewLines JSON_parse (Returns (content +:+ more)) w1).2
      = Some (invoke_all (omap (line_call JSON_parse) (batch_lines more)) s1) ∧
      lastPosition (processNewLines JSON_parse (Returns (content +:+ more)) w1).2
      = String.length content + String.length more.
Proof.
  intros Hs Hrec w1. subst w1. rewrite (poll_run content w s Hs Hrec); cbn [snd].
  split; [done|]. intros s1 Hs1 Hrec1.
  rewrite (poll_run content _ s1 Hs1 Hrec1); cbn [lastPosition].
  rewrite substring_from_length. split.
  - simpl in *. rewrite app_nil_r. by rewrite Hs1.
  - intros more. rewrite (poll_run (content +:+ more) _ s1 Hs1 Hrec1); simpl.
    by rewrite substring_from_length_app, length_app_string.
Qed.


(** ** Action entries *)

(** X12.  An entry of type action becomes exactly one [addAction] call whose
    summary is never falsy: the entry's [summary] when that is truthy, else
    its [content] when that is truthy, else the text 'Action performed'.  The
    four remaining arguments are the entry's fields as they are. *)
Theorem action_entries_always_carry_a_summary entry (w : Watcher S) :
  get entry "type" = JString "action" →
  ∃ summary,
    addEntryToSession entry w
    = on_session (session_addAction summary (get entry "filesCreated")
                    (get entry "filesModified") (get entry "filesDeleted")
                    (get entry "approach")) w ∧
    truthy summary = true ∧
    (truthy (get entry "summary") = true → summary = get entry "summary") ∧
    (truthy (get entry "summary") = false → truthy (get entry "content") = true →
     summary = get entry "content") ∧
    (truthy (get entry "summary") = false → truthy (get entry "content") = false →
     summary = JString "Action performed").
Proof.
  intros Ht.
  assert (nullish entry = false) as Hn by (by destruct entry).
  exists (js_or (js_or (get entry "summary") (get entry "content"))
            (JString "Action performed")).
  split.
  { rewrite (addEntryToSession_translate _ _ Hn) by (by rewrite Ht).
    unfold translate. by rewrite Ht. }
  unfold js_or.
  destruct (truthy (get entry "summary")) eqn:Hs;
    destruct (truthy (get entry "content")) eqn:Hc; rewrite ?Hs, ?Hc; simpl; done.
Qed.

(** ** Modification times *)

Lemma poll_lastMtime file (w : Watcher S) :
  lastMtime (processNewLines JSON_parse file w).2 = lastMtime w.
Proof.
  destruct (session w) as [s|] eqn:Hs.
  - destruct (decide (session_getState s = recording)) as [Hrec|Hrec].
    + destruct file as [content|e].
      * by rewrite (poll_run content w s Hs Hrec).
      * by rewrite (poll_unreadable e w s Hs Hrec).
    + rewrite poll_idle; [done|].
      intros s' Hs'. rewrite Hs in Hs'. by injection Hs' as <-.
  - rewrite poll_idle; [done|]. intros s' Hs'. by rewrite Hs in Hs'.
Qed.

Lemma check_stale m file (w : Watcher S) :
  (m ≤ lastMtime w)%Z →
  checkForChanges JSON_parse (Returns m) file w = (Returns tt, w).
Proof.
  intros Hm. unfold checkForChanges. rewrite try_catch_run, !bind_run. simpl.
  by rewrite decide_False by lia.
Qed.

Lemma check_fresh m file (w : Watcher S) :
  (lastMtime w < m)%Z →
  checkForChanges JSON_parse (Returns m) file w
  = (Returns tt, (processNewLines JSON_parse file (set_lastMtime m w)).2).
Proof.
  intros Hm. unfold checkForChanges. rewrite try_catch_run, !bind_run. simpl.
  rewrite decide_True by lia. rewrite bind_run. unfold modify.
  destruct (a_poll_never_throws file (set_lastMtime m w)) as [Hret _].
  destruct (processNewLines JSON_parse file (set_lastMtime m w)) as [c w'].
  simpl in *. by subst.
Qed.

(** X13.  The timer's check never throws, a failing [statSync] included.  It
    polls only when the modification time is later than the last one it saw,
    and then remembers it: a check that sees the same or an earlier time
    leaves the watcher as it is.  A later time seen while the session is not
    recording is remembered all the same, without anything being read. *)
Theorem a_modification_time_is_acted_on_once stat file (w : Watcher S) :
  (checkForChanges JSON_parse stat file w).1 = Returns tt ∧
  (∀ e, stat = Throws e → (checkForChanges JSON_parse stat file w).2 = w) ∧
  (∀ m, stat = Returns m → (m ≤ lastMtime w)%Z →
        (checkForChanges JSON_parse stat file w).2 = w) ∧
  (∀ m, stat = Returns m → (lastMtime w < m)%Z →
        let w' := (checkForChanges JSON_parse stat file w).2 in
        w' = (processNewLines JSON_parse file (set_lastMtime m w)).2 ∧
        lastMtime w' = m ∧
        (∀ file', checkForChanges JSON_parse stat file' w' = (Returns tt, w')) ∧
        ((∀ s, session w = Some s → session_getState s ≠ recording) →
         w' = set_lastMtime m w)).
Proof.
  destruct stat as [m|e].
  - destruct (decide (lastMtime w < m)%Z) as [Hm|Hm].
    + rewrite (check_fresh m file w Hm). split; [done|]. split; [done|].
      split; [intros m' [= <-]; lia|].
      intros m' [= <-] _. cbn [snd]. split; [done|].
      rewrite poll_lastMtime. split; [done|]. split.
      * intros file'. apply check_stale. rewrite poll_lastMtime. simpl. lia.
      * intros Hidle. by rewrite poll_idle.
    + rewrite (check_stale m file w) by lia. split; [done|]. split; [done|].
      split; [done|]. intros m' [= <-]. lia.
  - split; [done|]. split; [done|]. split; [done|]. done.
Qed.

End Polling.

(** ** On the sample feed *)

Lemma every_skipped_line_is_reported_witness :
  diagnostics (processNewLines sample_parse (Returns sample_feed) sample_watcher).2
  = [InvalidLine line_truncated; InvalidLine "null";
     UnknownType (JString "response"); InvalidLine line_note] ∧
  line_diagnostics sample_parse line_object_type sample_spy
  = [InvalidLine line_object_type].
Proof.
  assert (session sample_watcher = Some sample_spy) as H1 by reflexivity.
  assert (session_getState sample_spy = recording) as H2 by reflexivity.
  destruct (every_skipped_line_is_reported sample_parse sample_feed
              sample_watcher sample_spy H1 H2) as [Hd Hline].
  split; [rewrite Hd; vm_compute; reflexivity|].
  destruct (Hline line_object_type sample_spy) as (_ & _ & _ & Hobject & _).
  exact (Hobject (JObject [("type", JObject [("toString", JNull)])])
           eq_refl eq_refl).
Defined.

Lemma a_poll_reads_only_what_was_appended_witness :
  lastPosition (processNewLines sample_parse (Returns sample_feed) sample_watcher).2
  = String.length sample_feed.
Proof.
  assert (session sample_watcher = Some sample_spy) as H1 by reflexivity.
  assert (session_getState sample_spy = recording) as H2 by reflexivity.
  exact (proj1 (a_poll_reads_only_what_was_appended sample_parse sample_feed
                  sample_watcher sample_spy H1 H2)).
Defined.


Lemma action_entries_always_carry_a_summary_witness :
  ∃ summary,
    addEntryToSession
      (JObject [("type", JString "action"); ("summary", JString "");
                ("filesModified", JArray [JString "app.js"])])
      sample_watcher
    = on_session (session_addAction summary JUndefined
                    (JArray [JString "app.js"]) JUndefined JUndefined)
        sample_watcher ∧
    summary = JString "Action performed".
Proof.
  destruct (action_entries_always_carry_a_summary
              (JObject [("type", JString "action"); ("summary", JString "");
                        ("filesModified", JArray [JString "app.js"])])
              sample_watcher eq_refl)
    as (summary & Hcall & _ & _ & _ & Hdefault).
  exists summary. split; [exact Hcall | exact (Hdefault eq_refl eq_refl)].
Defined.

End FeedPollingProperties.

(** * Properties of the file change watcher *)

Module FileChangeProperties.
Import Types RecordingSession FileChangeWatcher SessionProperties.
Import FeedPollingProperties.

(** ** The ignore patterns *)

Lemma match_here_log_tail c s :
  match_here log_tail (String c s) = negb (line_terminator c) && is_prefix "log" s.
Proof.
  unfold log_tail; simpl. f_equal.
  destruct s as [|c1 [|c2 [|c3 s]]]; simpl; try done;
    repeat (case_bool_decide; simpl; subst; try done);
    repeat (case_decide; simpl; subst; try done).
Qed.

Lemma match_here_log_tail_empty : match_here log_tail EmptyString = false.
Proof. reflexivity. Qed.

(** What the starred dot in front adds: the match may begin further on. *)
Lemma match_here_star re s :
  match_here ((AnyChar, true) :: re) s =
  match_here re s ||
  match s with
  | String c s' => negb (line_terminator c) && match_here ((AnyChar, true) :: re) s'
  | EmptyString => false
  end.
Proof. destruct s; reflexivity. Qed.

Lemma star_log_something s :
  match_here ((AnyChar, true) :: log_tail) s = true → something_log s = true.
Proof.
  induction s as [|c s IH]; [done|].
  rewrite match_here_star, match_here_log_tail. simpl.
  intros [Hh|[_ Ht]%andb_true_iff]%orb_true_iff.
  - by rewrite Hh.
  - rewrite (IH Ht). apply orb_true_r.
Qed.

Lemma test_log s :
  test ((AnyChar, true) :: log_tail) s = something_log s.
Proof.
  induction s as [|c s IH]; [done|].
  cbn [test something_log]. rewrite IH, match_here_star, match_here_log_tail.
  destruct (negb (line_terminator c) && is_prefix "log" s) eqn:Hh; [done|].
  simpl. destruct (something_log s) eqn:Hs; [apply orb_true_r|].
  rewrite orb_false_r. apply andb_false_iff. right.
  apply not_true_is_false. intros Ht%star_log_something. congruence.
Qed.

Lemma is_prefix_buildlog s :
  is_prefix "buildlog" s = true → something_log s = true.
Proof.
  destruct s as [|c1 [|c2 [|c3 [|c4 [|c5 [|c6 [|c7 [|c8 s]]]]]]]]; simpl; try done;
    repeat (case_decide; simpl; subst; try done).
Qed.

Lemma match_here_buildlog_tail c s :
  match_here buildlog_tail (String c s) = true → something_log s = true.
Proof.
  intros H. apply is_prefix_buildlog. revert H.
  unfold buildlog_tail; simpl. intros [_ H]%andb_true_iff. revert H.
  destruct s as [|c1 [|c2 [|c3 [|c4 [|c5 [|c6 [|c7 [|c8 s]]]]]]]]; simpl; try done;
    repeat (case_bool_decide; simpl; subst; try done);
    repeat (case_decide; simpl; subst; try done).
Qed.

Lemma star_buildlog_something s :
  match_here ((AnyChar, true) :: buildlog_tail) s = true → something_log s = true.
Proof.
  induction s as [|c s IH]; [done|].
  rewrite match_here_star. cbn [something_log].
  intros [Hh%match_here_buildlog_tail|[_ Ht]%andb_true_iff]%orb_true_iff.
  - rewrite Hh. apply orb_true_r.
  - rewrite (IH Ht). apply orb_true_r.
Qed.

Lemma test_buildlog s :
  test ((AnyChar, true) :: buildlog_tail) s = true → something_log s = true.
Proof.
  induction s as [|c s IH]; [done|].
  cbn [test]. intros [Hh|Ht]%orb_true_iff.
  - by apply star_buildlog_something.
  - cbn [something_log]. rewrite (IH Ht). apply orb_true_r.
Qed.

Lemma ignored_by_log path : ignored_by path "*.log" = something_log path.
Proof. apply test_log. Qed.

Lemma ignored_by_buildlog path :
  ignored_by path "*.buildlog" = true → something_log path = true.
Proof. apply test_buildlog. Qed.

Lemma shouldIgnoreFile_cases path :
  shouldIgnoreFile path =
  existsb (startsWith path) directories || includes path ".DS_Store" ||
  something_log path.
Proof.
  unfold shouldIgnoreFile, ignorePatterns, directories. cbn [existsb].
  rewrite ignored_by_log.
  change (ignored_by path ".buildlog/") with (startsWith path ".buildlog/").
  change (ignored_by path "node_modules/") with (startsWith path "node_modules/").
  change (ignored_by path ".git/") with (startsWith path ".git/").
  change (ignored_by path "dist/") with (startsWith path "dist/").
  change (ignored_by path "out/") with (startsWith path "out/").
  change (ignored_by path "build/") with (startsWith path "build/").
  change (ignored_by path ".vscode/") with (startsWith path ".vscode/").
  change (ignored_by path ".DS_Store") with (includes path ".DS_Store").
  pose proof (ignored_by_buildlog path) as Hb.
  destruct (ignored_by path "*.buildlog"); [rewrite (Hb eq_refl)|];
    repeat (rewrite ?orb_false_r, ?orb_true_r; try done);
    repeat match goal with |- context [startsWith ?a ?b] => destruct (startsWith a b) end;
    repeat match goal with |- context [includes ?a ?b] => destruct (includes a b) end;
    repeat match goal with |- context [something_log ?a] => destruct (something_log a) end;
    reflexivity.
Qed.

Lemma is_prefix_append p b : is_prefix p (p +:+ b) = true.
Proof.
  induction p as [|x p IH]; [done|]. rewrite app_cons. simpl.
  by rewrite decide_True.
Qed.

Lemma something_log_app a c b :
  line_terminator c = false →
  something_log (a +:+ String c ("log" +:+ b)) = true.
Proof.
  intros Hc. induction a as [|x a IH].
  - rewrite app_empty. cbn [something_log].
    by rewrite Hc, is_prefix_append.
  - rewrite app_cons. cbn [something_log]. rewrite IH. apply orb_true_r.
Qed.

Lemma is_prefix_app p s : is_prefix p s = true → ∃ b, s = p +:+ b.
Proof.
  revert s. induction p as [|a p IH]; intros s; [by exists s|].
  destruct s as [|b s]; [done|]. simpl. case_decide; [subst|done].
  intros [r ->]%IH. by exists r.
Qed.

Lemma something_log_inv s :
  something_log s = true →
  ∃ a c b, s = a +:+ String c ("log" +:+ b) ∧ line_terminator c = false.
Proof.
  induction s as [|x s IH]; [done|]. cbn [something_log].
  intros [[Hx [b ->]%is_prefix_app]%andb_true_iff|Hs]%orb_true_iff.
  - exists EmptyString, x, b. split; [done|]. by apply negb_true_iff.
  - destruct (IH Hs) as (a & c & b & -> & Hc). by exists (String x a), c, b.
Qed.

(** ** Events and timers *)

Lemma handle_idle p k f :
  getState (world f) ≠ recording → handleFileChange p k f = f.
Proof. intros Hst. unfold handleFileChange. by rewrite decide_True. Qed.

Lemma handle_recording p k f :
  getState (world f) = recording →
  handleFileChange p k f =
  if shouldIgnoreFile p then f
  else {| world := world f; pendingChanges := <[p := k]> (pendingChanges f) |}.
Proof. intros Hst. unfold handleFileChange. rewrite decide_False; [done|]. by rewrite Hst; intros []. Qed.

Lemma last_change_cons p e events :
  last_change p (e :: events) =
  match last_change p events with
  | Some k => Some k
  | None => if decide (e.1 = p) then Some e.2 else None
  end.
Proof.
  unfold last_change. simpl. case_decide.
  - rewrite last_cons. by destruct (last _).
  - by destruct (last _).
Qed.

Lemma handle_all_pending events f :
  getState (world f) = recording →
  world (handle_all events f) = world f ∧
  ∀ p, pendingChanges (handle_all events f) !! p =
       if shouldIgnoreFile p then pendingChanges f !! p
       else match last_change p events with
            | Some k => Some k
            | None => pendingChanges f !! p
            end.
Proof.
  revert f. induction events as [|[q k] events IH]; intros f Hst.
  - split; [done|]. intros p. by destruct (shouldIgnoreFile p).
  - change (handle_all ((q, k) :: events) f)
      with (handle_all events (handleFileChange q k f)).
    assert (world (handleFileChange q k f) = world f) as Hw.
    { rewrite handle_recording by done. by destruct (shouldIgnoreFile q). }
    destruct (IH (handleFileChange q k f)) as [IHw IHp]; [by rewrite Hw|].
    split; [by rewrite IHw|]. intros p. rewrite IHp, last_change_cons.
    destruct (shouldIgnoreFile p) eqn:Hp.
    + rewrite handle_recording by done.
      destruct (shouldIgnoreFile q) eqn:Hq; [done|]. simpl.
      rewrite lookup_insert_ne; [done|]. intros ->. congruence.
    + destruct (last_change p events); [done|]. simpl.
      rewrite handle_recording by done. case_decide as Hqp.
      * subst q. rewrite Hp. simpl. by rewrite lookup_insert_eq.
      * destruct (shouldIgnoreFile q); [done|]. simpl.
        by rewrite lookup_insert_ne.
Qed.

Lemma recordFileChange_recording env p k w :
  getState w = recording →
  (recordFileChange env p k w).2 = accept env (action_of p k) w.
Proof.
  destruct w as [h [st id ti t0 r n fc fm] f]; unfold getState; simpl.
  intros ->. destruct k; destruct t0; reflexivity.
Qed.

Lemma recordFileChange_idle env p k w :
  getState w ≠ recording → (recordFileChange env p k w).2 = w.
Proof.
  intros Hst. unfold recordFileChange. rewrite bind_run. unfold gets. simpl.
  by rewrite decide_True.
Qed.

(** X14.  A path is ignored exactly when it starts with one of the seven
    directory patterns, or contains [.DS_Store], or contains the letters [log]
    after at least one character that is not a line terminator: the two
    starred patterns are not anchored, so they ask for no more than that. *)
Theorem ignored_paths_characterised path :
  shouldIgnoreFile path = true ↔
  (∃ d, d ∈ directories ∧ startsWith path d = true) ∨
  includes path ".DS_Store" = true ∨
  (∃ a c b, path = a +:+ String c ("log" +:+ b) ∧ line_terminator c = false).
Proof.
  rewrite shouldIgnoreFile_cases, !orb_true_iff, existsb_exists.
  split.
  - intros [[(d & Hd%list_elem_of_In & Hs)|Hi]|Hl].
    + left. by exists d.
    + right; by left.
    + right; right. by apply something_log_inv.
  - intros [(d & Hd%list_elem_of_In & Hs)|[Hi|(a & c & b & -> & Hc)]].
    + left; left. by exists d.
    + left; by right.
    + right. by apply something_log_app.
Qed.

(** X15.  A change to a file whose path has the letters [log] anywhere after a
    first character that is not a line terminator, such as [src/login.ts], is
    dropped: it sets no timer and never reaches the session. *)
Theorem a_path_with_log_inside_is_never_watched a c b k f :
  line_terminator c = false →
  handleFileChange (a +:+ String c ("log" +:+ b)) k f = f.
Proof.
  intros Hc. unfold handleFileChange. case_decide; [done|].
  by rewrite shouldIgnoreFile_cases, something_log_app, orb_true_r.
Qed.

Lemma a_path_with_log_inside_is_never_watched_witness :
  handleFileChange "src/login.ts" modified sample_watching = sample_watching.
Proof.
  exact (a_path_with_log_inside_is_never_watched "src" (Ascii.ascii_of_nat 47)
           "in.ts" modified
           sample_watching eq_refl).
Defined.

(** X16.  While the session records, file events leave the session as it is,
    and the live timers are those of the paths that were announced and are not
    ignored, each holding the last change announced for its path. *)
Theorem timers_hold_the_last_change_of_each_path events w :
  getState w = recording →
  let f := handle_all events {| world := w; pendingChanges := ∅ |} in
  world f = w ∧
  ∀ p, pendingChanges f !! p =
       if shouldIgnoreFile p then None else last_change p events.
Proof.
  intros Hst.
  destruct (handle_all_pending events {| world := w; pendingChanges := ∅ |} Hst)
    as [Hw Hp].
  split; [done|]. intros p. rewrite Hp. simpl. rewrite lookup_empty.
  by destruct (shouldIgnoreFile p), (last_change p events).
Qed.

Lemma timers_hold_the_last_change_of_each_path_witness :
  let f := handle_all sample_events sample_watching in
  world f = world sample_watching ∧
  ∀ p, pendingChanges f !! p =
       if shouldIgnoreFile p then None else last_change p sample_events.
Proof.
  exact (timers_hold_the_last_change_of_each_path sample_events
           (world sample_watching) eq_refl).
Defined.

(** X17.  However many events a path has seen, its timer going off records one
    action step, that of the last event, and the timer is gone; the timers of
    the other paths stay. *)
Theorem a_burst_of_changes_is_recorded_once env events f p k :
  getState (world f) = recording →
  shouldIgnoreFile p = false →
  last_change p events = Some k →
  let f' := timeout env p (handle_all events f) in
  world f' = accept env (action_of p k) (world f) ∧
  pendingChanges f' = delete p (pendingChanges (handle_all events f)) ∧
  timeout env p f' = f'.
Proof.
  intros Hst Hp Hk. destruct (handle_all_pending events f Hst) as [Hw Hl].
  specialize (Hl p). rewrite Hp, Hk in Hl.
  assert (timeout env p (handle_all events f) =
          {| world := accept env (action_of p k) (world f);
             pendingChanges := delete p (pendingChanges (handle_all events f)) |})
    as ->.
  { unfold timeout. rewrite Hl, Hw. by rewrite recordFileChange_recording. }
  simpl. split; [done|]. split; [done|].
  unfold timeout. simpl. by rewrite lookup_delete_eq.
Qed.

Lemma a_burst_of_changes_is_recorded_once_witness :
  let f' := timeout (at_ms 5000) "src/app.ts" (handle_all sample_events sample_watching) in
  world f' = accept (at_ms 5000) (action_of "src/app.ts" modified) (world sample_watching) ∧
  pendingChanges f' =
    delete "src/app.ts" (pendingChanges (handle_all sample_events sample_watching)) ∧
  timeout (at_ms 5000) "src/app.ts" f' = f'.
Proof.
  exact (a_burst_of_changes_is_recorded_once (at_ms 5000) sample_events
           sample_watching "src/app.ts" modified eq_refl eq_refl eq_refl).
Defined.

End FileChangeProperties.

(** * Properties of the chat participant *)

Module ChatProperties.
Import Types RecordingSession AgentFeedWatcher ChatParticipant SessionProperties.
Import FeedPollingProperties.

(** ** The session methods as calls *)

Lemma addPrompt_call env (content : string) options w :
  addPrompt env content options w =
  (Returns tt, (call env (AddPrompt content options) w).2).
Proof.
  destruct w as [h [st id ti t0 r n fc fm] f]; destruct st; destruct t0;
    reflexivity.
Qed.

Lemma addAction_call env summary options w :
  well_typed (AddAction summary options) = true →
  addAction env summary options w =
  (Returns tt, (call env (AddAction summary options) w).2).
Proof.
  intros Hw.
  pose proof (well_typed_returns env (AddAction summary options) w eq_refl Hw) as Hr.
  cbn [call] in *. rewrite bind_run in *.
  by destruct (addAction env summary options w) as [[[]|e] w'].
Qed.

Lemma well_typed_listing (summary : string) (l : list string) deleted approach :
  well_typed
    (AddAction summary
       (Some {| ao_filesCreated := JUndefined;
                ao_filesModified := if decide (0 < length l) then strings l
                                    else JUndefined;
                ao_filesDeleted := deleted; ao_approach := approach |})) = true.
Proof.
  cbn [well_typed is_string optional from_option ao_filesCreated ao_filesModified
       strings_or_absent andb].
  case_decide; [apply strings_or_absent_strings | done].
Qed.

Lemma addError_call env message resolved resolution w :
  addError env message resolved resolution w =
  (Returns tt, (call env (AddError message resolved resolution) w).2).
Proof.
  destruct w as [h [st id ti t0 r n fc fm] f]; destruct st; destruct t0;
    reflexivity.
Qed.

Lemma for_of_markdown fragments c :
  for_of fragments (λ fragment, markdown (Fragment fragment)) c =
  (Returns tt, {| world := world c; stream := stream c ++ (Fragment <$> fragments) |}).
Proof.
  revert c. induction fragments as [|x fragments IH]; intros c.
  - simpl. rewrite app_nil_r. by destruct c.
  - cbn [for_of]. rewrite bind_run. unfold markdown at 1, modify.
    rewrite IH. simpl. by rewrite <- app_assoc.
Qed.

(** ** The summary of a response *)

Lemma includes_newline_cons c s :
  includes (String c s) newline =
  bool_decide (c = Ascii.ascii_of_nat 10) || includes s newline.
Proof.
  unfold newline. cbn [includes is_prefix].
  destruct (decide (Ascii.ascii_of_nat 10 = c)) as [<-|Hc].
  - by rewrite bool_decide_eq_true_2.
  - rewrite bool_decide_eq_false_2 by done. by destruct s.
Qed.

Lemma includes_newline_rev_app s acc :
  includes (String.rev_app s acc) newline =
  includes s newline || includes acc newline.
Proof.
  revert acc. induction s as [|c s IH]; intros acc; [done|].
  cbn [String.rev_app]. rewrite IH, !includes_newline_cons.
  by destruct (bool_decide _), (includes s newline), (includes acc newline).
Qed.

Lemma includes_newline_rev s :
  includes (String.rev s) newline = includes s newline.
Proof.
  unfold String.rev. rewrite includes_newline_rev_app. apply orb_false_r.
Qed.

Lemma split_go_single_lines cur s l :
  includes cur newline = false →
  l ∈ split_go cur s → includes l newline = false.
Proof.
  revert cur. induction s as [|c s IH]; intros cur Hcur; cbn [split_go].
  - intros ->%list_elem_of_singleton. by rewrite includes_newline_rev.
  - case_decide as Hc.
    + intros [->|Hl]%elem_of_cons; [by rewrite includes_newline_rev|].
      by apply (IH EmptyString).
    + apply IH. rewrite includes_newline_cons, Hcur.
      by rewrite bool_decide_eq_false_2.
Qed.

Lemma substring_single_line n s :
  includes s newline = false →
  includes (String.substring 0 n s) newline = false.
Proof.
  revert s. induction n as [|n IH]; intros [|c s]; try done.
  cbn [String.substring]. rewrite !includes_newline_cons.
  intros [-> Hs]%orb_false_iff. by rewrite IH.
Qed.

Lemma includes_newline_app a b :
  includes (a +:+ b) newline = includes a newline || includes b newline.
Proof.
  induction a as [|c a IH]; [done|].
  rewrite app_cons, !includes_newline_cons, IH. apply orb_assoc.
Qed.

Lemma length_substring n s :
  n ≤ String.length s → String.length (String.substring 0 n s) = n.
Proof.
  revert s. induction n as [|n IH]; intros [|c s]; simpl; try done; try lia.
  intros Hn. rewrite IH; lia.
Qed.

Lemma or_string_truthy a b :
  truthy_string b = true → truthy_string (or_string a b) = true.
Proof.
  intros Hb. destruct a as [s|]; [|done]. simpl.
  by destruct (truthy_string s) eqn:Hs.
Qed.

Lemma truthy_string_length s : truthy_string s = true ↔ 0 < String.length s.
Proof. destruct s; simpl; [split; [done|lia]|split; [lia|done]]. Qed.

Lemma first_primitive_None values :
  first_primitive values = None ↔ forallb is_object values = true.
Proof.
  induction values as [|v values IH]; [done|]. simpl.
  destruct (is_object v); [done|]. by split.
Qed.

Lemma first_primitive_Some values v :
  first_primitive values = Some v → is_object v = false.
Proof.
  induction values as [|v' values IH]; [done|]. simpl.
  destruct (is_object v') eqn:Hv; [done|]. by intros [= <-].
Qed.

Section Participant.
Variable asRelativePath : JSValue → string.
Variable extractFilePaths : string → list string.
Variable in_operator_message : JSValue → string.

Lemma extractReferences_from_cases refs values c :
  extractReferences_from asRelativePath in_operator_message refs values c =
  (match first_primitive values with
   | None => Returns (refs ++ location_paths asRelativePath values)
   | Some v => Throws (TypeError (in_operator_message v))
   end, c).
Proof.
  revert refs. induction values as [|v values IH]; intros refs.
  - simpl. by rewrite app_nil_r.
  - cbn [extractReferences_from first_primitive]. rewrite bind_run.
    unfold uri_in. destruct (is_object v) eqn:Hv; [|done].
    change (@mret (JS Chat) _ bool (has_property v "uri") c)
      with (@Returns bool (has_property v "uri"), c).
    cbv iota beta. cbn [location_paths omap list_omap].
    fold (location_paths asRelativePath values).
    destruct (has_property v "uri" && truthy (uri_of v)).
    + rewrite IH. destruct (first_primitive values); [done|].
      by rewrite <- app_assoc.
    + destruct v; try done; by rewrite IH.
Qed.

Lemma request_recording env request c :
  getState (world c) = recording →
  handler_request asRelativePath in_operator_message env request c =
  match first_primitive (references request) with
  | None =>
      (Returns tt,
       {| world := run (request_calls asRelativePath env request) (world c);
          stream := stream c ++ [RecordedPrompt] |})
  | Some v => (Throws (TypeError (in_operator_message v)), c)
  end.
Proof.
  intros Hst. unfold handler_request.
  rewrite bind_run. unfold gets at 1. rewrite Hst.
  rewrite decide_False by (by intros []).
  rewrite bind_run. change (@mret (JS Chat) _ unit tt c) with (@Returns unit tt, c).
  cbv iota beta.
  rewrite bind_run. unfold gets at 1. rewrite Hst.
  rewrite decide_True by done.
  rewrite bind_run. unfold extractReferences.
  rewrite extractReferences_from_cases.
  destruct (first_primitive (references request)); [done|].
  rewrite bind_run. unfold on_world. rewrite addPrompt_call. reflexivity.
Qed.

Lemma request_idle env request c :
  getState (world c) ≠ recording →
  handler_request asRelativePath in_operator_message env request c =
  (Returns tt,
   {| world := run (request_calls asRelativePath env request) (world c);
      stream := stream c ++ [NotRecording; Rule] |}).
Proof.
  intros Hst.
  assert (run (request_calls asRelativePath env request) (world c) = world c) as ->.
  { unfold request_calls, run. cbn [foldl fst snd].
    by rewrite mutation_dropped. }
  unfold handler_request.
  rewrite bind_run. unfold gets at 1.
  rewrite decide_True by done.
  rewrite !bind_run. unfold markdown, modify, gets. simpl.
  rewrite bind_run. simpl.
  rewrite decide_False by done.
  by rewrite <- app_assoc.
Qed.

Lemma run_one env call0 w : run [(env, call0)] w = (call env call0 w).2.
Proof. reflexivity. Qed.

Lemma response_run env forwarded c :
  handler_response extractFilePaths env forwarded c =
  (match forwarded with OtherError _ e => Throws e | _ => Returns tt end,
   {| world := run (response_calls extractFilePaths env forwarded) (world c);
      stream := stream c ++ response_stream forwarded |}).
Proof.
  destruct forwarded as [|fragments|fragments message|fragments e];
    cbn [handler_response response_calls response_stream].
  - by destruct c.
  - rewrite bind_run, for_of_markdown. cbv iota beta.
    rewrite bind_run. unfold gets at 1. cbv iota beta. cbn [world stream].
    destruct (decide (getState (world c) = recording)) as [Hst|Hst].
    + rewrite bool_decide_eq_true_2 by done. cbn [andb].
      destruct (truthy_string (fullResponse fragments)); [|done].
      unfold on_world. cbn [world stream].
      rewrite addAction_call by apply well_typed_listing.
      by rewrite run_one.
    + rewrite bool_decide_eq_false_2 by done. cbn [andb].
      destruct (truthy_string (fullResponse fragments)); [|done].
      by rewrite run_one, mutation_dropped.
  - rewrite bind_run, for_of_markdown. cbv iota beta.
    rewrite bind_run. unfold markdown at 1, modify. cbv iota beta.
    rewrite bind_run. unfold gets at 1. cbv iota beta. cbn [world stream].
    rewrite <- app_assoc, run_one.
    destruct (decide (getState (world c) = recording)) as [Hst|Hst].
    + unfold on_world. cbn [world stream]. by rewrite addError_call.
    + by rewrite mutation_dropped.
  - by rewrite bind_run, for_of_markdown.
Qed.

(** X18.  The references handed to [addPrompt] are the relative paths of the
    values that are objects with a truthy [uri]; a value that is not an
    object, a string included, makes the collection throw the TypeError of the
    [in] operator, so that the branch for strings is never taken. *)
Theorem references_are_locations_or_a_type_error request c :
  extractReferences asRelativePath in_operator_message request c =
  (match first_primitive (references request) with
   | None => Returns (location_paths asRelativePath (references request))
   | Some v => Throws (TypeError (in_operator_message v))
   end, c) ∧
  ∀ s, JString s ∈ references request →
       is_Some (first_primitive (references request)).
Proof.
  split; [apply (extractReferences_from_cases [])|].
  intros s Hs. destruct (first_primitive _) eqn:Hf; [done|].
  apply first_primitive_None in Hf. rewrite forallb_forall in Hf.
  by specialize (Hf (JString s) (proj1 (list_elem_of_In _ _) Hs)).
Qed.

(** X19.  While the session records, a chat turn one of whose references is a
    string is rejected with a TypeError before anything is recorded or
    streamed: the session sees the calls of the other components only, and the
    response is never handled. *)
Theorem a_string_reference_fails_the_turn env1 request between env2 forwarded c s :
  getState (world c) = recording →
  JString s ∈ references request →
  ∃ v, is_object v = false ∧
    handler asRelativePath extractFilePaths in_operator_message env1 request
      between env2 forwarded c =
    (Throws (TypeError (in_operator_message v)),
     {| world := run between (world c); stream := stream c |}).
Proof.
  intros Hst Hs. unfold handler. rewrite request_recording by done.
  destruct (first_primitive (references request)) as [v|] eqn:Hf.
  - exists v. split; [by apply first_primitive_Some in Hf|done].
  - apply first_primitive_None in Hf. rewrite forallb_forall in Hf.
    by specialize (Hf (JString s) (proj1 (list_elem_of_In _ _) Hs)).
Qed.

(** X20.  A chat turn whose references are objects acts on the session as a
    history of calls does:  [addPrompt] with the prompt, the calls made
    meanwhile, then [addAction] for a non-empty response or [addError] for a
    model error.  It throws only what the forwarding threw that was no model
    error. *)
Theorem a_chat_turn_is_a_history_of_calls env1 request between env2 forwarded c :
  forallb is_object (references request) = true →
  handler asRelativePath extractFilePaths in_operator_message env1 request between env2 forwarded c =
  (match forwarded with OtherError _ e => Throws e | _ => Returns tt end,
   {| world := run (request_calls asRelativePath env1 request ++ between ++
                    response_calls extractFilePaths env2 forwarded) (world c);
      stream := stream c ++ request_stream (getState (world c)) ++
                response_stream forwarded |}).
Proof.
  intros Hrefs. unfold handler, request_stream.
  destruct (decide (getState (world c) = recording)) as [Hst|Hst].
  - rewrite request_recording by done.
    rewrite (proj2 (first_primitive_None _) Hrefs).
    rewrite response_run. cbn [world stream].
    by rewrite !run_app, <- app_assoc.
  - rewrite request_idle by done.
    rewrite response_run. cbn [world stream].
    by rewrite !run_app, <- app_assoc.
Qed.

End Participant.

Lemma a_string_reference_fails_the_turn_witness :
  ∃ v, is_object v = false ∧
    handler sample_asRelativePath sample_extractFilePaths sample_message
      (at_ms 2000) sample_string_request [(at_ms 3000, AddNote "meanwhile" None)]
      (at_ms 4000) (Responded ["Done."]) sample_chat =
    (Throws (TypeError (sample_message v)),
     {| world := run [(at_ms 3000, AddNote "meanwhile" None)] (world sample_chat);
        stream := stream sample_chat |}).
Proof.
  apply (a_string_reference_fails_the_turn sample_asRelativePath
           sample_extractFilePaths sample_message (at_ms 2000)
           sample_string_request [(at_ms 3000, AddNote "meanwhile" None)]
           (at_ms 4000) (Responded ["Done."]) sample_chat "selection").
  - reflexivity.
  - right; left.
Defined.

Lemma a_chat_turn_is_a_history_of_calls_witness :
  handler sample_asRelativePath sample_extractFilePaths sample_message
    (at_ms 2000) sample_request [(at_ms 3000, AddNote "meanwhile" None)]
    (at_ms 4000) (Responded ["The form "; "is in place."]) sample_chat =
  (Returns tt,
   {| world :=
        run (request_calls sample_asRelativePath (at_ms 2000) sample_request ++
             [(at_ms 3000, AddNote "meanwhile" None)] ++
             response_calls sample_extractFilePaths (at_ms 4000)
               (Responded ["The form "; "is in place."]))
          (world sample_chat);
      stream := stream sample_chat ++ request_stream (getState (world sample_chat)) ++
                response_stream (Responded ["The form "; "is in place."]) |}).
Proof.
  exact (a_chat_turn_is_a_history_of_calls sample_asRelativePath
           sample_extractFilePaths sample_message (at_ms 2000) sample_request
           [(at_ms 3000, AddNote "meanwhile" None)] (at_ms 4000)
           (Responded ["The form "; "is in place."]) sample_chat eq_refl).
Defined.

(** X21.  Whatever the response, its summary is one line of at least one and
    at most two hundred characters. *)
Theorem a_summary_is_one_short_line text :
  0 < String.length (createSummary text) ≤ 200 ∧
  includes (createSummary text) newline = false.
Proof.
  unfold createSummary.
  set (lines := filter _ _).
  set (firstLine := or_string (head lines) "AI response").
  assert (0 < String.length firstLine) as Hpos.
  { apply truthy_string_length. by apply or_string_truthy. }
  assert (includes firstLine newline = false) as Hline.
  { unfold firstLine. destruct lines as [|l lines'] eqn:Hl; [done|].
    simpl. destruct (truthy_string l); [|done].
    assert (l ∈ lines) as [_ Hin]%list_elem_of_filter by (rewrite Hl; left).
    by apply (split_go_single_lines EmptyString _ _ eq_refl Hin). }
  case_decide as Hlong.
  - rewrite length_app_string, length_substring by lia.
    rewrite includes_newline_app, substring_single_line by done.
    simpl. split; [lia|done].
  - split; [lia|done].
Qed.

End ChatProperties.

(** * Properties of the file name *)

Module WriterProperties.
Import Types BuildlogWriter FileChangeWatcher FileChangeProperties.
Import FeedPollingProperties.

Lemma includes_dashes_cons c s :
  includes (String c s) "--" =
  bool_decide (c = dash) && is_prefix "-" s || includes s "--".
Proof.
  cbn [includes]. f_equal. cbn [is_prefix].
  destruct (decide (Ascii.Ascii true false true true false true false false = c))
    as [<-|Hc].
  - by rewrite bool_decide_eq_true_2.
  - rewrite bool_decide_eq_false_2; [done|]. intros ->. by apply Hc.
Qed.

Lemma is_prefix_dash_cons c s :
  is_prefix "-" (String c s) = bool_decide (c = dash).
Proof.
  cbn [is_prefix].
  destruct (decide (Ascii.Ascii true false true true false true false false = c))
    as [<-|Hc].
  - by rewrite bool_decide_eq_true_2.
  - rewrite bool_decide_eq_false_2; [done|]. intros ->. by apply Hc.
Qed.

Lemma alphanumeric_not_dash c : alphanumeric c = true → c ≠ dash.
Proof. intros Hc ->. done. Qed.

Lemma tidy_empty : tidy EmptyString.
Proof. by split. Qed.

Lemma tidy_tail c s : tidy (String c s) → tidy s.
Proof.
  intros [Hc Hd]. split.
  - simpl in Hc. by apply andb_true_iff in Hc as [_ Hc].
  - rewrite includes_dashes_cons in Hd. by apply orb_false_iff in Hd as [_ Hd].
Qed.

Lemma tidy_cons c s :
  filename_char c = true →
  (c = dash → is_prefix "-" s = false) →
  tidy s → tidy (String c s).
Proof.
  intros Hc Hs [Hcs Hd]. split.
  - simpl. by rewrite Hc, Hcs.
  - rewrite includes_dashes_cons, Hd, orb_false_r.
    destruct (decide (c = dash)) as [Heq|Hne].
    + rewrite (Hs Heq). apply andb_false_r.
    + by rewrite bool_decide_eq_false_2.
Qed.

Lemma replace_runs_tidy in_run s :
  tidy (replace_runs in_run s) ∧
  (in_run = true → is_prefix "-" (replace_runs in_run s) = false).
Proof.
  revert in_run. induction s as [|c s IH]; intros in_run; [by split|].
  cbn [replace_runs]. destruct (alphanumeric c) eqn:Hc.
  - destruct (IH false) as [Ht _]. split.
    + apply tidy_cons; [by unfold filename_char; rewrite Hc| |done].
      intros ->. done.
    + intros _. rewrite is_prefix_dash_cons.
      apply bool_decide_eq_false_2. by apply alphanumeric_not_dash.
  - destruct in_run.
    + apply IH.
    + destruct (IH true) as [Ht Hp]. split; [|done].
      apply tidy_cons; [done| |done]. intros _. by apply Hp.
Qed.

Lemma strip_leading_tidy s :
  tidy s → tidy (strip_leading s) ∧ is_prefix "-" (strip_leading s) = false.
Proof.
  induction s as [|c s IH]; [by split|]. intros Ht. cbn [strip_leading].
  case_decide as Hc.
  - apply IH. by apply tidy_tail in Ht.
  - split; [done|]. rewrite is_prefix_dash_cons. by apply bool_decide_eq_false_2.
Qed.

Lemma is_prefix_refl s : is_prefix s s = true.
Proof. induction s as [|c s IH]; [done|]. simpl. by rewrite decide_True. Qed.

Lemma is_prefix_strip_trailing s : is_prefix (strip_trailing s) s = true.
Proof.
  induction s as [|c s IH]; [done|]. cbn [strip_trailing].
  destruct (strip_trailing s) as [|c' r] eqn:Hr.
  - case_decide; [done|]. simpl. by rewrite decide_True.
  - simpl. by rewrite decide_True.
Qed.

Lemma is_prefix_substring n s : is_prefix (String.substring 0 n s) s = true.
Proof.
  revert s. induction n as [|n IH]; intros [|c s]; try done.
  cbn [String.substring]. simpl. by rewrite decide_True.
Qed.

Lemma is_prefix_trans a b c :
  is_prefix a b = true → is_prefix b c = true → is_prefix a c = true.
Proof.
  revert b c. induction a as [|x a IH]; intros [|y b] [|z c]; try done.
  simpl. repeat case_decide; subst; try done. apply IH.
Qed.

Lemma includes_prefix p s needle :
  is_prefix p s = true → includes p needle = true → includes s needle = true.
Proof.
  revert s. induction p as [|x p IH]; intros s Hp.
  - destruct needle; [by destruct s|done].
  - destruct s as [|y s]; [done|]. simpl in Hp. case_decide; [subst y|done].
    cbn [includes]. intros [Hn|Hi]%orb_true_iff.
    + rewrite (is_prefix_trans needle (String x p) (String x s)); [done..|].
      simpl. by rewrite decide_True.
    + rewrite (IH s Hp Hi). apply orb_true_r.
Qed.

Lemma tidy_prefix p s :
  is_prefix p s = true → tidy s →
  tidy p ∧ (is_prefix "-" s = false → is_prefix "-" p = false).
Proof.
  intros Hp [Hc Hd]. split; [split|].
  - clear Hd. revert s Hp Hc. induction p as [|x p IH]; intros [|y s]; try done.
    simpl. case_decide; [subst y|done].
    intros Hp [-> Hs]%andb_true_iff. simpl. by apply (IH s).
  - apply not_true_is_false. intros Hi.
    by rewrite (includes_prefix p s "--" Hp Hi) in Hd.
  - intros Hs. apply not_true_is_false. intros Hi.
    by rewrite (is_prefix_trans "-" p s Hi Hp) in Hs.
Qed.

Lemma length_prefix p s :
  is_prefix p s = true → String.length p ≤ String.length s.
Proof.
  revert s. induction p as [|x p IH]; intros [|y s]; simpl; try done; try lia.
  case_decide; [|done]. intros Hp%IH. lia.
Qed.

Lemma length_substring_le n s : String.length (String.substring 0 n s) ≤ n.
Proof.
  revert s. induction n as [|n IH]; intros [|c s]; simpl; try lia.
  specialize (IH s). lia.
Qed.

(** X22.  The name of a buildlog file starts with one to fifty characters
    taken from the title: lower-case letters, digits and single dashes, the
    first of them no dash. *)
Theorem sanitized_names_are_safe name :
  let r := sanitizeFilename name in
  0 < String.length r ≤ 50 ∧
  all_chars filename_char r = true ∧
  is_prefix "-" r = false ∧
  includes r "--" = false.
Proof.
  unfold sanitizeFilename.
  set (t := strip_leading (replace_runs false (toLowerCase name))).
  destruct (strip_leading_tidy (replace_runs false (toLowerCase name)))
    as [Ht Hd]; [apply replace_runs_tidy|]. fold t in Ht, Hd.
  destruct (tidy_prefix (strip_trailing t) t (is_prefix_strip_trailing t) Ht)
    as [Ht' Hd'].
  destruct (tidy_prefix (String.substring 0 50 (strip_trailing t)) (strip_trailing t)
              (is_prefix_substring _ _) Ht') as [[Hc Hdd] Hd''].
  pose proof (length_substring_le 50 (strip_trailing t)) as Hlen.
  cbn [or_string]. cbv zeta.
  destruct (String.substring 0 50 (strip_trailing t)) as [|c r] eqn:Hr.
  - simpl. repeat split; [lia|lia].
  - cbn [truthy_string]. repeat split; [simpl; lia|done..|by auto|done].
Qed.

(** X23.  A buildlog file is never recorded as a change, in whatever directory
    it is written: its name ends in [.buildlog], which the pattern for log
    files matches. *)
Theorem a_written_buildlog_is_ignored_by_the_watcher dir title toISOString :
  shouldIgnoreFile (dir +:+ filename title toISOString) = true.
Proof.
  unfold filename. cbv zeta.
  set (a := sanitizeFilename title).
  set (b := String.substring 0 19 _).
  rewrite shouldIgnoreFile_cases.
  replace (dir +:+ a +:+ "-" +:+ b +:+ ".buildlog")
    with ((dir +:+ a +:+ "-" +:+ b +:+ ".buil") +:+
          String (Ascii.ascii_of_nat 100) ("log" +:+ EmptyString)).
  - by rewrite something_log_app, orb_true_r.
  - by rewrite !app_assoc_string.
Qed.

End WriterProperties.

(** * Properties of the identifiers *)

Module UtilsProperties.
Import Utils.
Import FeedPollingProperties.

Lemma toString16_digit r :
  r < 16 → ∃ d, toString16 r = String d EmptyString ∧ hex_digit d = true.
Proof.
  intros Hr.
  do 16 (destruct r as [|r];
         [eexists; split; [vm_compute; reflexivity|reflexivity]|]).
  lia.
Qed.

Lemma toString16_variant r :
  r < 16 →
  ∃ d, toString16 (Nat.lor (Nat.land r 3) 8) = String d EmptyString ∧
       variant_digit d = true.
Proof.
  intros Hr.
  do 16 (destruct r as [|r];
         [eexists; split; [vm_compute; reflexivity|reflexivity]|]).
  lia.
Qed.

Lemma replace_xy_layout random i template :
  (∀ i, random i < 16) →
  has_layout template (replace_xy random i template) = true.
Proof.
  intros Hr. revert i. induction template as [|c template IH]; intros i; [done|].
  cbn [replace_xy]. destruct (decide (c = letter_x ∨ c = letter_y)) as [Hc|Hc].
  - destruct (decide (c = letter_x)) as [->|Hx].
    + destruct (toString16_digit (random i) (Hr i)) as (d & -> & Hd).
      rewrite app_cons, app_empty. cbn [has_layout].
      rewrite decide_True by done. by rewrite Hd, IH.
    + destruct Hc as [?| ->]; [done|].
      destruct (toString16_variant (random i) (Hr i)) as (d & -> & Hd).
      rewrite app_cons, app_empty. cbn [has_layout].
      rewrite decide_False by done. rewrite decide_True by done.
      by rewrite Hd, IH.
  - cbn [has_layout].
    rewrite decide_False by tauto. rewrite decide_False by tauto.
    by rewrite bool_decide_eq_true_2, IH.
Qed.

(** X24.  An identifier has the layout of a version 4 UUID: thirty-six
    characters, hexadecimal digits in five groups separated by dashes, the
    third group starting with 4 and the fourth with 8, 9, a or b. *)
Theorem identifiers_have_the_version_4_layout random :
  (∀ i, random i < 16) →
  String.length (v4 random) = 36 ∧
  has_layout "xxxxxxxx-xxxx-4xxx-yxxx-xxxxxxxxxxxx" (v4 random) = true.
Proof.
  intros Hr.
  assert (∀ layout s, has_layout layout s = true →
                      String.length s = String.length layout) as Hlen.
  { induction layout as [|p layout IH]; intros [|c s]; try done.
    cbn [has_layout]. intros [_ Hs]%andb_true_iff. simpl. by rewrite (IH s). }
  pose proof (replace_xy_layout random 0 "xxxxxxxx-xxxx-4xxx-yxxx-xxxxxxxxxxxx" Hr)
    as Hl.
  unfold v4. split; [|done]. by rewrite (Hlen _ _ Hl).
Qed.

Lemma identifiers_have_the_version_4_layout_witness :
  String.length (v4 (λ i, 11)) = 36 ∧
  has_layout "xxxxxxxx-xxxx-4xxx-yxxx-xxxxxxxxxxxx" (v4 (λ i, 11)) = true.
Proof.
  apply (identifiers_have_the_version_4_layout (λ i, 11)).
  intros i. lia.
Defined.

End UtilsProperties.

(** * Properties of the clock *)

Module StatusBarProperties.
Import BuildlogWriter StatusBar.
Import FeedPollingProperties.

(** ** Decimal numerals *)

Lemma pretty_N_go_app x s :
  pretty_N_go x s = pretty_N_go x EmptyString +:+ s.
Proof.
  revert s. induction (N.lt_wf_0 x) as [x _ IH]; intros s.
  destruct (decide (0 < x)%N) as [Hx|Hx].
  - assert (x `div` 10 < x)%N as Hlt by (apply N.div_lt; lia).
    rewrite !(pretty_N_go_step x) by done.
    rewrite (IH _ Hlt (String _ s)), (IH _ Hlt (String _ EmptyString)).
    by rewrite app_assoc_string.
  - assert (x = 0%N) as -> by lia. by rewrite !pretty_N_go_0.
Qed.

Lemma pretty_N_small (n : N) :
  (n < 10)%N → pretty n = String (pretty_N_char n) EmptyString.
Proof.
  intros Hn. unfold pretty, pretty_N. case_decide as H0; [by subst|].
  rewrite pretty_N_go_step by lia.
  rewrite N.div_small, N.mod_small by done. by rewrite pretty_N_go_0.
Qed.

Lemma pretty_N_large (n : N) :
  (10 ≤ n)%N →
  pretty n = pretty (n `div` 10)%N +:+
             String (pretty_N_char (n `mod` 10)) EmptyString.
Proof.
  intros Hn. unfold pretty, pretty_N.
  rewrite decide_False by lia.
  rewrite decide_False by (intros H0%N.div_small_iff; lia).
  rewrite pretty_N_go_step by lia. apply pretty_N_go_app.
Qed.

Lemma digit_pretty_N_char x : digit (pretty_N_char x) = true.
Proof.
  destruct x as [|p]; [done|].
  do 4 (destruct p as [p|p|]; try done).
Qed.

Lemma all_chars_app f a b :
  all_chars f (a +:+ b) = all_chars f a && all_chars f b.
Proof.
  induction a as [|c a IH]; [done|]. rewrite app_cons. simpl.
  by rewrite IH, andb_assoc.
Qed.

Lemma digits_pretty_N (n : N) : all_chars digit (pretty n) = true.
Proof.
  induction (N.lt_wf_0 n) as [n _ IH].
  destruct (decide (n < 10)%N) as [Hn|Hn].
  - rewrite pretty_N_small by done. simpl. by rewrite digit_pretty_N_char.
  - rewrite pretty_N_large by lia. rewrite all_chars_app, IH.
    + simpl. by rewrite digit_pretty_N_char.
    + apply N.div_lt; lia.
Qed.

Lemma pretty_N_char_zero x :
  (0 < x < 10)%N → pretty_N_char x ≠ zero.
Proof.
  intros Hx Heq.
  assert (x = 0%N); [|lia].
  apply pretty_N_char_inj; [lia|lia|done].
Qed.

Lemma pretty_N_head (n : N) :
  (0 < n)%N → ∃ c r, pretty n = String c r ∧ c ≠ zero.
Proof.
  induction (N.lt_wf_0 n) as [n _ IH]. intros Hn.
  destruct (decide (n < 10)%N) as [Hs|Hs].
  - rewrite pretty_N_small by done. eexists _, _. split; [done|].
    apply pretty_N_char_zero. lia.
  - rewrite pretty_N_large by lia.
    destruct (IH (n `div` 10)%N) as (c & r & -> & Hc).
    + apply N.div_lt; lia.
    + apply N.div_str_pos. lia.
    + rewrite app_cons. by eexists _, _.
Qed.

Lemma pretty_N_length_large (n : N) :
  (10 ≤ n)%N → 2 ≤ String.length (pretty n).
Proof.
  intros Hn. rewrite pretty_N_large by done.
  destruct (pretty_N_head (n `div` 10)%N) as (c & r & -> & _).
  - apply N.div_str_pos. lia.
  - rewrite app_cons. cbn [String.length]. rewrite length_app_string. simpl. lia.
Qed.

(** ** Padded numerals *)

Lemma padStart2_small (n : N) :
  (n < 10)%N →
  padStart2 (pretty n) = String zero (String (pretty_N_char n) EmptyString).
Proof. intros Hn. by rewrite pretty_N_small. Qed.

Lemma padStart2_large (n : N) :
  (10 ≤ n)%N → padStart2 (pretty n) = pretty n.
Proof.
  intros Hn. pose proof (pretty_N_length_large n Hn) as Hl.
  unfold padStart2. destruct (String.length (pretty n)) as [|[|k]]; [lia|lia|done].
Qed.

Lemma padStart2_inj (a b : N) :
  padStart2 (pretty a) = padStart2 (pretty b) → a = b.
Proof.
  destruct (decide (a < 10)%N) as [Ha|Ha], (decide (b < 10)%N) as [Hb|Hb].
  - rewrite !padStart2_small by done. intros [= Heq].
    by apply pretty_N_char_inj.
  - rewrite padStart2_small, padStart2_large by lia.
    destruct (pretty_N_head b) as (c & r & -> & Hc); [lia|].
    intros [= <- _]. done.
  - rewrite padStart2_large, padStart2_small by lia.
    destruct (pretty_N_head a) as (c & r & -> & Hc); [lia|].
    intros [= -> _]. done.
  - rewrite !padStart2_large by lia. apply pretty_N_inj.
Qed.

Lemma padStart2_digits (n : N) : all_chars digit (padStart2 (pretty n)) = true.
Proof.
  destruct (decide (n < 10)%N) as [Hn|Hn].
  - rewrite padStart2_small by done. simpl. by rewrite digit_pretty_N_char.
  - rewrite padStart2_large by lia. apply digits_pretty_N.
Qed.

Lemma pretty_Z_N (z : Z) : (0 ≤ z)%Z → pretty z = pretty (Z.to_N z).
Proof. intros Hz. destruct z as [|p|p]; [done|done|lia]. Qed.

(** ** Reading a clock back *)

Lemma colon_cons b : ":" +:+ b = String (Ascii.ascii_of_nat 58) b.
Proof. reflexivity. Qed.

Lemma colon_split a a' b b' :
  all_chars digit a = true → all_chars digit a' = true →
  a +:+ ":" +:+ b = a' +:+ ":" +:+ b' → a = a' ∧ b = b'.
Proof.
  rewrite !colon_cons.
  revert a'. induction a as [|c a IH]; intros [|c' a'] Ha Ha'.
  - rewrite (app_empty (String _ b)), (app_empty (String _ b')).
    by intros [= ->].
  - rewrite (app_empty (String _ b)), (app_cons c'). intros [= <- _]. done.
  - rewrite (app_empty (String _ b')), (app_cons c). intros [= -> _]. done.
  - rewrite (app_cons c), (app_cons c'). intros [= -> Heq].
    simpl in Ha, Ha'. apply andb_true_iff in Ha as [_ Ha].
    apply andb_true_iff in Ha' as [_ Ha'].
    destruct (IH a' Ha Ha' Heq) as [-> ->]. done.
Qed.

Lemma colon_no_digits a b : all_chars digit (a +:+ ":" +:+ b) = false.
Proof.
  rewrite colon_cons. induction a as [|c a IH].
  - by rewrite app_empty.
  - rewrite app_cons. simpl. rewrite IH. apply andb_false_r.
Qed.

(** ** The clock in closed form *)

Lemma formatDuration_nonneg ms :
  (0 ≤ ms)%Z →
  let t := (ms `div` 1000)%Z in
  formatDuration ms =
  if decide (3600 ≤ t)%Z then
    padStart2 (pretty (Z.to_N (t `div` 3600))) +:+ ":" +:+
    padStart2 (pretty (Z.to_N ((t `mod` 3600) `div` 60))) +:+ ":" +:+
    padStart2 (pretty (Z.to_N (t `mod` 60)))
  else
    padStart2 (pretty (Z.to_N (t `div` 60))) +:+ ":" +:+
    padStart2 (pretty (Z.to_N (t `mod` 60))).
Proof.
  intros Hms t. unfold formatDuration. cbv zeta. fold t.
  assert (0 ≤ t)%Z as Ht by (apply Z.div_pos; lia).
  clearbody t.
  rewrite !Z.rem_mod_nonneg by lia.
  rewrite !pretty_Z_N by (Z.div_mod_to_equations; lia).
  destruct (decide (3600 ≤ t)%Z) as [Hh|Hh].
  - rewrite decide_True by (Z.div_mod_to_equations; lia). done.
  - rewrite decide_False by (Z.div_mod_to_equations; lia).
    by rewrite (Z.mod_small t 3600) by lia.
Qed.

(** X25.  For elapsed times that are not negative, two of them are shown as
    the same clock exactly when they agree in their whole seconds. *)
Theorem the_clock_shows_the_whole_seconds a b :
  (0 ≤ a)%Z → (0 ≤ b)%Z →
  formatDuration a = formatDuration b ↔ (a `div` 1000 = b `div` 1000)%Z.
Proof.
  intros Ha Hb. split; [|by unfold formatDuration; intros ->].
  rewrite !formatDuration_nonneg by done. cbv zeta.
  set (s := (a `div` 1000)%Z). set (t := (b `div` 1000)%Z).
  assert (0 ≤ s)%Z as Hs by (apply Z.div_pos; lia).
  assert (0 ≤ t)%Z as Ht by (apply Z.div_pos; lia).
  clearbody s t.
  destruct (decide (3600 ≤ s)%Z) as [Hsh|Hsh],
           (decide (3600 ≤ t)%Z) as [Hth|Hth].
  - intros [Hh [Hm Hsec]%colon_split]%colon_split;
      try apply padStart2_digits.
    apply padStart2_inj in Hh, Hm, Hsec. Z.div_mod_to_equations; lia.
  - intros [_ Habs]%colon_split; try apply padStart2_digits.
    pose proof (padStart2_digits (Z.to_N (t `mod` 60))) as Hd.
    by rewrite <- Habs, colon_no_digits in Hd.
  - intros [_ Habs]%colon_split; try apply padStart2_digits.
    pose proof (padStart2_digits (Z.to_N (s `mod` 60))) as Hd.
    by rewrite Habs, colon_no_digits in Hd.
  - intros [Hm Hsec]%colon_split; try apply padStart2_digits.
    apply padStart2_inj in Hm, Hsec. Z.div_mod_to_equations; lia.
Qed.

Lemma the_clock_shows_the_whole_seconds_witness :
  formatDuration 61000 = formatDuration 61999 ↔
  (61000 `div` 1000 = 61999 `div` 1000)%Z.
Proof.
  apply (the_clock_shows_the_whole_seconds 61000 61999); lia.
Defined.

End StatusBarProperties.

(** * Properties of the status bar *)

Module BarProperties.
Import Types RecordingSession StatusBar SessionProperties.

Lemma listen_nil env w bar : listen env w [] bar = bar.
Proof. reflexivity. Qed.

Lemma in_step_same w w' bar :
  getState w' = getState w → in_step (w, bar) → in_step (w', bar).
Proof. intros Hst [Hc Hi Hu Hh]. split; simpl in *; by rewrite ?Hst. Qed.

Lemma in_step_started env w w' bar :
  getState w ≠ recording → getState w' = recording →
  in_step (w, bar) → in_step (w', startRecordingDisplay env w' bar).
Proof.
  intros Hst Hst' [Hc Hi Hu Hh]. simpl in *.
  assert (updateInterval bar = None) as Hnone.
  { destruct (updateInterval bar) eqn:Hb; [|done].
    exfalso. apply Hst, Hu. by eexists. }
  rewrite Hnone in Hi. simpl in Hi.
  split; simpl.
  - by rewrite decide_True.
  - by rewrite Hi.
  - split; [done|]. intros _. by eexists.
  - rewrite Hi. intros h ->%list_elem_of_singleton. lia.
Qed.

Lemma in_step_stopped w w' bar :
  getState w = recording → getState w' ≠ recording →
  in_step (w, bar) → in_step (w', showIdleDisplay bar).
Proof.
  intros Hst Hst' [Hc Hi Hu Hh]. simpl in *.
  destruct (proj2 Hu Hst) as [h Hb]. rewrite Hb in Hi. simpl in Hi.
  unfold showIdleDisplay, stopTimer. rewrite Hb, Hi. cbv zeta.
  cbn [intervals updateInterval option_list].
  rewrite filter_cons_False by (by intros ?). rewrite filter_nil.
  split; simpl.
  - by rewrite decide_False.
  - done.
  - split; [by intros [? ?]|done].
  - intros h' Hin. by apply elem_of_nil in Hin.
Qed.

Lemma in_step_tick env w bar h :
  h ∈ intervals bar → in_step (w, bar) →
  in_step (w, updateRecordingDisplay env w bar).
Proof.
  intros Hin [Hc Hi Hu Hh]. simpl in *.
  assert (getState w = recording) as Hst.
  { apply Hu. rewrite Hi in Hin.
    destruct (updateInterval bar); [by eexists|by apply elem_of_nil in Hin]. }
  split; simpl; [by rewrite decide_True|done..].
Qed.

Lemma happen_in_step x wb :
  Inv wb.1 → in_step wb →
  Inv (happen x wb).1 ∧ in_step (happen x wb).
Proof.
  destruct wb as [w bar]. intros HI Hs. cbn [fst] in HI.
  destruct x as [env c env_bar|h env_bar]; cbn [happen fst snd].
  - split; [by apply Inv_call|].
    destruct (decide (getState w = recording)) as [Hst|Hst].
    + destruct (payload c) as [v|] eqn:Hp.
      { rewrite (mutation_accepted _ _ _ _ Hst Hp). simpl.
        rewrite drop_app_length. simpl. by apply (in_step_same w). }
      destruct (is_mutation c) eqn:Hm.
      { destruct (mutation_failed env c w Hst Hm Hp) as [e ->]. simpl.
        rewrite drop_all. by apply (in_step_same w). }
      destruct c; try done; cbn [call]; rewrite bind_run.
      * rewrite (start_rejected _ _ _ Hst). simpl. by rewrite drop_all.
      * destruct (inv_startTime _ HI Hst) as [t0 Ht].
        rewrite (stop_accepted _ _ _ _ Hst Ht). simpl.
        rewrite drop_app_length. simpl.
        by apply (in_step_stopped w).
      * simpl. rewrite drop_all. by apply (in_step_same w).
    + destruct (is_mutation c) eqn:Hm.
      { rewrite mutation_dropped; [simpl; by rewrite drop_all|done|done]. }
      destruct c; try done; cbn [call]; rewrite bind_run.
      * rewrite (start_accepted _ _ _ Hst). simpl.
        rewrite drop_app_length. simpl.
        by apply (in_step_started _ w).
      * rewrite (stop_rejected _ _ _ Hst). simpl. by rewrite drop_all.
      * simpl. rewrite drop_all. by apply (in_step_same w).
  - case_bool_decide as Hin; [|done]. split; [done|].
    by apply (in_step_tick _ _ _ h).
Qed.

Lemma happenings_in_step xs wb :
  Inv wb.1 → in_step wb →
  Inv (happenings xs wb).1 ∧ in_step (happenings xs wb).
Proof.
  revert wb. induction xs as [|x xs IH]; intros wb HI Hs; [done|].
  destruct (happen_in_step x wb HI Hs) as [HI' Hs'].
  by apply (IH (happen x wb)).
Qed.

(** X26.  After whatever calls on the session and whatever intervals going
    off, the status bar is in step with the session: a click stops a session
    that is recording and starts one that is not, and exactly one interval is
    alive while the session is recording, none otherwise, so that the bar
    never leaves an interval behind. *)
Theorem the_status_bar_is_in_step_with_the_session env0 env_bar0 xs :
  let wb := happenings xs (constructor env0,
                           new_StatusBar env_bar0 (constructor env0)) in
  command wb.2 = (if decide (getState wb.1 = recording)
                  then "buildlog.stopRecording" else "buildlog.startRecording") ∧
  (if decide (getState wb.1 = recording)
   then ∃ h, updateInterval wb.2 = Some h ∧ intervals wb.2 = [h]
   else updateInterval wb.2 = None ∧ intervals wb.2 = []).
Proof.
  intros wb.
  destruct (happenings_in_step xs
              (constructor env0, new_StatusBar env_bar0 (constructor env0)))
    as [_ [Hc Hi Hu Hh]].
  - apply Inv_constructor.
  - split; simpl; try done. intros h Hin. by apply elem_of_nil in Hin.
  - fold wb in Hc, Hi, Hu. split; [done|].
    case_decide as Hst.
    + destruct (proj2 Hu Hst) as [h Hb]. exists h. by rewrite Hi, Hb.
    + destruct (updateInterval wb.2) as [h|] eqn:Hb.
      * exfalso. apply Hst, Hu. by eexists.
      * by rewrite Hi.
Qed.

End BarProperties.

(** * Properties of the stop command *)

Module CommandProperties.
Import Types RecordingSession Lifecycle Commands SessionProperties LifecycleProperties.

Lemma or_string_Some_truthy s d :
  truthy_string s = true → or_string (Some s) d = s.
Proof. intros Hs. simpl. by rewrite Hs. Qed.

Lemma or_string_or_string a b d :
  truthy_string b = true → or_string (Some (or_string a b)) d = or_string a b.
Proof.
  intros Hb. apply or_string_Some_truthy.
  destruct a as [s|]; [|done]. simpl. by destruct (truthy_string s) eqn:Hs.
Qed.

Lemma recorded_truthy (n : nat) :
  truthy_string ("Recorded " +:+ pretty n +:+ " steps") = true.
Proof. reflexivity. Qed.

(** The command in a session that is being recorded, once the user has
    confirmed. *)
Lemma stop_command_confirmed w0 envs title cs answers b1 b2 env folder write stat
    opened d :
  getState w0 ≠ recording →
  Forall (λ ec, is_stop ec.2 = false) (cs ++ b1 ++ b2) →
  world d = run cs (start envs title w0).2 →
  proceed answers = Some "Stop & Save" →
  ∃ a w',
    stop env (Some {| so_status := or_string (statusChoice answers) "abandoned";
                      so_summary := or_string (summary answers)
                        ("Recorded " +:+ pretty (mutations cs) +:+ " steps") |})
      (run (cs ++ b1 ++ b2) (start envs title w0).2) = (Returns a, w') ∧
    stopRecording answers b1 b2 env folder write stat opened d =
      (let d3 := with_world w' d in
       match folder with
       | None => failed (Error "No workspace folder found") d3
       | Some _ =>
           match write with
           | Throws e => failed e d3
           | Returns _ =>
               match stat with
               | Throws e => failed e (wrote a d3)
               | Returns size =>
                   let d5 := show (BuildlogSaved (round_kb size) (any_prompt cs))
                               (wrote a d3) in
                   match opened with
                   | Throws e => failed e d5
                   | Returns _ => d5
                   end
               end
           end
       end) ∧
    getState w' = idle ∧ current_steps w' = [] ∧
    artifact_steps w' a = accepted (Date_now envs) 0 (cs ++ b1 ++ b2) ∧
    md_replicable (bf_metadata a) = any_prompt (cs ++ b1 ++ b2) ∧
    oc_status (bf_outcome a) = or_string (statusChoice answers) "abandoned" ∧
    oc_summary (bf_outcome a) =
      or_string (summary answers) ("Recorded " +:+ pretty (mutations cs) +:+ " steps").
Proof.
  intros Hw0 Hall Hd Hp.
  assert (Forall (λ ec, is_stop ec.2 = false) cs) as Hcs
    by (by apply Forall_app in Hall as [? _]).
  rewrite (start_accepted _ _ _ Hw0) in Hd. simpl in Hd.
  pose proof (session_extends w0 envs title cs Hcs) as Hext.
  pose proof (session_steps w0 envs title cs Hcs) as Hsteps.
  destruct (session_result w0 envs title (cs ++ b1 ++ b2) env
              (Some {| so_status := or_string (statusChoice answers) "abandoned";
                       so_summary := or_string (summary answers)
                         ("Recorded " +:+ pretty (mutations cs) +:+ " steps") |})
              Hw0 Hall)
    as (a & w' & Hstop & HI & Hidle & _ & _ & Hart & Hrep & _ & Hst & Hsum & _).
  exists a, w'. split; [done|].
  assert (current_steps w' = []) as Hempty.
  { apply stop_returns in Hstop as (t & _ & _ & _ & ->).
    apply (rest_steps _ (at_rest_stopped _)). }
  repeat split; try done.
  - unfold stopRecording.
    assert (isRecording (world d) = true) as ->.
    { rewrite Hd. apply bool_decide_eq_true. by destruct Hext. }
    cbn [negb]. rewrite Hp.
    rewrite (bool_decide_eq_false_2 (Some "Stop & Save" = Some "Add Prompt First"))
      by done.
    rewrite andb_false_r.
    rewrite (bool_decide_eq_true_2 (Some "Stop & Save" = Some "Stop & Save")) by done.
    cbn [negb with_world world].
    assert (getStepCount (world d) = mutations cs) as ->.
    { unfold getStepCount. by rewrite Hd, Hsteps, length_accepted. }
    assert (bool_decide (0 < getPromptCount (world d)) = any_prompt cs) as ->.
    { unfold getPromptCount. rewrite Hd, Hsteps.
      rewrite <- (existsb_is_prompt_accepted (Date_now envs) 0 cs).
      destruct (existsb is_prompt _) eqn:He.
      - apply bool_decide_eq_true. by apply existsb_is_prompt_of_type.
      - apply bool_decide_eq_false. intros Hlt%existsb_is_prompt_of_type.
        congruence. }
    rewrite Hd, <- !run_app, <- ?app_assoc.
    rewrite (start_accepted _ _ _ Hw0) in Hstop. simpl in Hstop.
    by rewrite Hstop.
  - rewrite Hst.
    by apply (or_string_or_string (statusChoice answers) "abandoned").
  - rewrite Hsum.
    by apply (or_string_or_string (summary answers)
                ("Recorded " +:+ pretty (mutations cs) +:+ " steps")).
Qed.

(** X27.  When the user confirms and the file is written, the command saves
    the steps recorded up to the stop, those added while the dialogs were open
    included.  The status is the one picked, or abandoned; the summary is the
    one typed, or else counts the steps there were when the command began; and
    the message calls the buildlog replicable by the prompts there were then. *)
Theorem the_stop_command_counts_what_it_saw_first w0 envs title cs answers b1 b2
    env root path size d :
  getState w0 ≠ recording →
  Forall (λ ec, is_stop ec.2 = false) (cs ++ b1 ++ b2) →
  world d = run cs (start envs title w0).2 →
  proceed answers = Some "Stop & Save" →
  let d' := stopRecording answers b1 b2 env (Some root) (Returns path)
              (Returns size) (Returns tt) d in
  ∃ a,
    written d' = written d ++ [a] ∧
    shown d' = shown d ++ [BuildlogSaved (round_kb size) (any_prompt cs)] ∧
    getState (world d') = idle ∧
    artifact_steps (world d') a = accepted (Date_now envs) 0 (cs ++ b1 ++ b2) ∧
    md_replicable (bf_metadata a) = any_prompt (cs ++ b1 ++ b2) ∧
    oc_status (bf_outcome a) = or_string (statusChoice answers) "abandoned" ∧
    oc_summary (bf_outcome a) =
      or_string (summary answers) ("Recorded " +:+ pretty (mutations cs) +:+ " steps").
Proof.
  intros Hw0 Hall Hd Hp.
  destruct (stop_command_confirmed w0 envs title cs answers b1 b2 env (Some root)
              (Returns path) (Returns size) (Returns tt) d Hw0 Hall Hd Hp)
    as (a & w' & _ & Heq & Hidle & _ & Hart & Hrep & Hst & Hsum).
  intros d'. subst d'. rewrite Heq. clear Heq.
  exists a. cbn [wrote show with_world written shown world].
  split; [reflexivity|]. split; [reflexivity|]. split; [exact Hidle|].
  split; [exact Hart|]. split; [exact Hrep|]. split; [exact Hst|exact Hsum].
Qed.

Lemma the_stop_command_counts_what_it_saw_first_witness :
  let d' := stopRecording sample_answers [] sample_meanwhile (at_ms 9000)
              (Some "/w") (Returns "/w/.buildlog/t.buildlog") (Returns 2048%Z)
              (Returns tt) sample_desk in
  ∃ a,
    written d' = written sample_desk ++ [a] ∧
    shown d' = shown sample_desk ++
               [BuildlogSaved (round_kb 2048) (any_prompt sample_recorded)] ∧
    getState (world d') = idle ∧
    artifact_steps (world d') a =
      accepted (Date_now (at_ms 1000)) 0 (sample_recorded ++ [] ++ sample_meanwhile) ∧
    md_replicable (bf_metadata a) =
      any_prompt (sample_recorded ++ [] ++ sample_meanwhile) ∧
    oc_status (bf_outcome a) = or_string (statusChoice sample_answers) "abandoned" ∧
    oc_summary (bf_outcome a) =
      or_string (summary sample_answers)
        ("Recorded " +:+ pretty (mutations sample_recorded) +:+ " steps").
Proof.
  assert (getState fresh ≠ recording) as H1 by done.
  assert (Forall (λ ec, is_stop ec.2 = false)
            (sample_recorded ++ [] ++ sample_meanwhile)) as H2
    by (repeat constructor).
  assert (world sample_desk =
          run sample_recorded (start (at_ms 1000) (Some "T") fresh).2) as H3
    by reflexivity.
  assert (proceed sample_answers = Some "Stop & Save") as H4 by reflexivity.
  exact (the_stop_command_counts_what_it_saw_first fresh (at_ms 1000) (Some "T")
           sample_recorded sample_answers [] sample_meanwhile (at_ms 9000)
           "/w" "/w/.buildlog/t.buildlog" 2048%Z sample_desk H1 H2 H3 H4).
Defined.

(** X28.  When there is no workspace folder, or the write fails, the command
    has stopped the session all the same: the session is idle and holds no
    steps, and no file has been written. *)
Theorem a_recording_that_cannot_be_written_is_lost w0 envs title cs answers b1 b2
    env folder write stat opened d :
  getState w0 ≠ recording →
  Forall (λ ec, is_stop ec.2 = false) (cs ++ b1 ++ b2) →
  world d = run cs (start envs title w0).2 →
  proceed answers = Some "Stop & Save" →
  folder = None ∨ (∃ e, write = Throws e) →
  let d' := stopRecording answers b1 b2 env folder write stat opened d in
  written d' = written d ∧
  getState (world d') = idle ∧
  current_steps (world d') = [] ∧
  ∃ text, shown d' = shown d ++ [Failure ("Failed to save recording: " +:+ text)].
Proof.
  intros Hw0 Hall Hd Hp Hlost.
  destruct (stop_command_confirmed w0 envs title cs answers b1 b2 env folder
              write stat opened d Hw0 Hall Hd Hp)
    as (a & w' & _ & Heq & Hidle & Hempty & _).
  intros d'. subst d'. rewrite Heq. clear Heq.
  destruct folder as [root|].
  - destruct Hlost as [Hf|[e ->]]; [discriminate Hf|].
    cbn [failed wrote show with_world written shown world].
    split; [reflexivity|]. split; [exact Hidle|]. split; [exact Hempty|].
    exists (message_of e). reflexivity.
  - cbn [failed wrote show with_world written shown world].
    split; [reflexivity|]. split; [exact Hidle|]. split; [exact Hempty|].
    exists "No workspace folder found". reflexivity.
Qed.

Lemma a_recording_that_cannot_be_written_is_lost_witness :
  let d' := stopRecording sample_answers [] sample_meanwhile (at_ms 9000)
              None (Returns "/w/.buildlog/t.buildlog") (Returns 2048%Z)
              (Returns tt) sample_desk in
  written d' = written sample_desk ∧
  getState (world d') = idle ∧
  current_steps (world d') = [] ∧
  ∃ text, shown d' = shown sample_desk ++
                     [Failure ("Failed to save recording: " +:+ text)].
Proof.
  assert (getState fresh ≠ recording) as H1 by done.
  assert (Forall (λ ec, is_stop ec.2 = false)
            (sample_recorded ++ [] ++ sample_meanwhile)) as H2
    by (repeat constructor).
  assert (world sample_desk =
          run sample_recorded (start (at_ms 1000) (Some "T") fresh).2) as H3
    by reflexivity.
  assert (proceed sample_answers = Some "Stop & Save") as H4 by reflexivity.
  exact (a_recording_that_cannot_be_written_is_lost fresh (at_ms 1000) (Some "T")
           sample_recorded sample_answers [] sample_meanwhile (at_ms 9000)
           None (Returns "/w/.buildlog/t.buildlog") (Returns 2048%Z) (Returns tt)
           sample_desk H1 H2 H3 H4 (or_introl eq_refl)).
Defined.

(** Until the user has pressed the button to stop and save, the command
    does nothing to the session and writes nothing: the session is as the
    other components left it while the first dialog was open. *)
Theorem an_unconfirmed_stop_leaves_the_session_alone answers b1 b2 env folder
    write stat opened d :
  proceed answers ≠ Some "Stop & Save" →
  let d' := stopRecording answers b1 b2 env folder write stat opened d in
  world d' = (if isRecording (world d) then run b1 (world d) else world d) ∧
  written d' = written d.
Proof.
  intros Hp. unfold stopRecording.
  destruct (isRecording (world d)); cbn [negb]; [|by split].
  destruct (bool_decide (getPromptCount (world d) = 0) && _); [by split|].
  rewrite bool_decide_eq_false_2 by done. by split.
Qed.

Lemma an_unconfirmed_stop_leaves_the_session_alone_witness :
  let d' := stopRecording sample_cancelled [] [] (at_ms 9000) (Some "/w")
              (Returns "/w/f") (Returns 0%Z) (Returns tt) sample_desk in
  world d' = (if isRecording (world sample_desk)
              then run [] (world sample_desk) else world sample_desk) ∧
  written d' = written sample_desk.
Proof.
  apply (an_unconfirmed_stop_leaves_the_session_alone sample_cancelled
           [] [] (at_ms 9000) (Some "/w") (Returns "/w/f") (Returns 0%Z)
           (Returns tt) sample_desk).
  simpl. discriminate.
Defined.

End CommandProperties.

(** * Properties of the global chat interceptor *)

Module InterceptorProperties.
Import Types RecordingSession AgentFeedWatcher GlobalInterceptor SessionProperties.
Import FeedPollingProperties ChatProperties WriterProperties.

Lemma length_rev_app s acc :
  String.length (String.rev_app s acc) = String.length s + String.length acc.
Proof.
  revert acc. induction s as [|c s IH]; intros acc; [done|].
  cbn [String.rev_app]. rewrite IH. simpl. lia.
Qed.

Lemma length_rev s : String.length (String.rev s) = String.length s.
Proof. unfold String.rev. rewrite length_rev_app. simpl. lia. Qed.

Lemma length_trimStart s : String.length (trimStart s) ≤ String.length s.
Proof.
  induction s as [|c s IH]; [done|]. cbn [trimStart].
  destruct (isWhiteSpace c); simpl; lia.
Qed.

Lemma length_trim s : String.length (trim s) ≤ String.length s.
Proof.
  unfold trim. rewrite length_rev.
  etrans; [apply length_trimStart|]. rewrite length_rev. apply length_trimStart.
Qed.

Lemma first_paragraph_empty text :
  first_paragraph text = EmptyString ↔
  text = EmptyString ∨ is_prefix (newline +:+ newline) text = true.
Proof.
  destruct text as [|c text]; [by split; [left|]|].
  cbn [first_paragraph].
  destruct (is_prefix (newline +:+ newline) (String c text)) eqn:Hp.
  - by split; [right|].
  - split; [done|]. by intros [?|?].
Qed.

(** X29.  The summary of an intercepted response has at most 203 characters,
    and it is empty exactly when the response is empty or begins with an empty
    line. *)
Theorem an_intercepted_summary_is_short_and_may_be_empty text :
  String.length (createSummary text) ≤ 203 ∧
  (createSummary text = EmptyString ↔
   text = EmptyString ∨ is_prefix (newline +:+ newline) text = true).
Proof.
  unfold createSummary. cbv zeta. case_decide as Hlen.
  - split; [lia|]. apply first_paragraph_empty.
  - split.
    + rewrite length_app_string. simpl.
      pose proof (length_trim (String.substring 0 200 text)).
      pose proof (length_substring_le 200 text). lia.
    + split.
      * intros Heq. apply (f_equal String.length) in Heq.
        rewrite length_app_string in Heq. simpl in Heq. lia.
      * intros Hempty%first_paragraph_empty. rewrite Hempty in Hlen.
        simpl in Hlen. lia.
Qed.

Section Listeners.
Variable extractFileMentions : string → list string.

(** X30.  A response is either ignored, or recorded as one action step while a
    request intercepted at most thirty seconds before is pending; the request
    is then forgotten, so that no second response is recorded for it. *)
Theorem a_response_is_recorded_once_per_request env_check env text i :
  let i' := responseListener extractFileMentions env_check env text i in
  i' = i ∨
  (∃ prompt timestamp responseText,
     getState (world i) = recording ∧
     lastChatRequest i = Some (prompt, timestamp) ∧
     (Date_now env_check - timestamp ≤ 30000)%Z ∧
     text = Some responseText ∧ responseText ≠ EmptyString ∧
     world i' = accept env (response_step extractFileMentions responseText) (world i) ∧
     lastChatRequest i' = None ∧
     ∀ env_check' env' text',
       responseListener extractFileMentions env_check' env' text' i' = i').
Proof.
  intros i'.
  assert (i' = i ∨
          ∃ prompt timestamp c r,
            getState (world i) = recording ∧
            lastChatRequest i = Some (prompt, timestamp) ∧
            (Date_now env_check - timestamp ≤ 30000)%Z ∧
            text = Some (String c r) ∧
            i' = {| world := (addAction env (createSummary (String c r))
                                (Some (response_options extractFileMentions
                                         (String c r))) (world i)).2;
                    lastChatRequest := None |}) as [Hsame|Hrec].
  { unfold i', responseListener.
    destruct (decide (getState (world i) ≠ recording)) as [Hst|Hst]; [by left|].
    apply dec_stable in Hst.
    destruct (lastChatRequest i) as [[prompt timestamp]|] eqn:Hl; [|by left].
    case_decide as Hage; [by left|].
    case_decide as Hlen; [by left|].
    destruct text as [[|c r]|]; [done| |done].
    right. exists prompt, timestamp, c, r.
    repeat split; try done. lia. }
  - by left.
  - right. destruct Hrec as (prompt & timestamp & c & r & Hst & Hl & Hage & -> & ->).
    exists prompt, timestamp, (String c r).
    cbn [world lastChatRequest].
    repeat split; try done.
    + rewrite addAction_call by apply well_typed_listing.
      rewrite (mutation_accepted env _
                 (response_step extractFileMentions (String c r)) _ Hst); [done|].
      rewrite well_typed_payload by apply well_typed_listing. reflexivity.
    + intros env_check' env' text'. unfold responseListener.
      cbn [world lastChatRequest]. by case_decide.
Qed.

End Listeners.
End InterceptorProperties.
